(** * fpylll.algorithms.bkz_stats: statistics, trace trees and tracers

    A shallow embedding of [src/fpylll/algorithms/bkz_stats.py] and the
    properties of it that the specification states.

    Conventions of the embedding.
    - A Python number is an [int] or a [float]: [num].  An [int] is an
      unbounded integer (Python 2's [long] is not told apart).  A [float]
      is idealised as an exact rational: rounding, infinities, NaN, the
      negative zero and [OverflowError] are outside the model.  Where a
      statement would not hold of rounded sums it is made of ints, whose
      arithmetic is exact; where it says that nothing fails it is made of
      numbers in the range of a double ([in_range]), and of ints proper
      ([plain]) where [pretty_dict] tells an [int] from a [long].
    - The module is Python 2 code ([iteritems], [time.clock], no
      [from __future__ import division]): [/] on two ints is floor
      division ([future_division]).
    - A [str] is ASCII text: the decoding errors of Python 2's unicode
      formatting are outside the model.
    - A Python exception is a value of [pyerr]; a computation that may
      raise returns a [result].
    - A [Statistic] object is a cell of a store ([Heap]); the value stored
      in the cell is a record of its six fields ([Statistic.t]).  Trees
      hold field records: no operation of [Node] or of the tracers updates
      a Statistic in place ([+] and [+=] on a Statistic build a new one).
    - A [Node] is a finite tree; the [parent] links are kept by a cursor
      ([Cursor]) where a tracer needs them.  A position below a node is
      named by the path of labels that leads to it. *)

From Stdlib Require Import ZArith QArith Qround Qabs Qcanon String Ascii List Lia DecimalString.
From stdpp Require Import base numbers list strings gmap.

Set Warnings "-register-all".

Local Open Scope Z_scope.
Local Open Scope string_scope.

(** ** Exceptions *)

Inductive pyerr :=
| ValueError | KeyError | AttributeError | ZeroDivisionError | TypeError | IndexError.

Inductive result (A : Type) :=
| Ok (a : A)
| Raise (e : pyerr).
Arguments Ok {A} a.
Arguments Raise {A} e.

Definition bind {A B} (m : result A) (k : A -> result B) : result B :=
  match m with Ok a => k a | Raise e => Raise e end.

Notation "'let*' x := m 'in' k" := (bind m (fun x => k))
  (at level 10, x name, m at level 100, k at level 200).

Definition is_ok {A} (m : result A) : bool :=
  match m with Ok _ => true | Raise _ => false end.

(** ** Python numbers *)

Inductive num :=
| PInt (z : Z)
| PFloat (q : Qc).

(** The numeric value of a number: what Python's [==], [<] and [float()]
    read. *)
Definition val (x : num) : Qc :=
  match x with PInt z => Qc_of_Z z | PFloat q => q end.

Definition num_ltb (a b : num) : bool :=
  match (val a ?= val b)%Qc with Lt => true | _ => false end.

Definition num_eqb (a b : num) : bool :=
  match (val a ?= val b)%Qc with Eq => true | _ => false end.

Definition num_add (a b : num) : num :=
  match a, b with
  | PInt x, PInt y => PInt (x + y)
  | _, _ => PFloat (val a + val b)
  end.

Definition num_sub (a b : num) : num :=
  match a, b with
  | PInt x, PInt y => PInt (x - y)
  | _, _ => PFloat (val a - val b)
  end.

Definition num_mul (a b : num) : num :=
  match a, b with
  | PInt x, PInt y => PInt (x * y)
  | _, _ => PFloat (val a * val b)
  end.

Definition num_neg (a : num) : num :=
  match a with PInt x => PInt (- x) | PFloat q => PFloat (- q) end.

Definition num_abs (a : num) : num :=
  match a with
  | PInt x => PInt (Z.abs x)
  | PFloat q => if num_ltb a (PInt 0) then PFloat (- q) else a
  end.

(** Whether [/] on two ints is true division.  The module does not import
    [division] from [__future__], and it is Python 2 code: it is not.  (On
    Python 3 it would be.) *)
Definition future_division : bool := false.

(** [a / b]: on two ints floor division, or true division under
    [future_division]; true division otherwise. *)
Definition num_div (a b : num) : result num :=
  match a, b with
  | PInt x, PInt y =>
      if (y =? 0)%Z then Raise ZeroDivisionError
      else if future_division then Ok (PFloat (val a / val b))
      else Ok (PInt (x / y))
  | _, _ =>
      if num_eqb b (PInt 0) then Raise ZeroDivisionError
      else Ok (PFloat (val a / val b))
  end.

(** [a ** 2].  On a float whose square is out of the range of a double
    Python raises [OverflowError]; the embedding has the exact square. *)
Definition num_sq (a : num) : num := num_mul a a.

(** [float(a)].  On an int out of the range of a double Python raises
    [OverflowError]; the embedding has the exact value. *)
Definition to_float (a : num) : num := PFloat (val a).

(** [min(a, b)] and [max(a, b)] of the builtins: the first argument is kept
    unless the second is strictly smaller (greater). *)
Definition py_min (a b : num) : num := if num_ltb b a then b else a.
Definition py_max (a b : num) : num := if num_ltb a b then b else a.

(** ** class Statistic *)

Module Statistic.

(** The fields of a Statistic object. *)
Record t := mk {
  _min : num;
  _max : num;
  _sum : num;
  _sqr : num;
  _ctr : Z;
  _repr : string
}.

(** [Statistic(value, repr, count)]: the fields [__init__] sets. *)
Definition __init__ (value : num) (repr : string) (count : bool) : t :=
  {| _min := value;
     _max := value;
     _sum := value;
     _sqr := num_mul value value;
     _ctr := if count then 1 else 0;
     _repr := repr |}.

(** [self.add(value)]: the fields of [self] afterwards ([add] returns
    [self]). *)
Definition add (self : t) (value : num) : t :=
  {| _min := py_min (_min self) value;
     _max := py_max (_max self) value;
     _sum := num_add (_sum self) value;
     _sqr := num_add (_sqr self) (num_mul value value);
     _ctr := _ctr self + 1;
     _repr := _repr self |}.

Definition min (self : t) : num := _min self.
Definition max (self : t) : num := _max self.
Definition sum (self : t) : num := _sum self.

Definition avg (self : t) : result num :=
  num_div (_sum self) (PInt (_ctr self)).

Definition variance (self : t) : result num :=
  let* q := num_div (_sqr self) (PInt (_ctr self)) in
  let* a := avg self in
  Ok (num_sub q (num_sq a)).

(** What a tag of a node, or the right operand of [+], can hold: [None], a
    number or a Statistic. *)
Inductive value :=
| VNone
| VNum (x : num)
| VStat (s : t).

(** [self + other] ([__add__]): the fields of the object returned.  The
    object is a new one in each branch, see [Heap.__add__]. *)
Definition __add__ (self : t) (other : value) : result t :=
  match other with
  | VNone => Ok self
  | VNum x => Ok (add self x)
  | VStat o =>
      if negb (String.eqb (_repr self) (_repr o)) then Raise ValueError
      else
        Ok {| _min := py_min (min self) (min o);
              _max := py_max (max self) (max o);
              _sum := num_add (_sum self) (_sum o);
              _sqr := num_add (_sqr self) (_sqr o);
              _ctr := _ctr self + _ctr o;
              _repr := _repr self |}
  end.

(** [other + self] when [other] cannot add a Statistic ([__radd__]). *)
Definition __radd__ (self : t) (other : value) : result t :=
  __add__ self other.

(** [self.__getattribute__(name)] for the names that hold a number: the
    five properties and the five numeric fields.  Any other name (the
    field [_repr], a method, an attribute that does not exist) is no number
    and cannot be scalarized; the model reports all of them as
    [AttributeError]. *)
Definition __getattribute__ (self : t) (name : string) : result num :=
  if String.eqb name "min" then Ok (min self)
  else if String.eqb name "max" then Ok (max self)
  else if String.eqb name "avg" then avg self
  else if String.eqb name "sum" then Ok (sum self)
  else if String.eqb name "variance" then variance self
  else if String.eqb name "_min" then Ok (_min self)
  else if String.eqb name "_max" then Ok (_max self)
  else if String.eqb name "_sum" then Ok (_sum self)
  else if String.eqb name "_sqr" then Ok (_sqr self)
  else if String.eqb name "_ctr" then Ok (PInt (_ctr self))
  else Raise AttributeError.

(** [float(self)]. *)
Definition __float__ (self : t) : result num :=
  let* x := __getattribute__ self (_repr self) in
  Ok (to_float x).

End Statistic.

Abbreviation value := Statistic.value.
Abbreviation VNone := Statistic.VNone.
Abbreviation VNum := Statistic.VNum.
Abbreviation VStat := Statistic.VStat.


(** [a + b] on values, as Python dispatches it: numbers add; a Statistic on
    the left answers with [__add__]; [None] and numbers cannot add a
    Statistic, so a Statistic on the right answers with [__radd__]. *)
Definition vadd (a b : value) : result value :=
  match a, b with
  | VNum x, VNum y => Ok (VNum (num_add x y))
  | VStat s, _ => let* r := Statistic.__add__ s b in Ok (VStat r)
  | _, VStat s => let* r := Statistic.__radd__ s a in Ok (VStat r)
  | _, _ => Raise TypeError
  end.

(** ** Statistic objects in a store

    [add] updates the object it is called on and returns it; [copy.copy]
    and the constructor allocate.  A function of this module has no
    result (the [None] of [option]) only when it is handed a reference
    that is not allocated. *)

Module Heap.

Definition loc := positive.

(** A Python value as an operand: [None], a number, or a reference to a
    Statistic object. *)
Inductive pyval :=
| RNone
| RNum (x : num)
| RRef (l : loc).

(** [Statistic(value, repr, count)]. *)
Definition new (value : num) (repr : string) (count : bool)
    (h : gmap loc Statistic.t) : loc * gmap loc Statistic.t :=
  let l := fresh (dom h) in (l, <[l := Statistic.__init__ value repr count]> h).

(** [copy.copy(self)]. *)
Definition copy (self : loc) (h : gmap loc Statistic.t)
    : option (loc * gmap loc Statistic.t) :=
  s ← h !! self;
  let l := fresh (dom h) in Some (l, <[l := s]> h).

(** An assignment to fields of the object at [l]. *)
Definition write (l : loc) (f : Statistic.t -> Statistic.t)
    (h : gmap loc Statistic.t) : option (gmap loc Statistic.t) :=
  s ← h !! l; Some (<[l := f s]> h).

(** [self.add(value)]: updates [self] in place and returns it. *)
Definition add (self : loc) (value : num) (h : gmap loc Statistic.t)
    : option (loc * gmap loc Statistic.t) :=
  h' ← write self (fun s => Statistic.add s value) h;
  Some (self, h').

Definition set_min (x : num) (s : Statistic.t) : Statistic.t :=
  Statistic.mk x (Statistic._max s) (Statistic._sum s) (Statistic._sqr s)
    (Statistic._ctr s) (Statistic._repr s).
Definition set_max (x : num) (s : Statistic.t) : Statistic.t :=
  Statistic.mk (Statistic._min s) x (Statistic._sum s) (Statistic._sqr s)
    (Statistic._ctr s) (Statistic._repr s).
Definition set_sum (x : num) (s : Statistic.t) : Statistic.t :=
  Statistic.mk (Statistic._min s) (Statistic._max s) x (Statistic._sqr s)
    (Statistic._ctr s) (Statistic._repr s).
Definition set_sqr (x : num) (s : Statistic.t) : Statistic.t :=
  Statistic.mk (Statistic._min s) (Statistic._max s) (Statistic._sum s) x
    (Statistic._ctr s) (Statistic._repr s).
Definition set_ctr (c : Z) (s : Statistic.t) : Statistic.t :=
  Statistic.mk (Statistic._min s) (Statistic._max s) (Statistic._sum s)
    (Statistic._sqr s) c (Statistic._repr s).
Definition set_repr (r : string) (s : Statistic.t) : Statistic.t :=
  Statistic.mk (Statistic._min s) (Statistic._max s) (Statistic._sum s)
    (Statistic._sqr s) (Statistic._ctr s) r.

(** [self + other], statement by statement. *)
Definition __add__ (self : loc) (other : pyval) (h : gmap loc Statistic.t)
    : option (result (loc * gmap loc Statistic.t)) :=
  match other with
  | RNone => r ← copy self h; Some (Ok r)
  | RNum x =>
      r ← copy self h;
      r' ← add r.1 x r.2;
      Some (Ok r')
  | RRef o =>
      s ← h !! self;
      t ← h !! o;
      if negb (String.eqb (Statistic._repr s) (Statistic._repr t))
      then Some (Raise ValueError)
      else
        let '(ret, h) := new (PInt 0) "sum" true h in
        s ← h !! self; t ← h !! o;
        h ← write ret (set_min (py_min (Statistic.min s) (Statistic.min t))) h;
        s ← h !! self; t ← h !! o;
        h ← write ret (set_max (py_max (Statistic.max s) (Statistic.max t))) h;
        s ← h !! self; t ← h !! o;
        h ← write ret (set_sum (num_add (Statistic._sum s) (Statistic._sum t))) h;
        s ← h !! self; t ← h !! o;
        h ← write ret (set_sqr (num_add (Statistic._sqr s) (Statistic._sqr t))) h;
        s ← h !! self; t ← h !! o;
        h ← write ret (set_ctr (Statistic._ctr s + Statistic._ctr t)) h;
        s ← h !! self;
        h ← write ret (set_repr (Statistic._repr s)) h;
        Some (Ok (ret, h))
  end.


End Heap.

(** ** Labels

    A label is a string, an int or a tuple of labels ([TraceContext] makes
    a tuple of its positional arguments when there are several). *)

Inductive Label :=
| LStr (s : string)
| LInt (z : Z)
| LTuple (l : list Label).

(** [a == b] on labels. *)
Fixpoint label_eqb (a b : Label) : bool :=
  match a, b with
  | LStr s, LStr t => String.eqb s t
  | LInt x, LInt y => (x =? y)%Z
  | LTuple l, LTuple m =>
      (fix all2 (l m : list Label) : bool :=
         match l, m with
         | [], [] => true
         | x :: l', y :: m' => label_eqb x y && all2 l' m'
         | _, _ => false
         end) l m
  | _, _ => false
  end.

(** ** OrderedDict: the data of a node

    Keys in insertion order; a key occurs once ([od_wf]). *)

Definition od_get (k : string) (d : list (string * value)) : option value :=
  snd <$> List.find (fun kv => String.eqb (fst kv) k) d.

Definition od_mem (k : string) (d : list (string * value)) : bool :=
  match od_get k d with Some _ => true | None => false end.

(** [d.get(k, dflt)]. *)
Definition od_get_default (k : string) (dflt : value) (d : list (string * value)) : value :=
  match od_get k d with Some v => v | None => dflt end.

(** [d[k]]. *)
Definition od_getitem (k : string) (d : list (string * value)) : result value :=
  match od_get k d with Some v => Ok v | None => Raise KeyError end.

(** [d[k] = v]: an existing key keeps its place, a new one goes last. *)
Fixpoint od_set (k : string) (v : value) (d : list (string * value)) : list (string * value) :=
  match d with
  | [] => [(k, v)]
  | (k', v') :: d' =>
      if String.eqb k' k then (k', v) :: d' else (k', v') :: od_set k v d'
  end.

Definition od_wf (d : list (string * value)) : Prop := NoDup (map fst d).

(** ** Formatting: the [%] conversions [pretty_dict] and [__str__] use *)

Definition dq : string := String "034"%char EmptyString.
Definition sq : string := String "039"%char EmptyString.
Definition newline : string := String "010"%char EmptyString.

Fixpoint spaces (n : nat) : string :=
  match n with O => "" | S n' => " " ++ spaces n' end.

Fixpoint zeros (n : nat) : string :=
  match n with O => "" | S n' => "0" ++ zeros n' end.

(** ["%<w>s" % s]: right-justified in [w] characters, left-justified in
    [-w] when [w] is negative. *)
Definition fmt_s (w : Z) (s : string) : string :=
  let pad := spaces (Z.to_nat (Z.abs w) - String.length s) in
  if (w <? 0)%Z then s ++ pad else pad ++ s.

(** [str(z)] of an int. *)
Definition str_int (z : Z) : string := NilZero.string_of_int (Z.to_int z).

(** ["%8d" % z]. *)
Definition fmt_8d (z : Z) : string := fmt_s 8 (str_int z).

(** The integer nearest to a rational that is not negative, ties to even:
    the rounding of a correctly rounded [%f]. *)
Definition round_half_even (q : Q) : Z :=
  let f := Qfloor q in
  match Qcompare (q - inject_Z f) (1 # 2) with
  | Lt => f
  | Gt => f + 1
  | Eq => if Z.even f then f else f + 1
  end.

(** ["%.<prec>f" % q]. *)
Definition fmt_f (prec : nat) (q : Qc) : string :=
  let p := (10 ^ Z.of_nat prec)%Z in
  let m := round_half_even (Qabs q * inject_Z p) in
  let frac := str_int (m mod p) in
  (if num_ltb (PFloat q) (PInt 0) then "-" else "")
  ++ str_int (m / p)
  ++ match prec with
     | O => ""
     | _ => "." ++ zeros (prec - String.length frac) ++ frac
     end.

(** The integer nearest to [10 * log2 x], for a rational [x >= 1]:
    [k] with [2^(2k-1) <= x^20 < 2^(2k+1)]. *)
Definition log2_tenths (x : Q) : Z :=
  (Z.log2 (Qfloor (x ^ 20)) + 1) / 2.

(** ["%.1f" % log(x, 2)] for [x > 0], on the exact logarithm. *)
Definition fmt_log2 (x : Qc) : string :=
  if num_ltb (PFloat x) (PInt 1) then
    let k := log2_tenths (/ x)%Q in
    "-" ++ str_int (k / 10) ++ "." ++ str_int (k mod 10)
  else
    let k := log2_tenths x in
    str_int (k / 10) ++ "." ++ str_int (k mod 10).

(** ["%8s" % ("%s2^%.1f" % ("" if v > 0 else "-", log(abs(v), 2)))];
    [log] raises [ValueError] at 0. *)
Definition fmt_exp (v : num) : result string :=
  if num_eqb v (PInt 0) then Raise ValueError
  else
    Ok (fmt_s 8 ((if num_ltb (PInt 0) v then "" else "-")
                 ++ "2^" ++ fmt_log2 (val (num_abs v)))).

(** [float(v)]. *)
Definition float_of_value (v : value) : result num :=
  match v with
  | VNone => Raise TypeError
  | VNum x => Ok (to_float x)
  | VStat s => Statistic.__float__ s
  end.

(** The key of an entry of [pretty_dict]. *)
Definition pretty_key (keyword_width : option Z) (k : string) : string :=
  match keyword_width with
  | Some w => if (w =? 0)%Z then dq ++ k ++ dq else dq ++ fmt_s w k ++ dq
  | None => dq ++ k ++ dq
  end.

(** The branches of [pretty_dict] on a float [v]. *)
Definition pretty_float (k : string) (v : num) (round_bound : num)
    : result string :=
  if negb (num_ltb v (PInt 0)) && num_ltb v (PInt 10) then
    Ok (k ++ ": " ++ fmt_s 8 (fmt_f 6 (val v)))
  else if num_ltb (PInt (-10)) v && num_ltb v (PInt 0) then
    Ok (k ++ ": " ++ fmt_s 8 (fmt_f 5 (val v)))
  else if num_ltb (num_abs v) round_bound then
    Ok (k ++ ": " ++ fmt_s 8 (fmt_f 3 (val v)))
  else
    let* e := fmt_exp v in Ok (k ++ ": " ++ e).

(** One turn of the loop of [pretty_dict]: the string appended to [s].  A
    Statistic is no int and no float, so [float(v)] is tried; it does not
    raise [TypeError] on a Statistic, and [None] is the value that reaches
    the [except] branch, where [str(None)] is printed.  An int is taken
    for an int proper ([plain]): a [long] of Python 2 would go the way of
    a Statistic. *)
Definition pretty_entry (keyword_width : option Z) (round_bound : num)
    (kv : string * value) : result string :=
  let k := pretty_key keyword_width (fst kv) in
  match snd kv with
  | VNum (PInt z) =>
      if num_ltb round_bound (num_abs (PInt z)) then
        let* e := fmt_exp (PInt z) in Ok (k ++ ": " ++ e)
      else Ok (k ++ ": " ++ fmt_8d z)
  | VNum (PFloat q) => pretty_float k (PFloat q) round_bound
  | v =>
      match float_of_value v with
      | Ok f => pretty_float k f round_bound
      | Raise TypeError =>
          match v with
          | VNone => Ok (k ++ ": " ++ "None")
          | _ => Raise TypeError
          end
      | Raise e => Raise e
      end
  end.

Fixpoint pretty_entries (keyword_width : option Z) (round_bound : num)
    (d : list (string * value)) : result (list string) :=
  match d with
  | [] => Ok []
  | kv :: d' =>
      let* e := pretty_entry keyword_width round_bound kv in
      let* es := pretty_entries keyword_width round_bound d' in
      Ok (e :: es)
  end.

(** [pretty_dict(d, keyword_width, round_bound)]. *)
Definition pretty_dict (d : list (string * value)) (keyword_width : option Z)
    (round_bound : num) : result string :=
  let* s := pretty_entries keyword_width round_bound d in
  Ok ("{" ++ String.concat ",  " s ++ "}").

(** [repr(s)] of a str: single quotes unless the string holds one and no
    double quote; the quote and the backslash are escaped, tab, newline
    and return by letter, other bytes outside the printable range in
    hexadecimal. *)
Definition contains (c : ascii) (s : string) : bool :=
  existsb (Ascii.eqb c) (list_ascii_of_string s).

Definition hex_digit (n : nat) : string :=
  String.substring n 1 "0123456789abcdef".

Definition repr_char (quote : ascii) (c : ascii) : string :=
  let n := nat_of_ascii c in
  if Ascii.eqb c quote || Ascii.eqb c "092"%char then
    String "092"%char (String c EmptyString)
  else if Ascii.eqb c "009"%char then String "092"%char "t"
  else if Ascii.eqb c "010"%char then String "092"%char "n"
  else if Ascii.eqb c "013"%char then String "092"%char "r"
  else if (n <? 32)%nat || (127 <=? n)%nat then
    String "092"%char ("x" ++ hex_digit (n / 16) ++ hex_digit (n mod 16))
  else String c EmptyString.

Definition repr_str (s : string) : string :=
  let quote :=
    if contains "039"%char s && negb (contains "034"%char s)
    then "034"%char else "039"%char in
  String quote
    (String.concat "" (map (repr_char quote) (list_ascii_of_string s))
     ++ String quote EmptyString).

(** [repr(l)] of a label. *)
Fixpoint repr_label (l : Label) : string :=
  match l with
  | LStr s => repr_str s
  | LInt z => str_int z
  | LTuple items =>
      "(" ++ String.concat ", " (map repr_label items)
      ++ match items with [_] => "," | _ => "" end ++ ")"
  end.

(** [str(l)], what [%s] prints. *)
Definition str_label (l : Label) : string :=
  match l with
  | LStr s => s
  | _ => repr_label l
  end.

(** ** class Node *)

Module Node.

Inductive t := mk {
  label : Label;
  data : list (string * value);
  children : list t
}.

(** [Node(label)], and [Node(label, data=d)]. *)
Definition __init__ (l : Label) (d : list (string * value)) : t :=
  mk l d [].

(** [self.add_child(child)]: the node afterwards. *)
Definition add_child (self child : t) : t :=
  mk (label self) (data self) (children self ++ [child])%list.

(** The scan of [child], [merge] and [find]: the first of a list of nodes
    with the label, and its index. *)
Fixpoint first_labelled (l : Label) (cs : list t) : option (nat * t) :=
  match cs with
  | [] => None
  | c :: cs' =>
      if label_eqb (label c) l then Some (O, c)
      else match first_labelled l cs' with
           | Some (i, c') => Some (S i, c')
           | None => None
           end
  end.

(** [self.child(label)]: the node afterwards, the index of the child
    returned, and the child. *)
Definition child (self : t) (l : Label) : t * nat * t :=
  match first_labelled l (children self) with
  | Some (i, c) => (self, i, c)
  | None =>
      let c := __init__ l [] in
      (add_child self c, length (children self), c)
  end.

(** [self.sum(tag, include_self, raise_keyerror, label)]. *)
Fixpoint sum (tag : string) (include_self raise_keyerror : bool)
    (lab : option Label) (self : t) : result value :=
  let* r :=
    if include_self &&
       match lab with None => true | Some l => label_eqb (label self) l end
    then
      if raise_keyerror then od_getitem tag (data self)
      else Ok (od_get_default tag (VNum (PInt 0)) (data self))
    else Ok (VNum (PInt 0)) in
  (fix loop (cs : list t) (r : value) : result value :=
     match cs with
     | [] => Ok r
     | c :: cs' =>
         let* x := sum tag true raise_keyerror lab c in
         let* r' := vadd r x in
         loop cs' r'
     end) (children self) r.

(** [str(self)]. *)
Definition __str__ (self : t) : result string :=
  let* d := pretty_dict (data self) None (PInt 9999) in
  Ok ("{" ++ dq ++ str_label (label self) ++ dq ++ ": " ++ d ++ "}").

(** [self.find(label, raise_keyerror)]: [Ok None] is the return value
    [None].  The message of the [KeyError] is formatted from [label] and
    [str(self)] before it is raised, so what [str(self)] raises comes in
    its place; and the [except] clause of the second loop lets anything
    but a [KeyError] through. *)
Fixpoint find (l : Label) (raise_keyerror : bool) (self : t)
    : result (option t) :=
  match first_labelled l (children self) with
  | Some (_, c) => Ok (Some c)
  | None =>
      (fix loop (cs : list t) : result (option t) :=
         match cs with
         | [] =>
             if raise_keyerror then let* _ := __str__ self in Raise KeyError
             else Ok None
         | c :: cs' =>
             match find l raise_keyerror c with
             | Raise KeyError => loop cs'
             | r => r
             end
         end) (children self)
  end.

(** The first loop of [merge]: [self.data] afterwards. *)
Fixpoint merge_data (self_data node_data : list (string * value))
    : result (list (string * value)) :=
  match node_data with
  | [] => Ok self_data
  | (k, v) :: rest =>
      match od_get k self_data with
      | Some old =>
          let* new := vadd old v in
          merge_data (od_set k new self_data) rest
      | None => merge_data (od_set k v self_data) rest
      end
  end.

(** [self.merge(node)]: [self] afterwards.  The two trees share no node. *)
Fixpoint merge (self node : t) {struct node} : result t :=
  let* d := merge_data (data self) (data node) in
  let* cs :=
    (fix loop (ncs scs : list t) : result (list t) :=
       match ncs with
       | [] => Ok scs
       | c :: ncs' =>
           match first_labelled (label c) scs with
           | Some (i, sc) =>
               let* sc' := merge sc c in
               loop ncs' (<[i := sc']> scs)
           | None =>
               let* sc' := merge (__init__ (label c) []) c in
               loop ncs' (scs ++ [sc'])%list
           end
       end) (children node) (children self) in
  Ok (mk (label self) d cs).

(** What [get] returns: a child, or a tuple of children. *)
Inductive get_result :=
| Single (n : t)
| Family (ns : list t).

(** The exception at the end of [get].  Its message is formatted with
    ["...%s'" % (label)]: a label that is a tuple is taken for the tuple
    of the arguments, and only one of length 1 fits the one [%s]; with any
    other length the formatting raises [TypeError]. *)
Definition get_error (l : Label) : pyerr :=
  match l with
  | LTuple [_] => AttributeError
  | LTuple _ => TypeError
  | _ => AttributeError
  end.

Fixpoint get_loop (l : Label) (cs r : list t) : result get_result :=
  match cs with
  | [] => match r with [] => Raise (get_error l) | _ => Ok (Family r) end
  | c :: cs' =>
      if label_eqb (label c) l then Ok (Single c)
      else
        match label c with
        | LTuple [] => Raise IndexError
        | LTuple (x :: _) =>
            if label_eqb x l then get_loop l cs' (r ++ [c])%list
            else get_loop l cs' r
        | _ => get_loop l cs' r
        end
  end.

(** [self.get(label)]. *)
Definition get (self : t) (l : Label) : result get_result :=
  get_loop l (children self) [].

End Node.

Module NodeText.

Import Node.

(** [str(self)] is [Node.__str__], which [find] uses. *)
Abbreviation __str__ := Node.__str__.

(** [self.report(indentation, depth)].  The loop over the children lowers
    [depth] at each turn. *)
Fixpoint report (indentation : Z) (depth : option Z) (self : t)
    : result string :=
  let* me := __str__ self in
  let* rest :=
    if match depth with None => true | Some d => (0 <? d)%Z end then
      (fix loop (cs : list t) (depth : option Z) : result (list string) :=
         match cs with
         | [] => Ok []
         | c :: cs' =>
             let depth := match depth with None => None | Some d => Some (d - 1)%Z end in
             let* r := report (indentation + 2) depth c in
             let* rs := loop cs' depth in
             Ok (r :: rs)
         end) (children self) depth
    else Ok [] in
  Ok (String.concat newline ((spaces (Z.to_nat indentation) ++ me) :: rest)).

End NodeText.

(** ** class Tracer, class TraceContext and the [with] statement

    A tracer is an object with the methods [enter] and [exit].  [T] is the
    state the methods and the traced code work on, [K] the keyword
    arguments.  A method returns the state it leaves and the exception it
    raised, if any.  The calls the tracer receives are recorded in a
    log. *)

Module Trace.

Section Tracer.

Context {T K : Type}.

Record Tracer := {
  enter : Label -> K -> T -> T * option pyerr;
  exit : K -> T -> T * option pyerr
}.

(** The base class [Tracer], and [dummy_tracer]: both methods [pass]. *)
Definition dummy_tracer : Tracer :=
  {| enter := fun _ _ s => (s, None); exit := fun _ s => (s, None) |}.

(** A call received by the tracer: [enter], with its label and whether the
    call returned, or [exit]. *)
Inductive event :=
| Enter (what : Label) (returned : bool)
| Exit.

Record TraceContext := {
  tracer : Tracer;
  what : Label;
  kwds : K
}.

(** [TraceContext.__init__]: several positional arguments make a tuple
    label, one is the label itself. *)
Definition __init__ (tr : Tracer) (args : list Label) (kw : K)
    : result TraceContext :=
  match args with
  | [] => Raise IndexError
  | [a] => Ok {| tracer := tr; what := a; kwds := kw |}
  | _ => Ok {| tracer := tr; what := LTuple args; kwds := kw |}
  end.

(** [Tracer.context]: a new [TraceContext] on the tracer itself. *)
Definition context (tr : Tracer) (args : list Label) (kw : K)
    : result TraceContext :=
  __init__ tr args kw.

Definition __enter__ (ctx : TraceContext) (w : T * list event)
    : (T * list event) * option pyerr :=
  let '(s, o) := enter (tracer ctx) (what ctx) (kwds ctx) w.1 in
  ((s, (w.2 ++ [Enter (what ctx) (bool_decide (o = None))])%list), o).

(** [__exit__] returns [None], whatever the exception it is told about. *)
Definition __exit__ (ctx : TraceContext) (w : T * list event)
    : (T * list event) * option pyerr :=
  let '(s, o) := exit (tracer ctx) (kwds ctx) w.1 in
  ((s, (w.2 ++ [Exit])%list), o).

(** [with ctx: body].  [__exit__] is not called when [__enter__] raises;
    it is called when the body returns and when it raises, and as it
    returns a false value the exception of the body goes on. *)
Definition with_ (ctx : TraceContext)
    (body : T * list event -> (T * list event) * option pyerr)
    (w : T * list event) : (T * list event) * option pyerr :=
  match __enter__ ctx w with
  | (w1, Some e) => (w1, Some e)
  | (w1, None) =>
      match body w1 with
      | (w2, o) =>
          match __exit__ ctx w2 with
          | (w3, Some e) => (w3, Some e)
          | (w3, None) => (w3, o)
          end
      end
  end.

(** Code that uses a tracer through [with tracer.context(...)] only:
    statements that do not call the tracer, sequences, [try]/[except], a
    loop that runs a body a number of times, and [with] blocks. *)
Inductive stmt :=
| Code (f : T -> T * option pyerr)
| Seq (a b : stmt)
| Try (body handler : stmt)
| Repeat (n : nat) (body : stmt)
| With (args : list Label) (kw : K) (body : stmt).

Fixpoint exec (tr : Tracer) (p : stmt) (w : T * list event)
    : (T * list event) * option pyerr :=
  match p with
  | Code f => let '(s, o) := f w.1 in ((s, w.2), o)
  | Seq a b =>
      match exec tr a w with
      | (w1, None) => exec tr b w1
      | r => r
      end
  | Try body handler =>
      match exec tr body w with
      | (w1, Some _) => exec tr handler w1
      | r => r
      end
  | Repeat n body =>
      (fix rep (n : nat) (w : T * list event) :=
         match n with
         | O => (w, None)
         | S n' =>
             match exec tr body w with
             | (w1, None) => rep n' w1
             | r => r
             end
         end) n w
  | With args kw body =>
      match context tr args kw with
      | Raise e => (w, Some e)
      | Ok ctx => with_ ctx (exec tr body) w
      end
  end.


Definition count (f : event -> bool) (log : list event) : nat :=
  length (filter (fun e => f e = true) log).



End Tracer.

Arguments Tracer : clear implicits.
Arguments TraceContext : clear implicits.
Arguments stmt : clear implicits.

End Trace.

(** ** class BKZTreeTracer

    [self.current] is a node of the tree [self.trace]; [Cursor] keeps the
    node together with the rest of the tree, which is what the [parent]
    links give. *)

Module Cursor.

(** A parent with one child taken out: its label and data, and the
    children to the left and to the right. *)
Record frame := {
  f_label : Label;
  f_data : list (string * value);
  f_left : list Node.t;
  f_right : list Node.t
}.

Record t := {
  focus : Node.t;
  above : list frame
}.

Definition plug (f : frame) (n : Node.t) : Node.t :=
  Node.mk (f_label f) (f_data f) (f_left f ++ n :: f_right f)%list.

(** [node.parent]. *)
Definition parent (c : t) : option t :=
  match above c with
  | [] => None
  | f :: fs => Some {| focus := plug f (focus c); above := fs |}
  end.

(** The root of the tree the cursor is in. *)
Definition root (c : t) : Node.t :=
  fold_left (fun n f => plug f n) (above c) (focus c).

(** [node.level]. *)
Definition level (c : t) : nat := length (above c).

Fixpoint split_labelled (l : Label) (cs : list Node.t)
    : option (list Node.t * Node.t * list Node.t) :=
  match cs with
  | [] => None
  | c :: cs' =>
      if label_eqb (Node.label c) l then Some ([], c, cs')
      else match split_labelled l cs' with
           | Some (ls, x, rs) => Some (c :: ls, x, rs)
           | None => None
           end
  end.

(** [node.child(label)]. *)
Definition child (c : t) (l : Label) : t :=
  let n := focus c in
  match split_labelled l (Node.children n) with
  | Some (ls, x, rs) =>
      {| focus := x;
         above := {| f_label := Node.label n; f_data := Node.data n;
                     f_left := ls; f_right := rs |} :: above c |}
  | None =>
      {| focus := Node.__init__ l [];
         above := {| f_label := Node.label n; f_data := Node.data n;
                     f_left := Node.children n; f_right := [] |} :: above c |}
  end.

(** An assignment to [node.data]. *)
Definition set_data (d : list (string * value)) (c : t) : t :=
  {| focus := Node.mk (Node.label (focus c)) d (Node.children (focus c));
     above := above c |}.

End Cursor.

Module BKZTreeTracer.

(** [self.current] is a node, or [None] once the root was left;
    [self.trace] is then the tree that was left. *)
Inductive position :=
| At (c : Cursor.t)
| Off (trace : Node.t).

Record t := {
  current : position;
  verbosity : Z
}.

Definition trace (self : t) : Node.t :=
  match current self with
  | At c => Cursor.root c
  | Off n => n
  end.

(** The two statements of [reenter] on [node.data]; [cpu] and [wall] are
    what [time.clock()] and [time.time()] return. *)
Definition reenter_data (cpu wall : num) (d : list (string * value))
    : result (list (string * value)) :=
  let* c := vadd (od_get_default "cputime" (VNum (PInt 0)) d)
                 (VStat (Statistic.__init__ (num_neg cpu) "sum" false)) in
  let d := od_set "cputime" c d in
  let* w := vadd (od_get_default "walltime" (VNum (PInt 0)) d)
                 (VStat (Statistic.__init__ (num_neg wall) "sum" false)) in
  Ok (od_set "walltime" w d).

(** [self.reenter()]. *)
Definition reenter (cpu wall : num) (self : t) : result t :=
  match current self with
  | Off _ => Raise AttributeError
  | At c =>
      let* d := reenter_data cpu wall (Node.data (Cursor.focus c)) in
      Ok {| current := At (Cursor.set_data d c); verbosity := verbosity self |}
  end.

(** [BKZTreeTracer(instance, verbosity, root_label, start_clocks)];
    [clocks] holds the two readings when [start_clocks] is true. *)
Definition __init__ (verb : Z) (root_label : Label) (clocks : option (num * num))
    : result t :=
  let self :=
    {| current := At {| Cursor.focus := Node.__init__ root_label [];
                        Cursor.above := [] |};
       verbosity := verb |} in
  match clocks with
  | Some (cpu, wall) => reenter cpu wall self
  | None => Ok self
  end.

(** [self.enter(label)]. *)
Definition enter (l : Label) (cpu wall : num) (self : t) : result t :=
  match current self with
  | Off _ => Raise AttributeError
  | At c =>
      reenter cpu wall
        {| current := At (Cursor.child c l); verbosity := verbosity self |}
  end.

(** The first two statements of [exit] on [node.data]: the clocks are
    added to the accumulators. *)
Definition exit_clocks (cpu wall : num) (d : list (string * value))
    : result (list (string * value)) :=
  let* c0 := od_getitem "cputime" d in
  let* c := vadd c0 (VNum cpu) in
  let d := od_set "cputime" c d in
  let* w0 := od_getitem "walltime" d in
  let* w := vadd w0 (VNum wall) in
  Ok (od_set "walltime" w d).

(** What [exit] reads from outside the tracer: the two clocks;
    [kwds.get("full", True)] as a truth value; [kwds["enum_obj"].get_nodes()]
    and [kwds["probability"]], when the keyword is given; the two values
    read from [self.instance]; and the exception, if any, that assembling
    and printing the report of a tour raises (the report reads the tree and
    writes to the output only). *)
Record exit_env := {
  e_cpu : num;
  e_wall : num;
  e_full : bool;
  e_enum_nodes : option num;
  e_probability : option num;
  e_r0 : num;
  e_slope : num;
  e_report : option pyerr
}.

(** [label[0]]: the first character of a string, the first component of a
    tuple. *)
Definition label_first (l : Label) : result Label :=
  match l with
  | LStr EmptyString => Raise IndexError
  | LStr (String c _) => Ok (LStr (String c EmptyString))
  | LInt _ => Raise TypeError
  | LTuple [] => Raise IndexError
  | LTuple (x :: _) => Ok x
  end.

(** The statements of [exit] for a node labelled "enumeration". *)
Definition exit_enumeration (env : exit_env) (d : list (string * value))
    : result (list (string * value)) :=
  if e_full env then
    match e_enum_nodes env with
    | None => Raise KeyError
    | Some n =>
        let* e := Statistic.__add__ (Statistic.__init__ n "sum" true)
                    (od_get_default "#enum" VNone d) in
        let d := od_set "#enum" (VStat e) d in
        match e_probability env with
        | None => Ok d
        | Some p =>
            let* q := Statistic.__add__ (Statistic.__init__ p "avg" true)
                        (od_get_default "%" VNone d) in
            Ok (od_set "%" (VStat q) d)
        end
    end
  else Ok d.

(** The statements of [exit] for a node whose label starts with "tour". *)
Definition exit_tour (env : exit_env) (d : list (string * value))
    : list (string * value) :=
  od_set "/" (VStat (Statistic.__init__ (e_slope env) "min" true))
    (od_set "r_0" (VStat (Statistic.__init__ (e_r0 env) "min" true)) d).

(** [self.exit(kwds)]. *)
Definition exit (env : exit_env) (self : t) : result t :=
  match current self with
  | Off _ => Raise AttributeError
  | At c =>
      let label := Node.label (Cursor.focus c) in
      let* d := exit_clocks (e_cpu env) (e_wall env)
                  (Node.data (Cursor.focus c)) in
      let* d :=
        if label_eqb label (LStr "enumeration") then exit_enumeration env d
        else Ok d in
      let* first := label_first label in
      let tour := label_eqb first (LStr "tour") in
      let d := if tour then exit_tour env d else d in
      let* _ :=
        if negb (verbosity self =? 0)%Z && tour then
          match e_report env with Some e => Raise e | None => Ok tt end
        else Ok tt in
      let c' := Cursor.set_data d c in
      Ok {| current :=
              match Cursor.parent c' with
              | Some p => At p
              | None => Off (Cursor.focus c')
              end;
            verbosity := verbosity self |}
  end.

End BKZTreeTracer.

(** * Vocabulary of the statements *)

(** A sequence of [add] calls on a Statistic, first call first. *)
Definition observe (s : Statistic.t) (vs : list num) : Statistic.t :=
  fold_left Statistic.add vs s.

(** The same calls on the object at [l] of a store. *)
Fixpoint add_all (l : Heap.loc) (vs : list num) (h : gmap Heap.loc Statistic.t)
    : option (gmap Heap.loc Statistic.t) :=
  match vs with
  | [] => Some h
  | v :: vs' => r ← Heap.add l v h; add_all l vs' r.2
  end.

Definition Qcsum (l : list Qc) : Qc := fold_right Qcplus (Qc_of_Z 0) l.



(** Int observations: ints as numbers, their sum and their squares. *)
Definition ints (l : list Z) : list num := map PInt l.
Definition Zsum (l : list Z) : Z := fold_right Z.add 0 l.
Definition squares (l : list Z) : list Z := map (fun z => z * z) l.

(** Two Statistic objects for the examples: [Statistic(2)] counted with
    mode "sum", and [Statistic(2.5)] with mode "sum" or "avg". *)
Definition stat_a : Statistic.t := Statistic.__init__ (PInt 2) "sum" true.
Definition stat_b : Statistic.t :=
  Statistic.__init__ (PFloat (Q2Qc (5 # 2))) "sum" true.
Definition stat_c : Statistic.t :=
  Statistic.__init__ (PFloat (Q2Qc (5 # 2))) "avg" true.
Definition heap_abc : gmap Heap.loc Statistic.t :=
  <[3%positive := stat_c]> (<[2%positive := stat_b]> {[1%positive := stat_a]}).

(** The float [0.1]: the double nearest to one tenth. *)
Definition float_0_1 : Qc := Q2Qc (3602879701896397 # 36028797018963968).

(** The ordered mapping of the doctest of [pretty_dict], and the string the
    doctest expects. *)
Definition doctest_dict : list (string * value) :=
  [("d", VNum (PInt 2)); ("f", VNum (PFloat float_0_1)); ("large", VNum (PInt 4097))].

Definition doctest_text : string :=
  "{" ++ dq ++ "d" ++ dq ++ ":        2,  " ++ dq ++ "f" ++ dq ++ ": 0.100000,  " ++ dq ++ "large" ++ dq ++ ":     4097}".

(** ** Trees *)

(** The loops of [sum], [find] and [merge] over the children, as functions
    of their own ([sum_unfold], [find_unfold] and [merge_unfold] relate
    them to the methods). *)
Section Loops.

Variable tag : string.
Variable l : Label.
Variable raise_keyerror : bool.
Variable lab : option Label.
Variable self : Node.t.

Fixpoint sum_children (cs : list Node.t) (r : value) : result value :=
  match cs with
  | [] => Ok r
  | c :: cs' =>
      let* x := Node.sum tag true raise_keyerror lab c in
      let* r' := vadd r x in
      sum_children cs' r'
  end.

Fixpoint find_children (cs : list Node.t) : result (option Node.t) :=
  match cs with
  | [] =>
      if raise_keyerror then let* _ := Node.__str__ self in Raise KeyError
      else Ok None
  | c :: cs' =>
      match Node.find l raise_keyerror c with
      | Raise KeyError => find_children cs'
      | r => r
      end
  end.

End Loops.

Fixpoint merge_children (ncs scs : list Node.t) : result (list Node.t) :=
  match ncs with
  | [] => Ok scs
  | c :: ncs' =>
      match Node.first_labelled (Node.label c) scs with
      | Some (i, sc) =>
          let* sc' := Node.merge sc c in
          merge_children ncs' (<[i := sc']> scs)
      | None =>
          let* sc' := Node.merge (Node.__init__ (Node.label c) []) c in
          merge_children ncs' (scs ++ [sc'])%list
      end
  end.

(** The nodes of a tree: the root, then the nodes of each child's tree in
    turn. *)
Fixpoint nodes (n : Node.t) : list Node.t :=
  n :: flat_map nodes (Node.children n).

(** The nodes below the root at depth [k]; the root is at depth 0. *)
Fixpoint at_depth (k : nat) (n : Node.t) : list Node.t :=
  match k with
  | O => [n]
  | S k' => flat_map (at_depth k') (Node.children n)
  end.

(** What [find] with [raise_keyerror] does: it never returns
    [None]; a node it returns is below [self] and has the label; when it
    raises [KeyError] no node below [self] has the label; and anything
    else it raises is raised by [str] of [self] or of a node below. *)
Definition find_strict_post (l : Label) (n : Node.t)
    (r : result (option Node.t)) : Prop :=
  match r with
  | Ok (Some c) => In c (flat_map nodes (Node.children n)) /\ Node.label c = l
  | Ok None => False
  | Raise e =>
      (e = KeyError
       /\ forall m, In m (flat_map nodes (Node.children n)) -> Node.label m <> l)
      \/ (e <> KeyError /\ exists m, In m (nodes n) /\ Node.__str__ m = Raise e)
  end.

Fixpoint height (n : Node.t) : nat :=
  S (list_max (map height (Node.children n))).

(** The nodes below the root in breadth-first order: by depth, and from
    left to right within a depth. *)
Definition breadth_first (n : Node.t) : list Node.t :=
  flat_map (fun k => at_depth k n) (seq 1 (height n)).

(** Breadth-first search as the specification words it: the first node
    with the label in breadth-first order, the root left out. *)
Definition bfs_find (l : Label) (n : Node.t) : option Node.t :=
  List.find (fun m => label_eqb (Node.label m) l) (breadth_first n).

(** Whether a node passes the label filter of [sum]. *)
Definition passes (lab : option Label) (n : Node.t) : bool :=
  match lab with
  | None => true
  | Some l => label_eqb (Node.label n) l
  end.

(** The nodes whose value [sum] folds: the root when [include_self], every
    node below it, and of these the ones that pass the filter. *)
Definition summed (include_self : bool) (lab : option Label) (n : Node.t)
    : list Node.t :=
  List.filter (passes lab)
    ((if include_self then [n] else []) ++ flat_map nodes (Node.children n))%list.

Definition has_tag (tag : string) (n : Node.t) : bool :=
  od_mem tag (Node.data n).

(** The number a value stands for in a sum: a number itself, the sum of a
    Statistic, nothing for [None]. *)
Definition total (v : value) : Qc :=
  match v with
  | VNone => Qc_of_Z 0
  | VNum x => val x
  | VStat s => val (Statistic._sum s)
  end.

Definition total_opt (v : option value) : Qc :=
  match v with Some x => total x | None => Qc_of_Z 0 end.

(** The value of a tag at a node, 0 when the node has none. *)
Definition tag_or_zero (tag : string) (n : Node.t) : value :=
  od_get_default tag (VNum (PInt 0)) (Node.data n).

(** Values that [+] can fold together: numbers, and Statistics of one
    mode. *)
Definition foldable (mode : string) (v : value) : Prop :=
  match v with
  | VNone => False
  | VNum _ => True
  | VStat s => Statistic._repr s = mode
  end.

Definition tag_foldable (tag mode : string) (n : Node.t) : Prop :=
  match od_get tag (Node.data n) with
  | Some v => foldable mode v
  | None => True
  end.

(** What a fold of the tag over the nodes [ns], started at a value that
    stands for [start], comes to: with [strict], [KeyError] when a node
    has no value for the tag; otherwise a value that stands for the sum. *)
Definition folds_to (strict : bool) (tag mode : string) (ns : list Node.t)
    (start : Qc) (res : result value) : Prop :=
  if strict && negb (forallb (has_tag tag) ns) then res = Raise KeyError
  else exists v, res = Ok v /\ foldable mode v
    /\ total v = (start + Qcsum (map (fun m => total (tag_or_zero tag m)) ns))%Qc.

(** The node a path of labels leads to: at each step the first child with
    the label, which is the child [child] and [merge] pick. *)
Fixpoint descend (p : list Label) (n : Node.t) : option Node.t :=
  match p with
  | [] => Some n
  | l :: p' =>
      match Node.first_labelled l (Node.children n) with
      | Some (_, c) => descend p' c
      | None => None
      end
  end.

Definition tag_at (p : list Label) (tag : string) (n : Node.t) : option value :=
  match descend p n with
  | Some m => od_get tag (Node.data m)
  | None => None
  end.

(** The sum of two entries of which either may be absent. *)
Definition opt_vadd (a b : option value) : result (option value) :=
  match a, b with
  | Some x, Some y => let* z := vadd x y in Ok (Some z)
  | Some x, None => Ok (Some x)
  | None, Some y => Ok (Some y)
  | None, None => Ok None
  end.

(** A tree as [child] builds it: the keys of a node's data are distinct,
    and so are the labels of its children. *)
Inductive wf : Node.t -> Prop :=
| wf_node l d cs :
    od_wf d -> NoDup (map Node.label cs) -> Forall wf cs ->
    wf (Node.mk l d cs).

(** Two trees whose values can be added wherever both have one. *)
Definition compatible (a b : Node.t) : Prop :=
  forall p tag, is_ok (opt_vadd (tag_at p tag a) (tag_at p tag b)) = true.

(** The child of [a] that [merge] merges a child [cb] of the other tree
    into: the first child with the label of [cb], or a new empty node. *)
Definition target_in (l : Label) (cs : list Node.t) : Node.t :=
  match Node.first_labelled l cs with
  | Some (_, c) => c
  | None => Node.__init__ l []
  end.

Definition merge_target (a cb : Node.t) : Node.t :=
  target_in (Node.label cb) (Node.children a).

(** The first of a list of nodes with the label. *)
Definition labelled (l : Label) (cs : list Node.t) : option Node.t :=
  match Node.first_labelled l cs with
  | Some (_, c) => Some c
  | None => None
  end.

(** What [merge] comes to: a tree with the label of [a] whose entries are
    the sums of the entries of [a] and [b] at every position, or the
    exception that one of these sums raises. *)
Definition merge_outcome (a b : Node.t) (res : result Node.t) : Prop :=
  match res with
  | Ok a' =>
      Node.label a' = Node.label a
      /\ forall p tag,
           opt_vadd (tag_at p tag a) (tag_at p tag b) = Ok (tag_at p tag a')
  | Raise e =>
      exists p tag, opt_vadd (tag_at p tag a) (tag_at p tag b) = Raise e
  end.

(** Two trees to merge: [merge_b] has the tag "a" at the root, a child
    ("child", 1) with the tag "a", and a child "new". *)
Definition merge_b : Node.t :=
  Node.mk (LStr "other") [("a", VNum (PInt 1)); ("b", VStat stat_a)]
    [Node.mk (LTuple [LStr "child"; LInt 1]) [("a", VNum (PInt 5))] [];
     Node.mk (LStr "new") [("t", VStat stat_b)] []].


Definition empty_tuple (c : Node.t) : bool :=
  match Node.label c with
  | LTuple [] => true
  | _ => false
  end.

(** The tree of the doctests of [report] and [sum]. *)
Definition doc_c3 : Node.t :=
  Node.mk (LTuple [LStr "child"; LInt 3]) [("a", VNum (PInt 4097))] [].
Definition doc_c1 : Node.t :=
  Node.mk (LTuple [LStr "child"; LInt 1])
    [("a", VNum (PFloat (Qc_of_Z 100)))] [doc_c3].
Definition doc_c2 : Node.t := Node.mk (LTuple [LStr "child"; LInt 2]) [] [].
Definition doc_root : Node.t := Node.mk (LStr "root") [] [doc_c1; doc_c2].

(** The tree of the doctest of [get]. *)
Definition get_bar : Node.t := Node.mk (LStr "bar") [] [].
Definition get_foo3 : Node.t := Node.mk (LTuple [LStr "foo"; LInt 3]) [] [].
Definition get_foo0 : Node.t :=
  Node.mk (LTuple [LStr "foo"; LInt 0]) [("a", VNum (PFloat (Qc_of_Z 100)))]
    [Node.mk (LTuple [LStr "foo"; LInt 3]) [("a", VNum (PInt 4097))] []].
Definition get_root : Node.t :=
  Node.mk (LStr "root") [] [get_bar; get_foo0; get_foo3].

(** Two trees for [find]: in [far_tree] the node labelled "x" is below the
    second child; in [deep_tree] one is at depth 3 below the first child
    and one at depth 2 below the second. *)
Definition far_x : Node.t := Node.mk (LStr "x") [("at", VNum (PInt 2))] [].
Definition far_tree : Node.t :=
  Node.mk (LStr "root") []
    [Node.mk (LStr "a") [] []; Node.mk (LStr "b") [] [far_x]].

Definition deep_x : Node.t := Node.mk (LStr "x") [("at", VNum (PInt 3))] [].
Definition deep_tree : Node.t :=
  Node.mk (LStr "root") []
    [Node.mk (LStr "a") [] [Node.mk (LStr "a1") [] [deep_x]];
     Node.mk (LStr "b") [] [far_x]].

(** ** Tracers *)

(** Two Statistics that are equal as far as Python's [==] on their fields
    tells: min and max are equal as numbers ([0] and [0.0] are), the other
    fields are equal. *)
Definition stat_eqv (s t : Statistic.t) : Prop :=
  val (Statistic._min s) = val (Statistic._min t)
  /\ val (Statistic._max s) = val (Statistic._max t)
  /\ Statistic._sum s = Statistic._sum t
  /\ Statistic._sqr s = Statistic._sqr t
  /\ Statistic._ctr s = Statistic._ctr t
  /\ Statistic._repr s = Statistic._repr t.

(** What a time accumulator of a BKZTreeTracer holds: nothing yet, or a
    Statistic of mode "sum". *)
Definition accumulator (v : option value) : Prop :=
  match v with
  | None => True
  | Some (VStat s) => Statistic._repr s = "sum"
  | Some _ => False
  end.

(** The accumulator as a Statistic: itself, or [Statistic(0, "sum")] when
    it is absent. *)
Definition acc_or_zero (v : option value) : Statistic.t :=
  match v with
  | Some (VStat s) => s
  | _ => Statistic.__init__ (PInt 0) "sum" true
  end.

(** Data whose two time accumulators are absent or Statistics of mode
    "sum"; trees and cursors all of whose nodes have such data. *)
Definition timed_data (d : list (string * value)) : Prop :=
  accumulator (od_get "cputime" d) /\ accumulator (od_get "walltime" d).

Inductive timed : Node.t -> Prop :=
| timed_node l d cs : timed_data d -> Forall timed cs -> timed (Node.mk l d cs).

Definition timed_frame (f : Cursor.frame) : Prop :=
  timed_data (Cursor.f_data f)
  /\ Forall timed (Cursor.f_left f) /\ Forall timed (Cursor.f_right f).

Definition timed_cursor (c : Cursor.t) : Prop :=
  timed (Cursor.focus c) /\ Forall timed_frame (Cursor.above c).

Definition timed_tracer (self : BKZTreeTracer.t) : Prop :=
  match BKZTreeTracer.current self with
  | BKZTreeTracer.At c => timed_cursor c
  | BKZTreeTracer.Off n => timed n
  end.

(** The states a BKZTreeTracer goes through: constructed, then driven by
    [enter], [reenter] and [exit]. *)
Inductive reachable : BKZTreeTracer.t -> Prop :=
| reach_init verb l clocks self :
    BKZTreeTracer.__init__ verb l clocks = Ok self -> reachable self
| reach_enter l cpu wall self self' :
    reachable self -> BKZTreeTracer.enter l cpu wall self = Ok self' ->
    reachable self'
| reach_reenter cpu wall self self' :
    reachable self -> BKZTreeTracer.reenter cpu wall self = Ok self' ->
    reachable self'
| reach_exit env self self' :
    reachable self -> BKZTreeTracer.exit env self = Ok self' ->
    reachable self'.

(** The Statistic [reenter] makes of a clock reading:
    [Statistic(-clock, repr="sum", count=False)]. *)
Definition restart (clock : num) : Statistic.t :=
  Statistic.__init__ (num_neg clock) "sum" false.

(** The observation count of an entry. *)
Definition count_of (v : option value) : option Z :=
  match v with
  | Some (VStat s) => Some (Statistic._ctr s)
  | _ => None
  end.

(** [reenter] called once for each pair of clock readings. *)
Fixpoint reenters (clocks : list (num * num)) (self : BKZTreeTracer.t)
    : result BKZTreeTracer.t :=
  match clocks with
  | [] => Ok self
  | (cpu, wall) :: rest =>
      let* self' := BKZTreeTracer.reenter cpu wall self in
      reenters rest self'
  end.

(** The data of the node a tracer is at. *)
Definition current_data (self : BKZTreeTracer.t) : list (string * value) :=
  match BKZTreeTracer.current self with
  | BKZTreeTracer.At c => Node.data (Cursor.focus c)
  | BKZTreeTracer.Off _ => []
  end.

(** A tracer at the root of a new tree, and one at a node that was timed
    before. *)
Definition tracer_new : BKZTreeTracer.t :=
  {| BKZTreeTracer.current :=
       BKZTreeTracer.At {| Cursor.focus := Node.__init__ (LStr "bkz") [];
                           Cursor.above := [] |};
     BKZTreeTracer.verbosity := 0 |}.

Definition tracer_timed : BKZTreeTracer.t :=
  {| BKZTreeTracer.current :=
       BKZTreeTracer.At
         {| Cursor.focus :=
              Node.mk (LStr "bkz")
                [("cputime", VStat stat_b); ("walltime", VStat stat_a)] [];
            Cursor.above := [] |};
     BKZTreeTracer.verbosity := 0 |}.

(** A run in which the body of the inner of two nested scopes raises. *)
Definition raising_run : Trace.stmt unit unit :=
  Trace.With [LStr "tour"; LInt 0] tt
    (Trace.Seq
       (Trace.With [LStr "enumeration"] tt
          (Trace.Code (fun s => (s, Some ValueError))))
       (Trace.Code (fun s => (s, None)))).

(** ** Totality *)

(** The loop of [report] over the children, as a function of its own. *)
Section ReportLoop.

Variable indentation : Z.

Fixpoint report_children (cs : list Node.t) (depth : option Z)
    : result (list string) :=
  match cs with
  | [] => Ok []
  | c :: cs' =>
      let depth := match depth with None => None | Some d => Some (d - 1)%Z end in
      let* r := NodeText.report (indentation + 2) depth c in
      let* rs := report_children cs' depth in
      Ok (r :: rs)
  end.

End ReportLoop.

(** A value [pretty_dict] can print: [None], a number, or a Statistic that
    can be scalarized. *)
Definition printable (v : value) : Prop :=
  match v with
  | VStat s => exists x, Statistic.__float__ s = Ok x
  | _ => True
  end.

Definition printable_data (d : list (string * value)) : Prop :=
  Forall (fun kv => printable (snd kv)) d.






(** ** Vocabulary of the further properties *)

(** The leftmost branch of a tree: the root, its first child, the first
    child of that child, and so on. *)
Fixpoint leftmost (n : Node.t) : list Node.t :=
  n :: match Node.children n with
       | [] => []
       | c :: _ => leftmost c
       end.

(** The first node of the leftmost branch that has a child with the
    label gives that child. *)
Definition leftmost_match (l : Label) (n : Node.t) : option Node.t :=
  head (omap (fun m => labelled l (Node.children m)) (leftmost n)).

(** The nodes of a tree in the order of [nodes], each with the
    indentation of its line in a report: [indentation] for the root, two
    more at each level below. *)
Fixpoint rows (indentation : Z) (n : Node.t) : list (Z * Node.t) :=
  (indentation, n) :: flat_map (rows (indentation + 2)) (Node.children n).

(** The line of a node in a report: [" " * indentation + str(node)]. *)
Definition row_line (r : Z * Node.t) : result string :=
  let* me := NodeText.__str__ (snd r) in
  Ok (spaces (Z.to_nat (fst r)) ++ me).

(** Traced code with its [with] blocks taken away: what is left to run
    when nothing is traced. *)
Fixpoint untraced {T K : Type} (p : Trace.stmt T K) (s : T) : T * option pyerr :=
  match p with
  | Trace.Code f => f s
  | Trace.Seq a b =>
      match untraced a s with
      | (s1, None) => untraced b s1
      | r => r
      end
  | Trace.Try body handler =>
      match untraced body s with
      | (s1, Some _) => untraced handler s1
      | r => r
      end
  | Trace.Repeat n body =>
      (fix rep (n : nat) (s : T) :=
         match n with
         | O => (s, None)
         | S n' =>
             match untraced body s with
             | (s1, None) => rep n' s1
             | r => r
             end
         end) n s
  | Trace.With _ _ body => untraced body s
  end.

(** Code all of whose [with] blocks give their context a label. *)
Fixpoint labelled_blocks {T K : Type} (p : Trace.stmt T K) : bool :=
  match p with
  | Trace.Code _ => true
  | Trace.Seq a b => labelled_blocks a && labelled_blocks b
  | Trace.Try body handler => labelled_blocks body && labelled_blocks handler
  | Trace.Repeat _ body => labelled_blocks body
  | Trace.With args _ body =>
      match args with [] => false | _ => labelled_blocks body end
  end.

(** ** class TimeTreeTracer *)

(** [a - b] for a value [a] and a clock reading [b]: numbers subtract;
    [None] and a Statistic have no [-]. *)
Definition vsub (a : value) (b : num) : result value :=
  match a with
  | VNum x => Ok (VNum (num_sub x b))
  | _ => Raise TypeError
  end.

Module TimeTreeTracer.

Import BKZTreeTracer.

(** [self.current], as for a BKZTreeTracer, [self.verbosity], and the
    lines [exit] has printed. *)
Record t := {
  current : position;
  verbosity : Z;
  printed : list string
}.

Definition trace (self : t) : Node.t :=
  match current self with
  | At c => Cursor.root c
  | Off n => n
  end.

(** [TimeTreeTracer(instance, verbosity)]. *)
Definition __init__ (verb : Z) : t :=
  {| current := At {| Cursor.focus := Node.__init__ (LStr "root") [];
                      Cursor.above := [] |};
     verbosity := verb;
     printed := [] |}.

(** The loop of [enter] over [entries]: each clock is read and taken off
    the entry, which counts as 0 when it is absent. *)
Definition enter_data (cpu wall : num) (d : list (string * value))
    : result (list (string * value)) :=
  let* c := vsub (od_get_default "cputime" (VNum (PInt 0)) d) cpu in
  let d := od_set "cputime" c d in
  let* w := vsub (od_get_default "walltime" (VNum (PInt 0)) d) wall in
  Ok (od_set "walltime" w d).

(** [self.enter(label)]; [cpu] and [wall] are what [time.clock()] and
    [time.time()] return. *)
Definition enter (l : Label) (cpu wall : num) (self : t) : result t :=
  match current self with
  | Off _ => Raise AttributeError
  | At c =>
      let node := Cursor.child c l in
      let* d := enter_data cpu wall (Node.data (Cursor.focus node)) in
      Ok {| current := At (Cursor.set_data d node);
            verbosity := verbosity self;
            printed := printed self |}
  end.

(** The loop of [exit] over [entries]: each clock is read and added to
    the entry. *)
Definition exit_data (cpu wall : num) (d : list (string * value))
    : result (list (string * value)) :=
  let* c := vadd (od_get_default "cputime" (VNum (PInt 0)) d) (VNum cpu) in
  let d := od_set "cputime" c d in
  let* w := vadd (od_get_default "walltime" (VNum (PInt 0)) d) (VNum wall) in
  Ok (od_set "walltime" w d).

(** [self.exit()]: the node is printed when the verbosity is not 0 and at
    least the level of the node. *)
Definition exit (cpu wall : num) (self : t) : result t :=
  match current self with
  | Off _ => Raise AttributeError
  | At c =>
      let* d := exit_data cpu wall (Node.data (Cursor.focus c)) in
      let c' := Cursor.set_data d c in
      let* out :=
        if negb (verbosity self =? 0)%Z
           && (Z.of_nat (Cursor.level c') <=? verbosity self)%Z
        then
          let* line := NodeText.__str__ (Cursor.focus c') in
          Ok (printed self ++ [line])%list
        else Ok (printed self) in
      Ok {| current :=
              match Cursor.parent c' with
              | Some p => At p
              | None => Off (Cursor.focus c')
              end;
            verbosity := verbosity self;
            printed := out |}
  end.

End TimeTreeTracer.

(** The states a TimeTreeTracer goes through: constructed, then driven by
    [enter] and [exit]. *)
Inductive time_reachable : TimeTreeTracer.t -> Prop :=
| time_init verb : time_reachable (TimeTreeTracer.__init__ verb)
| time_enter l cpu wall self self' :
    time_reachable self -> TimeTreeTracer.enter l cpu wall self = Ok self' ->
    time_reachable self'
| time_exit cpu wall self self' :
    time_reachable self -> TimeTreeTracer.exit cpu wall self = Ok self' ->
    time_reachable self'.

(** Trees and cursors all of whose nodes have data with a property. *)
Section DataInvariant.

Variable P : list (string * value) -> Prop.

Inductive all_data : Node.t -> Prop :=
| all_data_node l d cs : P d -> Forall all_data cs -> all_data (Node.mk l d cs).

Definition all_data_frame (f : Cursor.frame) : Prop :=
  P (Cursor.f_data f)
  /\ Forall all_data (Cursor.f_left f) /\ Forall all_data (Cursor.f_right f).

Definition all_data_cursor (c : Cursor.t) : Prop :=
  all_data (Cursor.focus c) /\ Forall all_data_frame (Cursor.above c).

Definition all_data_at (pos : BKZTreeTracer.position) : Prop :=
  match pos with
  | BKZTreeTracer.At c => all_data_cursor c
  | BKZTreeTracer.Off n => all_data n
  end.

End DataInvariant.

(** Data all of whose values are numbers. *)
Definition numbers (d : list (string * value)) : Prop :=
  Forall (fun kv => exists x, snd kv = VNum x) d.

(** The number at a tag, 0 when there is none. *)
Definition clock_of (tag : string) (d : list (string * value)) : num :=
  match od_get tag d with
  | Some (VNum x) => x
  | _ => PInt 0
  end.

(** A cursor at the root of a tree, and a new TimeTreeTracer without
    output. *)
Definition at_root (n : Node.t) : Cursor.t :=
  {| Cursor.focus := n; Cursor.above := [] |}.

Definition time_tracer_new : TimeTreeTracer.t := TimeTreeTracer.__init__ 0.

(** ** Invariants of the tracers *)

(** A cursor in a tree as [child] builds it: the node it is at is such a
    tree, and so is each node above, with the node below among its
    children. *)
Definition wf_frame (below : Label) (f : Cursor.frame) : Prop :=
  od_wf (Cursor.f_data f)
  /\ NoDup (map Node.label (Cursor.f_left f) ++ below
            :: map Node.label (Cursor.f_right f))%list
  /\ Forall wf (Cursor.f_left f) /\ Forall wf (Cursor.f_right f).

Fixpoint wf_above (below : Label) (fs : list Cursor.frame) : Prop :=
  match fs with
  | [] => True
  | f :: fs' => wf_frame below f /\ wf_above (Cursor.f_label f) fs'
  end.

Definition wf_cursor (c : Cursor.t) : Prop :=
  wf (Cursor.focus c) /\ wf_above (Node.label (Cursor.focus c)) (Cursor.above c).

Definition wf_at (pos : BKZTreeTracer.position) : Prop :=
  match pos with
  | BKZTreeTracer.At c => wf_cursor c
  | BKZTreeTracer.Off n => wf n
  end.

(** Data whose two clocks were started: both accumulators are there. *)
Definition clocked (d : list (string * value)) : Prop :=
  exists sc sw,
    od_get "cputime" d = Some (VStat sc) /\ od_get "walltime" d = Some (VStat sw).

(** The clocks of every node of a path that has a parent were started:
    [d] is the data of the lowest node, [fs] the nodes above it. *)
Fixpoint entered_above (d : list (string * value)) (fs : list Cursor.frame)
    : Prop :=
  match fs with
  | [] => True
  | f :: fs' => clocked d /\ entered_above (Cursor.f_data f) fs'
  end.

Definition entered_at (pos : BKZTreeTracer.position) : Prop :=
  match pos with
  | BKZTreeTracer.At c =>
      entered_above (Node.data (Cursor.focus c)) (Cursor.above c)
  | BKZTreeTracer.Off _ => True
  end.

(** An entry that is absent or a Statistic of the mode. *)
Definition stat_entry (mode : string) (v : option value) : Prop :=
  match v with
  | None => True
  | Some (VStat s) => Statistic._repr s = mode
  | Some _ => False
  end.

(** Data whose entries "#enum" and "%" are absent or Statistics of the
    modes "sum" and "avg". *)
Definition enum_data (d : list (string * value)) : Prop :=
  stat_entry "sum" (od_get "#enum" d) /\ stat_entry "avg" (od_get "%" d).

(** A label [exit] takes for a tour: a tuple whose first component is
    "tour". *)
Definition is_tour (l : Label) : bool :=
  match l with
  | LTuple (x :: _) => label_eqb x (LStr "tour")
  | _ => false
  end.

(** The Statistic of an entry, [Statistic(0, "sum", count=False)] when
    there is none: the sum and the count so far. *)
Definition stat_or_empty (v : option value) : Statistic.t :=
  match v with
  | Some (VStat s) => s
  | _ => Statistic.__init__ (PInt 0) "sum" false
  end.

(** What an [exit] reads, for the examples: the clocks at 3 and 5, an
    enumeration of 10 nodes without a probability, and no report. *)
Definition env_plain : BKZTreeTracer.exit_env :=
  {| BKZTreeTracer.e_cpu := PInt 3;
     BKZTreeTracer.e_wall := PInt 5;
     BKZTreeTracer.e_full := true;
     BKZTreeTracer.e_enum_nodes := Some (PInt 10);
     BKZTreeTracer.e_probability := None;
     BKZTreeTracer.e_r0 := PInt 1;
     BKZTreeTracer.e_slope := PInt 1;
     BKZTreeTracer.e_report := None |}.

(** A tracer constructed with [start_clocks=True], the clocks at 1 and 2,
    and the same tracer after [exit]. *)
Definition tracer_started : BKZTreeTracer.t :=
  match BKZTreeTracer.__init__ 0 (LStr "bkz") (Some (PInt 1, PInt 2)) with
  | Ok self => self
  | Raise _ => tracer_new
  end.

Definition tracer_left : BKZTreeTracer.t :=
  match BKZTreeTracer.exit env_plain tracer_started with
  | Ok self => self
  | Raise _ => tracer_new
  end.

(** The cursor of a tracer that is at a node. *)
Definition cursor_of (self : BKZTreeTracer.t) : Cursor.t :=
  match BKZTreeTracer.current self with
  | BKZTreeTracer.At c => c
  | BKZTreeTracer.Off n => at_root n
  end.

(** The cursor of a new BKZTreeTracer: at the root "bkz". *)
Definition bkz_root : Cursor.t := at_root (Node.__init__ (LStr "bkz") []).

(** The loop of [Node.level]: [node] climbs to its parent and [level]
    counts the steps, until a node without parent is reached.  [fuel]
    bounds the number of turns. *)
Fixpoint level_loop (fuel : nat) (node : Cursor.t) (level : nat) : option nat :=
  match fuel with
  | O => None
  | S fuel' =>
      match Cursor.parent node with
      | None => Some level
      | Some p => level_loop fuel' p (S level)
      end
  end.

(** ** BKZTreeTracer.exit: the report of a tour

    The statements of [exit] under [if self.verbosity and label[0] ==
    "tour"].  [i] is the value of [label[1]], [node] the node that is
    left, with the entries [exit] has set before. *)

Module TourReport.

(** [try: report[key] = node.find(l, True)["cputime"]] with
    [except KeyError: pass]: a [KeyError] of [find] or of the lookup
    leaves the report as it is. *)
Definition try_cputime (l key : string) (node : Node.t)
    (report : list (string * value)) : result (list (string * value)) :=
  match (let* found := Node.find (LStr l) true node in
         match found with
         | Some m => od_getitem "cputime" (Node.data m)
         | None => Raise TypeError
         end) with
  | Ok v => Ok (od_set key v report)
  | Raise KeyError => Ok report
  | Raise e => Raise e
  end.

(** The ordered mapping [report]. *)
Definition assemble (i : value) (node : Node.t)
    : result (list (string * value)) :=
  let report := od_set "i" i [] in
  let* c := od_getitem "cputime" (Node.data node) in
  let report := od_set "cputime" c report in
  let* w := od_getitem "walltime" (Node.data node) in
  let report := od_set "walltime" w report in
  let* report := try_cputime "preprocessing" "preproc" node report in
  let* report := try_cputime "enumeration" "svp" node report in
  let* lll := Node.sum "cputime" true false (Some (LStr "lll")) node in
  let report := od_set "lll" lll report in
  let* report := try_cputime "postprocessing" "postproc" node report in
  let* report := try_cputime "pruner" "pruner" node report in
  let* r0 := od_getitem "r_0" (Node.data node) in
  let report := od_set "r_0" r0 report in
  let* slope := od_getitem "/" (Node.data node) in
  let report := od_set "/" slope report in
  let* enum := Node.sum "#enum" true false None node in
  let report := od_set "#enum" enum report in
  Ok report.

(** The line that [print(pretty_dict(report))] writes. *)
Definition line (i : value) (node : Node.t) : result string :=
  let* report := assemble i node in
  pretty_dict report None (PInt 9999).

End TourReport.

(** Whether the report of a tour has the entry that [find] of the label
    gives: [find] returns a node, and the node has the entry "cputime". *)
Definition reported (l : string) (node : Node.t) : bool :=
  match Node.find (LStr l) true node with
  | Ok (Some m) => od_mem "cputime" (Node.data m)
  | _ => false
  end.

(** The key of an entry that is in the report only when [b]. *)
Definition opt_key (b : bool) (key : string) : list string :=
  if b then [key] else [].

(** The node a tour is left as, when the report is made: the clocks added
    to the accumulators [sc] and [sw], and "r_0" and "/" set. *)
Definition tour_left (env : BKZTreeTracer.exit_env) (sc sw : Statistic.t)
    (n : Node.t) : Node.t :=
  Node.mk (Node.label n)
    (BKZTreeTracer.exit_tour env
       (od_set "walltime" (VStat (Statistic.add sw (BKZTreeTracer.e_wall env)))
          (od_set "cputime" (VStat (Statistic.add sc (BKZTreeTracer.e_cpu env)))
             (Node.data n))))
    (Node.children n).

(** A new tracer inside a first tour, entered with the clocks at 1 and 2,
    and the accumulators of the tour. *)
Definition tracer_in_tour : BKZTreeTracer.t :=
  match BKZTreeTracer.enter (LTuple [LStr "tour"; LInt 0]) (PInt 1) (PInt 2)
          tracer_new with
  | Ok self => self
  | Raise _ => tracer_new
  end.

Definition tour_cpu : Statistic.t :=
  stat_or_empty
    (od_get "cputime" (Node.data (Cursor.focus (cursor_of tracer_in_tour)))).

Definition tour_wall : Statistic.t :=
  stat_or_empty
    (od_get "walltime" (Node.data (Cursor.focus (cursor_of tracer_in_tour)))).

Definition cursor_in_tour : Cursor.t := cursor_of tracer_in_tour.
Definition cursor_started : Cursor.t := cursor_of tracer_started.

(** The mode of the Statistic that a BKZTreeTracer keeps at a tag. *)
Definition mode_of (tag : string) : string :=
  if String.eqb tag "%" then "avg"
  else if String.eqb tag "r_0" || String.eqb tag "/" then "min"
  else "sum".

(** Data as a BKZTreeTracer writes it: every entry is a Statistic of the
    mode of its tag. *)
Definition bkz_data (d : list (string * value)) : Prop :=
  forall t v, od_get t d = Some v ->
    exists s, v = VStat s /\ Statistic._repr s = mode_of t.

(** Data all of whose entries are numbers, by lookup. *)
Definition number_entries (d : list (string * value)) : Prop :=
  forall t v, od_get t d = Some v -> exists x, v = VNum x.

(** A value as a BKZTreeTracer keeps it, which [pretty_dict] can print:
    a Statistic of mode "sum" or "min", or of mode "avg" with an
    observation counted. *)
Definition shown (v : value) : Prop :=
  match v with
  | VStat s =>
      Statistic._repr s = "sum" \/ Statistic._repr s = "min"
      \/ (Statistic._repr s = "avg" /\ 0 < Statistic._ctr s)
  | _ => False
  end.

Definition shown_data (d : list (string * value)) : Prop :=
  Forall (fun kv => shown (snd kv)) d.

(** * Properties *)

(** ** Numbers *)

Lemma num_ltb_lt a b : num_ltb a b = true <-> (val a < val b)%Qc.
Proof.
  unfold num_ltb. rewrite Qclt_alt.
  destruct (val a ?= val b)%Qc; split; congruence.
Qed.

Lemma num_ltb_ge a b : num_ltb a b = false <-> (val b <= val a)%Qc.
Proof.
  rewrite <- not_true_iff_false, num_ltb_lt. split.
  - apply Qcnot_lt_le.
  - apply Qcle_not_lt.
Qed.

Lemma num_eqb_eq a b : num_eqb a b = true <-> val a = val b.
Proof.
  unfold num_eqb. rewrite Qceq_alt.
  destruct (val a ?= val b)%Qc; split; congruence.
Qed.

Lemma val_add a b : val (num_add a b) = (val a + val b)%Qc.
Proof. destruct a, b; simpl; auto using Z2Qc_inj_add. Qed.

Lemma val_mul a b : val (num_mul a b) = (val a * val b)%Qc.
Proof. destruct a, b; simpl; auto using Z2Qc_inj_mul. Qed.

Lemma val_neg a : val (num_neg a) = (- val a)%Qc.
Proof. destruct a; simpl; auto using Z2Qc_inj_opp. Qed.

Lemma py_min_cases a b : py_min a b = a \/ py_min a b = b.
Proof. unfold py_min. destruct (num_ltb b a); auto. Qed.

Lemma py_max_cases a b : py_max a b = a \/ py_max a b = b.
Proof. unfold py_max. destruct (num_ltb a b); auto. Qed.

Lemma py_min_le_l a b : (val (py_min a b) <= val a)%Qc.
Proof.
  unfold py_min. destruct (num_ltb b a) eqn:E.
  - apply Qclt_le_weak, num_ltb_lt, E.
  - apply Qcle_refl.
Qed.

Lemma py_min_le_r a b : (val (py_min a b) <= val b)%Qc.
Proof.
  unfold py_min. destruct (num_ltb b a) eqn:E.
  - apply Qcle_refl.
  - apply num_ltb_ge, E.
Qed.

Lemma py_max_ge_l a b : (val a <= val (py_max a b))%Qc.
Proof.
  unfold py_max. destruct (num_ltb a b) eqn:E.
  - apply Qclt_le_weak, num_ltb_lt, E.
  - apply Qcle_refl.
Qed.

Lemma py_max_ge_r a b : (val b <= val (py_max a b))%Qc.
Proof.
  unfold py_max. destruct (num_ltb a b) eqn:E.
  - apply Qcle_refl.
  - apply num_ltb_ge, E.
Qed.

(** [py_min] and [py_max] compute the least and the greatest of the two
    values. *)
Lemma val_py_min a b :
  val (py_min a b) = if decide (val b < val a)%Qc then val b else val a.
Proof.
  unfold py_min. destruct (num_ltb b a) eqn:E.
  - apply num_ltb_lt in E. rewrite decide_True; auto.
  - apply num_ltb_ge in E. rewrite decide_False; auto.
    intros H. exact (Qcle_not_lt _ _ E H).
Qed.

Lemma val_py_max a b :
  val (py_max a b) = if decide (val a < val b)%Qc then val b else val a.
Proof.
  unfold py_max. destruct (num_ltb a b) eqn:E.
  - apply num_ltb_lt in E. rewrite decide_True; auto.
  - apply num_ltb_ge in E. rewrite decide_False; auto.
    intros H. exact (Qcle_not_lt _ _ E H).
Qed.

(** ** Labels: [label_eqb] decides equality *)

Lemma label_eqb_refl a : label_eqb a a = true.
Proof.
  revert a. fix IH 1. intros [s|z|l]; simpl.
  - apply String.eqb_refl.
  - apply Z.eqb_refl.
  - induction l as [|x l IHl]; [reflexivity|].
    rewrite (IH x). exact IHl.
Qed.

Lemma label_eqb_eq a b : label_eqb a b = true <-> a = b.
Proof.
  split; [|intros ->; apply label_eqb_refl].
  revert a b. fix IH 1. intros [s|z|l] [s'|z'|l']; simpl; try discriminate.
  - intros H. apply String.eqb_eq in H. congruence.
  - intros H. apply Z.eqb_eq in H. congruence.
  - intros H. f_equal. revert l' H.
    induction l as [|x l IHl]; intros [|y l'] H; try discriminate; auto.
    apply andb_true_iff in H as [H1 H2].
    f_equal; [exact (IH x y H1)|exact (IHl l' H2)].
Qed.

Lemma label_eqb_neq a b : label_eqb a b = false <-> a <> b.
Proof. rewrite <- not_true_iff_false, label_eqb_eq. tauto. Qed.

Lemma label_eqb_sym a b : label_eqb a b = label_eqb b a.
Proof.
  destruct (label_eqb a b) eqn:E.
  - apply label_eqb_eq in E. subst. symmetry. apply label_eqb_refl.
  - symmetry. apply label_eqb_neq. apply label_eqb_neq in E. congruence.
Qed.

(** ** Statistic objects in a store *)

Lemma heap_fresh (h : gmap Heap.loc Statistic.t) : h !! fresh (dom h) = None.
Proof. apply not_elem_of_dom, is_fresh. Qed.

Lemma heap_fresh_ne (h : gmap Heap.loc Statistic.t) l s :
  h !! l = Some s -> fresh (dom h) <> l.
Proof. intros H E. rewrite <- E, heap_fresh in H. discriminate. Qed.

Lemma heap_write_eq (h : gmap Heap.loc Statistic.t) l s f :
  h !! l = Some s -> Heap.write l f h = Some (<[l := f s]> h).
Proof. intros H. unfold Heap.write. rewrite H. reflexivity. Qed.

(** [self + other] on two Statistic objects of one mode allocates the
    result and writes nothing else. *)
Lemma heap_add_statistic (h : gmap Heap.loc Statistic.t) a b sa sb :
  h !! a = Some sa -> h !! b = Some sb ->
  Statistic._repr sa = Statistic._repr sb ->
  Heap.__add__ a (Heap.RRef b) h =
    Some (Ok (fresh (dom h),
      <[fresh (dom h) := Statistic.mk
                 (py_min (Statistic._min sa) (Statistic._min sb))
                 (py_max (Statistic._max sa) (Statistic._max sb))
                 (num_add (Statistic._sum sa) (Statistic._sum sb))
                 (num_add (Statistic._sqr sa) (Statistic._sqr sb))
                 (Statistic._ctr sa + Statistic._ctr sb)
                 (Statistic._repr sa)]> h)).
Proof.
  intros Ha Hb Hr. unfold Heap.__add__. rewrite Ha, Hb. simpl.
  rewrite Hr, String.eqb_refl. simpl.
  assert (Na : fresh (dom h) <> a) by (apply (heap_fresh_ne _ _ _ Ha)).
  assert (Nb : fresh (dom h) <> b) by (apply (heap_fresh_ne _ _ _ Hb)).
  repeat (rewrite ?lookup_insert_ne, ?Ha, ?Hb by done; simpl;
          erewrite heap_write_eq by apply lookup_insert_eq; simpl;
          rewrite insert_insert_eq).
  unfold Statistic.min, Statistic.max. rewrite Hr. reflexivity.
Qed.

Lemma heap_add_mismatch (h : gmap Heap.loc Statistic.t) a b sa sb :
  h !! a = Some sa -> h !! b = Some sb ->
  Statistic._repr sa <> Statistic._repr sb ->
  Heap.__add__ a (Heap.RRef b) h = Some (Raise ValueError).
Proof.
  intros Ha Hb Hr. unfold Heap.__add__. rewrite Ha, Hb. simpl.
  apply String.eqb_neq in Hr. rewrite Hr. reflexivity.
Qed.

(** C2.  For two Statistic objects [a] and [b] of a store: when their
    modes are equal, [a + b] returns a Statistic that was not in the store
    before, whose min is the min of the two mins, whose max is the max of
    the two maxes, whose sum, sum of squares and count are the sums of
    theirs, and whose mode is the common one; no object that was in the
    store is changed, so [a] and [b] hold what they held.  When the modes
    differ, [a + b] raises [ValueError]. *)
Theorem statistic_plus_statistic
    (h : gmap Heap.loc Statistic.t) (a b : Heap.loc) (sa sb : Statistic.t) :
  h !! a = Some sa -> h !! b = Some sb ->
  (Statistic._repr sa = Statistic._repr sb ->
   exists ret h' r,
     Heap.__add__ a (Heap.RRef b) h = Some (Ok (ret, h'))
     /\ h !! ret = None
     /\ h' !! ret = Some r
     /\ (forall l, l <> ret -> h' !! l = h !! l)
     /\ h' !! a = Some sa /\ h' !! b = Some sb
     /\ Statistic.min r = py_min (Statistic.min sa) (Statistic.min sb)
     /\ Statistic.max r = py_max (Statistic.max sa) (Statistic.max sb)
     /\ Statistic.sum r = num_add (Statistic.sum sa) (Statistic.sum sb)
     /\ Statistic._sqr r = num_add (Statistic._sqr sa) (Statistic._sqr sb)
     /\ Statistic._ctr r = Statistic._ctr sa + Statistic._ctr sb
     /\ Statistic._repr r = Statistic._repr sa
     /\ Statistic._repr r = Statistic._repr sb
     /\ Statistic.__add__ sa (VStat sb) = Ok r)
  /\ (Statistic._repr sa <> Statistic._repr sb ->
      Heap.__add__ a (Heap.RRef b) h = Some (Raise ValueError)
      /\ Statistic.__add__ sa (VStat sb) = Raise ValueError).
Proof.
  intros Ha Hb. split.
  - intros Hr. eexists _, _, _.
    split; [apply (heap_add_statistic h a b sa sb Ha Hb Hr)|].
    split; [apply heap_fresh|].
    split; [apply lookup_insert_eq|].
    split; [intros l Hl; apply lookup_insert_ne; congruence|].
    split; [rewrite lookup_insert_ne; [exact Ha|exact (heap_fresh_ne _ _ _ Ha)]|].
    split; [rewrite lookup_insert_ne; [exact Hb|exact (heap_fresh_ne _ _ _ Hb)]|].
    repeat (split; [reflexivity|]).
    split; [exact Hr|].
    unfold Statistic.__add__. rewrite Hr, String.eqb_refl. simpl.
    rewrite <- Hr. reflexivity.
  - intros Hr. split; [apply (heap_add_mismatch h a b sa sb Ha Hb Hr)|].
    unfold Statistic.__add__. apply String.eqb_neq in Hr. rewrite Hr.
    reflexivity.
Qed.

(** The min and the max of the sum of two Statistics are the least of the
    mins and the greatest of the maxes. *)
Lemma statistic_plus_bounds sa sb r :
  Statistic.__add__ sa (VStat sb) = Ok r ->
  (val (Statistic.min r) <= val (Statistic.min sa))%Qc
  /\ (val (Statistic.min r) <= val (Statistic.min sb))%Qc
  /\ (val (Statistic.max sa) <= val (Statistic.max r))%Qc
  /\ (val (Statistic.max sb) <= val (Statistic.max r))%Qc.
Proof.
  unfold Statistic.__add__.
  destruct (negb _); [discriminate|]. intros [= <-]. simpl.
  auto using py_min_le_l, py_min_le_r, py_max_ge_l, py_max_ge_r.
Qed.

(** C2 at [Statistic(2) + Statistic(2.5)], both of mode "sum", and at
    [Statistic(2) + Statistic(2.5, "avg")]. *)
Lemma statistic_plus_statistic_witness :
  (Statistic._repr stat_a = Statistic._repr stat_b ->
   exists ret h' r,
     Heap.__add__ 1%positive (Heap.RRef 2%positive) heap_abc = Some (Ok (ret, h'))
     /\ heap_abc !! ret = None
     /\ h' !! ret = Some r
     /\ (forall l, l <> ret -> h' !! l = heap_abc !! l)
     /\ h' !! 1%positive = Some stat_a /\ h' !! 2%positive = Some stat_b
     /\ Statistic.min r = py_min (Statistic.min stat_a) (Statistic.min stat_b)
     /\ Statistic.max r = py_max (Statistic.max stat_a) (Statistic.max stat_b)
     /\ Statistic.sum r = num_add (Statistic.sum stat_a) (Statistic.sum stat_b)
     /\ Statistic._sqr r = num_add (Statistic._sqr stat_a) (Statistic._sqr stat_b)
     /\ Statistic._ctr r = Statistic._ctr stat_a + Statistic._ctr stat_b
     /\ Statistic._repr r = Statistic._repr stat_a
     /\ Statistic._repr r = Statistic._repr stat_b
     /\ Statistic.__add__ stat_a (VStat stat_b) = Ok r)
  /\ (Statistic._repr stat_a <> Statistic._repr stat_b ->
      Heap.__add__ 1%positive (Heap.RRef 2%positive) heap_abc = Some (Raise ValueError)
      /\ Statistic.__add__ stat_a (VStat stat_b) = Raise ValueError).
Proof.
  apply (statistic_plus_statistic heap_abc 1%positive 2%positive stat_a stat_b);
    reflexivity.
Defined.

(** ** Sequences of [add] calls *)

Lemma num_add_comm a b : num_add a b = num_add b a.
Proof.
  destruct a, b; simpl; f_equal; auto using Z.add_comm, Qcplus_comm.
Qed.


Lemma num_add_0_l a : num_add (PInt 0) a = a.
Proof.
  destruct a; simpl; f_equal. rewrite Z2Qc_inj_0. apply Qcplus_0_l.
Qed.

Lemma val_fold_num_add l a :
  val (fold_left num_add l a) = (val a + Qcsum (map val l))%Qc.
Proof.
  revert a. induction l as [|x l IH]; intros a; simpl.
  - rewrite Z2Qc_inj_0. ring.
  - rewrite IH, val_add. ring.
Qed.

Lemma observe_ctr s vs :
  Statistic._ctr (observe s vs) = Statistic._ctr s + Z.of_nat (length vs).
Proof.
  revert s. induction vs as [|v vs IH]; intros s; simpl.
  - lia.
  - rewrite IH. simpl. lia.
Qed.


Lemma observe_sum s vs :
  Statistic._sum (observe s vs) = fold_left num_add vs (Statistic._sum s).
Proof.
  revert s. induction vs as [|v vs IH]; intros s; simpl; [reflexivity|].
  rewrite IH. reflexivity.
Qed.


(** The min only goes down and the max only goes up. *)
Lemma observe_min_le s vs :
  (val (Statistic._min (observe s vs)) <= val (Statistic._min s))%Qc.
Proof.
  revert s. induction vs as [|v vs IH]; intros s; simpl.
  - apply Qcle_refl.
  - eapply Qcle_trans; [apply IH|]. apply py_min_le_l.
Qed.

Lemma observe_max_ge s vs :
  (val (Statistic._max s) <= val (Statistic._max (observe s vs)))%Qc.
Proof.
  revert s. induction vs as [|v vs IH]; intros s; simpl.
  - apply Qcle_refl.
  - eapply Qcle_trans; [|apply IH]. apply py_max_ge_l.
Qed.

Lemma observe_min_bound s vs x :
  In x vs -> (val (Statistic._min (observe s vs)) <= val x)%Qc.
Proof.
  revert s. induction vs as [|v vs IH]; intros s; simpl; [tauto|].
  intros [->|H].
  - eapply Qcle_trans; [apply observe_min_le|]. apply py_min_le_r.
  - apply IH, H.
Qed.

Lemma observe_max_bound s vs x :
  In x vs -> (val x <= val (Statistic._max (observe s vs)))%Qc.
Proof.
  revert s. induction vs as [|v vs IH]; intros s; simpl; [tauto|].
  intros [->|H].
  - eapply Qcle_trans; [|apply observe_max_ge]. apply py_max_ge_r.
  - apply IH, H.
Qed.

(** The min and the max are among the values seen. *)
Lemma observe_min_in s vs :
  In (Statistic._min (observe s vs)) (Statistic._min s :: vs).
Proof.
  revert s. induction vs as [|v vs IH]; intros s; simpl; [auto|].
  destruct (IH (Statistic.add s v)) as [H|H]; [|auto].
  rewrite <- H. simpl. destruct (py_min_cases (Statistic._min s) v) as [E|E];
    rewrite E; auto.
Qed.

Lemma observe_max_in s vs :
  In (Statistic._max (observe s vs)) (Statistic._max s :: vs).
Proof.
  revert s. induction vs as [|v vs IH]; intros s; simpl; [auto|].
  destruct (IH (Statistic.add s v)) as [H|H]; [|auto].
  rewrite <- H. simpl. destruct (py_max_cases (Statistic._max s) v) as [E|E];
    rewrite E; auto.
Qed.



(** Int observations give int fields: the sums are exact. *)
Lemma observe_ints s a b zs :
  Statistic._sum s = PInt a -> Statistic._sqr s = PInt b ->
  Statistic._sum (observe s (ints zs)) = PInt (a + Zsum zs)
  /\ Statistic._sqr (observe s (ints zs)) = PInt (b + Zsum (squares zs)).
Proof.
  revert s a b. induction zs as [|z zs IH]; intros s a b Hs Hq; simpl.
  - rewrite !Z.add_0_r. auto.
  - destruct (IH (Statistic.add s (PInt z)) (a + z) (b + z * z)) as [H1 H2].
    + simpl. rewrite Hs. reflexivity.
    + simpl. rewrite Hq. reflexivity.
    + unfold ints in *. rewrite H1, H2. split; f_equal; lia.
Qed.


Lemma observe_ints_first z0 repr count zs :
  let s := observe (Statistic.__init__ (PInt z0) repr count) (ints zs) in
  Statistic._sum s = PInt (Zsum (z0 :: zs))
  /\ Statistic._sqr s = PInt (Zsum (squares (z0 :: zs))).
Proof.
  intros s.
  destruct (observe_ints (Statistic.__init__ (PInt z0) repr count) z0 (z0 * z0)
              zs eq_refl eq_refl) as [H1 H2].
  split; [exact H1|exact H2].
Qed.

(** On an int sum and an int sum of squares, [avg] and [variance] are
    Python 2's quotients, rounded down. *)
Lemma avg_int s z :
  Statistic._sum s = PInt z -> Statistic._ctr s <> 0 ->
  Statistic.avg s = Ok (PInt (z / Statistic._ctr s)).
Proof.
  intros Hs Hc. unfold Statistic.avg, num_div. rewrite Hs.
  destruct (Statistic._ctr s =? 0)%Z eqn:E; [apply Z.eqb_eq in E; tauto|].
  reflexivity.
Qed.

Lemma variance_int s z q :
  Statistic._sum s = PInt z -> Statistic._sqr s = PInt q ->
  Statistic._ctr s <> 0 ->
  Statistic.variance s
  = Ok (PInt (q / Statistic._ctr s
              - (z / Statistic._ctr s) * (z / Statistic._ctr s))).
Proof.
  intros Hs Hq Hc. unfold Statistic.variance.
  rewrite (avg_int s z Hs Hc). unfold num_div. rewrite Hq.
  destruct (Statistic._ctr s =? 0)%Z eqn:E; [apply Z.eqb_eq in E; tauto|].
  reflexivity.
Qed.



(** The calls on an object of a store leave in its cell what [observe]
    computes, and leave the other cells alone: [add] returns [self]. *)
Lemma add_all_observe (h : gmap Heap.loc Statistic.t) l s vs :
  h !! l = Some s ->
  exists h', add_all l vs h = Some h'
    /\ h' !! l = Some (observe s vs)
    /\ forall l', l' <> l -> h' !! l' = h !! l'.
Proof.
  revert h s. induction vs as [|v vs IH]; intros h s Hl; simpl.
  - eauto.
  - unfold Heap.add. rewrite (heap_write_eq h l s _ Hl). simpl.
    destruct (IH (<[l := Statistic.add s v]> h) (Statistic.add s v))
      as (h' & E & Hl' & Hfr); [apply lookup_insert_eq|].
    exists h'. split; [exact E|]. split; [exact Hl'|].
    intros l' Hne. rewrite (Hfr l' Hne). apply lookup_insert_ne. congruence.
Qed.

Lemma heap_add_returns_self (h h' : gmap Heap.loc Statistic.t) l l' v :
  Heap.add l v h = Some (l', h') -> l' = l.
Proof.
  unfold Heap.add. destruct (Heap.write l _ h); simpl; congruence.
Qed.

(** ** TraceContext: [enter] and [exit] are paired *)

Section TraceFacts.

Context {T K : Type}.

Import Trace.









End TraceFacts.

(** C1 on [raising_run] and the tracer that does nothing: both scopes are
    left through [exit], innermost first, and the exception goes on. *)
Lemma raising_run_log :
  Trace.exec Trace.dummy_tracer raising_run (tt, [])
  = ((tt, [Trace.Enter (LTuple [LStr "tour"; LInt 0]) true;
           Trace.Enter (LStr "enumeration") true;
           Trace.Exit; Trace.Exit]),
     Some ValueError).
Proof. reflexivity. Qed.

(** ** pretty_dict *)

Lemma num_abs_int_le z b :
  Z.abs z <= b -> num_ltb (PInt b) (num_abs (PInt z)) = false.
Proof.
  intros H. apply num_ltb_ge. simpl. apply (proj1 (Z2Qc_inj_le _ _)), H.
Qed.

Lemma pretty_entries_ok kw rb d es :
  Forall2 (fun kv e => pretty_entry kw rb kv = Ok e) d es ->
  pretty_entries kw rb d = Ok es.
Proof.
  induction 1 as [|kv e d es He _ IH]; simpl; [reflexivity|].
  rewrite He. simpl. rewrite IH. reflexivity.
Qed.

(** C10.  Pretty-printing the ordered mapping d = 2, f = 0.1, large = 4097
    with the default bound returns the string of the doctest.  The rules
    behind it: an int of absolute value at most the bound is printed
    right-justified in 8 characters; a float in [0, 10) is printed with 6
    decimals; the entries are joined by a comma and two spaces, in
    braces. *)
Theorem pretty_dict_doctest :
  pretty_dict doctest_dict None (PInt 9999) = Ok doctest_text
  /\ (forall k z b, Z.abs z <= b ->
        pretty_entry None (PInt b) (k, VNum (PInt z))
        = Ok ((dq ++ k ++ dq) ++ ": "
              ++ spaces (8 - String.length (str_int z)) ++ str_int z))
  /\ (forall k q rb, (Qc_of_Z 0 <= q)%Qc -> (q < Qc_of_Z 10)%Qc ->
        pretty_entry None rb (k, VNum (PFloat q))
        = Ok ((dq ++ k ++ dq) ++ ": " ++ fmt_s 8 (fmt_f 6 q)))
  /\ (forall d es kw rb,
        Forall2 (fun kv e => pretty_entry kw rb kv = Ok e) d es ->
        pretty_dict d kw rb = Ok ("{" ++ String.concat ",  " es ++ "}")).
Proof.
  split; [vm_compute; reflexivity|].
  split.
  { intros k z b H. unfold pretty_entry. cbn [snd fst].
    rewrite (num_abs_int_le z b H). reflexivity. }
  split.
  { intros k q rb H0 H10. unfold pretty_entry, pretty_float. cbn [snd fst].
    assert (E1 : num_ltb (PFloat q) (PInt 0) = false)
      by (apply num_ltb_ge; exact H0).
    assert (E2 : num_ltb (PFloat q) (PInt 10) = true)
      by (apply num_ltb_lt; exact H10).
    rewrite E1, E2. reflexivity. }
  intros d es kw rb H. unfold pretty_dict.
  rewrite (pretty_entries_ok kw rb d es H). reflexivity.
Qed.

(** ** Trees *)

(** Induction on a tree, with the property known of every child. *)
Lemma node_ind (P : Node.t -> Prop) :
  (forall l d cs, Forall P cs -> P (Node.mk l d cs)) -> forall n, P n.
Proof.
  intros H. fix IH 1. intros [l d cs]. apply H.
  induction cs as [|c cs IHcs]; constructor; [apply IH|exact IHcs].
Qed.

Lemma sum_unfold tag inc strict lab n :
  Node.sum tag inc strict lab n =
  let* r :=
    if inc && passes lab n then
      if strict then od_getitem tag (Node.data n)
      else Ok (tag_or_zero tag n)
    else Ok (VNum (PInt 0)) in
  sum_children tag strict lab (Node.children n) r.
Proof. destruct n as [l d cs]. reflexivity. Qed.

Lemma find_unfold l strict n :
  Node.find l strict n =
  match Node.first_labelled l (Node.children n) with
  | Some (_, c) => Ok (Some c)
  | None => find_children l strict n (Node.children n)
  end.
Proof. destruct n as [l' d cs]. reflexivity. Qed.

Lemma merge_unfold a b :
  Node.merge a b =
  let* d := Node.merge_data (Node.data a) (Node.data b) in
  let* cs := merge_children (Node.children b) (Node.children a) in
  Ok (Node.mk (Node.label a) d cs).
Proof. destruct b as [l d cs]. reflexivity. Qed.

(** *** first_labelled *)

Lemma first_labelled_Some l cs i c :
  Node.first_labelled l cs = Some (i, c) ->
  cs !! i = Some c /\ Node.label c = l
  /\ forall j c', (j < i)%nat -> cs !! j = Some c' -> Node.label c' <> l.
Proof.
  revert i. induction cs as [|x cs IH]; intros i; simpl; [discriminate|].
  destruct (label_eqb (Node.label x) l) eqn:E.
  - intros [= <- <-]. apply label_eqb_eq in E.
    split; [reflexivity|]. split; [exact E|]. intros j c' Hj. lia.
  - destruct (Node.first_labelled l cs) as [[i' c'']|]; [|discriminate].
    intros [= <- <-]. destruct (IH i' eq_refl) as (H1 & H2 & H3).
    split; [exact H1|]. split; [exact H2|].
    intros [|j] c' Hj Hc'; simpl in Hc'.
    + injection Hc' as <-. apply label_eqb_neq, E.
    + apply (H3 j c'); [lia|exact Hc'].
Qed.

Lemma first_labelled_None l cs :
  Node.first_labelled l cs = None <-> forall c, In c cs -> Node.label c <> l.
Proof.
  induction cs as [|x cs IH]; simpl.
  - split; [intros _ c []|reflexivity].
  - destruct (label_eqb (Node.label x) l) eqn:E.
    + split; [discriminate|]. intros H. apply label_eqb_eq in E.
      destruct (H x (or_introl eq_refl) E).
    + apply label_eqb_neq in E.
      destruct (Node.first_labelled l cs) as [[i c]|].
      * split; [discriminate|]. intros H.
        assert (Hn : Some (i, c) = (None : option (nat * Node.t))); [|discriminate].
        apply (proj2 IH). intros c' Hc'. apply H. auto.
      * split; [|reflexivity]. intros _ c [<-|Hc]; [exact E|].
        apply (proj1 IH eq_refl c Hc).
Qed.

Lemma first_labelled_In l cs i c :
  Node.first_labelled l cs = Some (i, c) -> In c cs.
Proof.
  intros H. apply first_labelled_Some in H as (H & _).
  apply list_elem_of_In. eapply list_elem_of_lookup_2, H.
Qed.

(** *** find *)

(** Without [raise_keyerror], [find] never raises. *)
Lemma find_lenient_total l n : exists r, Node.find l false n = Ok r.
Proof.
  induction n as [l' d cs IH] using node_ind. rewrite find_unfold. simpl.
  destruct (Node.first_labelled l cs) as [[i c]|]; [eauto|].
  destruct IH as [|c cs' [r Hr] _]; simpl; [eauto|].
  rewrite Hr. eauto.
Qed.

(** Without [raise_keyerror], [find] looks at the children and then only
    below the first child. *)
Lemma find_lenient_first_child l n c cs :
  Node.children n = c :: cs ->
  Node.first_labelled l (c :: cs) = None ->
  Node.find l false n = Node.find l false c.
Proof.
  intros Hc Hf. rewrite (find_unfold l false n), Hc, Hf. simpl.
  destruct (find_lenient_total l c) as [r Hr]. rewrite Hr. reflexivity.
Qed.

(** [str] of a node raises what [pretty_dict] raises on its data, and
    never a [KeyError]. *)
Lemma num_div_error a b e : num_div a b = Raise e -> e = ZeroDivisionError.
Proof.
  unfold num_div. destruct a as [x|p], b as [y|q];
    repeat match goal with
    | |- context [if ?c then _ else _] => destruct c
    end; congruence.
Qed.

Lemma float_error s e :
  Statistic.__float__ s = Raise e ->
  e = ZeroDivisionError \/ e = AttributeError.
Proof.
  unfold Statistic.__float__, Statistic.__getattribute__, Statistic.variance,
    Statistic.avg.
  repeat match goal with
  | |- context [if String.eqb ?a ?b then _ else _] => destruct (String.eqb a b)
  end; simpl; try discriminate.
  - destruct (num_div _ _) as [x|e'] eqn:E; simpl; [discriminate|].
    intros [= <-]. left. eapply num_div_error, E.
  - destruct (num_div (Statistic._sqr s) _) as [x|e'] eqn:E; simpl.
    + destruct (num_div (Statistic._sum s) _) as [y|e''] eqn:E'; simpl;
        [discriminate|].
      intros [= <-]. left. eapply num_div_error, E'.
    + intros [= <-]. left. eapply num_div_error, E.
  - intros [= <-]. right. reflexivity.
Qed.

Lemma pretty_float_error k v rb e :
  pretty_float k v rb = Raise e -> e = ValueError.
Proof.
  unfold pretty_float, fmt_exp.
  repeat match goal with
  | |- context [if ?c then _ else _] => destruct c
  end; simpl; congruence.
Qed.

Lemma pretty_entry_error kw rb kv e :
  pretty_entry kw rb kv = Raise e -> e <> KeyError.
Proof.
  unfold pretty_entry. destruct kv as [k [|[z|q]|s]]; simpl.
  - discriminate.
  - unfold fmt_exp.
    repeat match goal with
    | |- context [if ?c then _ else _] => destruct c
    end; simpl; congruence.
  - intros H. apply pretty_float_error in H. congruence.
  - destruct (Statistic.__float__ s) as [f|e'] eqn:E.
    + intros H. apply pretty_float_error in H. congruence.
    + apply float_error in E. destruct E as [-> | ->]; congruence.
Qed.

Lemma pretty_entries_error kw rb d e :
  pretty_entries kw rb d = Raise e -> e <> KeyError.
Proof.
  induction d as [|kv d IH]; simpl; [discriminate|].
  destruct (pretty_entry kw rb kv) as [x|e'] eqn:E; simpl.
  - destruct (pretty_entries kw rb d) as [xs|e'']; simpl; [discriminate|].
    intros [= <-]. apply IH. reflexivity.
  - intros [= <-]. eapply pretty_entry_error, E.
Qed.

Lemma str_not_keyerror n e : Node.__str__ n = Raise e -> e <> KeyError.
Proof.
  unfold Node.__str__, pretty_dict.
  destruct (pretty_entries None (PInt 9999) (Node.data n)) as [s|e'] eqn:E;
    simpl; [discriminate|].
  intros [= <-]. eapply pretty_entries_error, E.
Qed.

Lemma find_children_strict l self cs :
  Forall (fun n => find_strict_post l n (Node.find l true n)) cs ->
  (forall c, In c cs -> Node.label c <> l) ->
  match find_children l true self cs with
  | Ok (Some c) => In c (flat_map nodes cs) /\ Node.label c = l
  | Ok None => False
  | Raise e =>
      (e = KeyError /\ forall m, In m (flat_map nodes cs) -> Node.label m <> l)
      \/ (e <> KeyError
          /\ exists m, In m (self :: flat_map nodes cs)
               /\ Node.__str__ m = Raise e)
  end.
Proof.
  induction 1 as [|x cs Hx _ IH]; intros Hcs; simpl.
  - destruct (Node.__str__ self) as [s|e] eqn:E; simpl.
    + left. split; [reflexivity|]. intros m [].
    + right. split; [eapply str_not_keyerror, E|].
      exists self. split; [left; reflexivity|exact E].
  - assert (Hcs' : forall c, In c cs -> Node.label c <> l)
      by (intros c Hc; apply Hcs; right; exact Hc).
    specialize (IH Hcs'). unfold find_strict_post in Hx.
    destruct (Node.find l true x) as [[c|]|e].
    + destruct Hx as [Hin Hl]. split; [|exact Hl].
      destruct x as [lx dx csx]. simpl. right. apply in_or_app. left. exact Hin.
    + destruct Hx.
    + destruct Hx as [[-> Hx]|[Hne (m & Hm & Em)]].
      * destruct (find_children l true self cs) as [[c|]|e].
        -- destruct IH as [Hin Hl]. split; [|exact Hl].
           apply in_or_app. right. exact Hin.
        -- exact IH.
        -- destruct IH as [[-> IH]|[Hne (m & Hm & Em)]].
           ++ left. split; [reflexivity|].
              intros m Hm. apply in_app_or in Hm as [Hm|Hm]; [|apply IH, Hm].
              destruct x as [lx dx csx]. simpl in Hm. destruct Hm as [<-|Hm].
              ** apply (Hcs (Node.mk lx dx csx)). left. reflexivity.
              ** apply Hx, Hm.
           ++ right. split; [exact Hne|]. exists m. split; [|exact Em].
              destruct Hm as [<-|Hm]; [left; reflexivity|].
              right. apply in_or_app. right. exact Hm.
      * assert (E : match e with KeyError => False | _ => True end)
          by (destruct e; try exact I; apply Hne; reflexivity).
        destruct e; try destruct E;
          (right; split; [exact Hne|]; exists m; split; [|exact Em];
           right; apply in_or_app; left; exact Hm).
Qed.

Lemma find_strict_cases l n : find_strict_post l n (Node.find l true n).
Proof.
  induction n as [ln d cs IH] using node_ind. rewrite find_unfold.
  unfold find_strict_post. cbn [Node.children].
  destruct (Node.first_labelled l cs) as [[i c]|] eqn:E.
  - split.
    + apply first_labelled_In in E. apply in_flat_map. exists c.
      split; [exact E|]. destruct c. left. reflexivity.
    + apply first_labelled_Some in E. tauto.
  - pose proof (find_children_strict l (Node.mk ln d cs) cs IH
                  (proj1 (first_labelled_None l cs) E)) as H.
    destruct (find_children l true (Node.mk ln d cs) cs) as [[c|]|e];
      exact H.
Qed.

(** On a tree all of whose nodes [str] can print, [find] with
    [raise_keyerror] returns a node below [self] with the label whenever
    there is one, and raises [KeyError] otherwise. *)
Lemma find_strict_spec l n :
  (forall m, In m (nodes n) -> exists t, Node.__str__ m = Ok t) ->
  match Node.find l true n with
  | Ok (Some c) => In c (flat_map nodes (Node.children n)) /\ Node.label c = l
  | Ok None => False
  | Raise e =>
      e = KeyError
      /\ forall m, In m (flat_map nodes (Node.children n)) -> Node.label m <> l
  end.
Proof.
  intros Hp. pose proof (find_strict_cases l n) as H.
  unfold find_strict_post in H.
  destruct (Node.find l true n) as [[c|]|e]; [exact H|exact H|].
  destruct H as [H|[_ (m & Hm & Em)]]; [exact H|].
  destruct (Hp m Hm) as [t Et]. congruence.
Qed.

(** Without [raise_keyerror], a node returned is below [self] and has the
    label; and [None] is returned when no node below has the label. *)
Lemma find_lenient_sound l n c :
  Node.find l false n = Ok (Some c) ->
  In c (flat_map nodes (Node.children n)) /\ Node.label c = l.
Proof.
  revert c. induction n as [ln d cs IH] using node_ind. intros c.
  rewrite find_unfold. simpl.
  destruct (Node.first_labelled l cs) as [[i x]|] eqn:E.
  - intros [= <-]. split.
    + apply first_labelled_In in E. apply in_flat_map. exists x.
      split; [exact E|]. destruct x. left. reflexivity.
    + apply first_labelled_Some in E. tauto.
  - destruct IH as [|x cs' Hx _]; simpl; [discriminate|].
    destruct (find_lenient_total l x) as [r Hr]. rewrite Hr.
    intros [= ->]. destruct (Hx c Hr) as [Hin Hl]. split; [|exact Hl].
    destruct x as [lx dx csx]. simpl. right. apply in_or_app. left. exact Hin.
Qed.

Lemma find_lenient_none l n :
  (forall m, In m (flat_map nodes (Node.children n)) -> Node.label m <> l) ->
  Node.find l false n = Ok None.
Proof.
  intros H. destruct (find_lenient_total l n) as [[c|] Hr]; [|exact Hr].
  destruct (find_lenient_sound l n c Hr) as [Hin Hl].
  destruct (H c Hin Hl).
Qed.

(** C5, at [far_tree]: a node labelled "x" is below the second child, the
    breadth-first search of the specification returns it, and [find]
    without [raise_keyerror] returns [None]. *)
Lemma find_misses_second_subtree :
  In far_x (nodes far_tree)
  /\ bfs_find (LStr "x") far_tree = Some far_x
  /\ Node.find (LStr "x") false far_tree = Ok None
  /\ Node.find (LStr "x") true far_tree = Ok (Some far_x).
Proof. vm_compute. intuition. Qed.

(** C5, at [deep_tree]: with [raise_keyerror], [find] returns the node at
    depth 3 below the first child, and not the node at depth 2 that a
    breadth-first search returns. *)
Lemma find_not_shallowest :
  bfs_find (LStr "x") deep_tree = Some far_x
  /\ In far_x (at_depth 2 deep_tree)
  /\ Node.find (LStr "x") true deep_tree = Ok (Some deep_x)
  /\ In deep_x (at_depth 3 deep_tree)
  /\ deep_x <> far_x.
Proof.
  split; [reflexivity|]. split; [vm_compute; auto|].
  split; [reflexivity|]. split; [vm_compute; auto|]. discriminate.
Qed.

(** *** get *)





(** The doctest of [get]. *)
Lemma get_doctest :
  Node.get get_root (LStr "bar") = Ok (Node.Single get_bar)
  /\ Node.get get_root (LStr "foo") = Ok (Node.Family [get_foo0; get_foo3]).
Proof. split; reflexivity. Qed.

(** *** sum *)

Lemma vadd_total a b c : vadd a b = Ok c -> total c = (total a + total b)%Qc.
Proof.
  destruct a as [|x|s], b as [|y|t]; simpl; try discriminate.
  - intros [= <-]. simpl. rewrite Z2Qc_inj_0. ring.
  - intros [= <-]. simpl. apply val_add.
  - intros [= <-]. simpl. rewrite val_add. ring.
  - intros [= <-]. simpl. rewrite Z2Qc_inj_0. ring.
  - intros [= <-]. simpl. apply val_add.
  - destruct (negb _); [discriminate|]. intros [= <-]. simpl. apply val_add.
Qed.

Lemma vadd_foldable mode a b :
  foldable mode a -> foldable mode b ->
  exists c, vadd a b = Ok c /\ foldable mode c
    /\ total c = (total a + total b)%Qc.
Proof.
  intros Ha Hb.
  assert (H : exists c, vadd a b = Ok c /\ foldable mode c).
  { destruct a as [|x|s], b as [|y|t]; simpl in *; try tauto; eauto.
    rewrite Hb, <- Ha, String.eqb_refl. simpl.
    eexists. split; [reflexivity|]. reflexivity. }
  destruct H as (c & Hc & Hf). exists c. split; [exact Hc|].
  split; [exact Hf|]. apply vadd_total, Hc.
Qed.

Lemma Qcsum_app l l' : Qcsum (l ++ l') = (Qcsum l + Qcsum l')%Qc.
Proof.
  induction l as [|x l IH]; simpl.
  - rewrite Z2Qc_inj_0. ring.
  - rewrite IH. ring.
Qed.

Lemma summed_self lab c : summed true lab c = List.filter (passes lab) (nodes c).
Proof. destruct c. reflexivity. Qed.

Lemma sum_children_folds tag mode strict lab cs :
  Forall (fun c =>
            Forall (tag_foldable tag mode) (summed true lab c) ->
            folds_to strict tag mode (summed true lab c) (Qc_of_Z 0)
              (Node.sum tag true strict lab c)) cs ->
  forall r,
    foldable mode r ->
    Forall (tag_foldable tag mode) (List.filter (passes lab) (flat_map nodes cs)) ->
    folds_to strict tag mode (List.filter (passes lab) (flat_map nodes cs))
      (total r) (sum_children tag strict lab cs r).
Proof.
  induction 1 as [|c cs Hc _ IH]; intros r Hr Hall; simpl.
  - unfold folds_to. simpl. rewrite andb_false_r.
    exists r. split; [reflexivity|]. split; [exact Hr|].
    rewrite Z2Qc_inj_0. rewrite ?Z2Qc_inj_0; ring.
  - simpl in Hall. rewrite List.filter_app in Hall.
    apply Forall_app in Hall as [Hall1 Hall2].
    rewrite <- summed_self in Hall1. specialize (Hc Hall1).
    rewrite List.filter_app, <- summed_self.
    unfold folds_to in *. rewrite forallb_app.
    destruct strict; simpl in *.
    + destruct (forallb (has_tag tag) (summed true lab c)); simpl in *.
      * destruct Hc as (x & Ex & Fx & Tx). rewrite Ex. simpl.
        destruct (vadd_foldable mode r x Hr Fx) as (r' & Er & Fr & Tr).
        rewrite Er. simpl. specialize (IH r' Fr Hall2).
        destruct (forallb (has_tag tag) _); simpl in *; [|exact IH].
        destruct IH as (v & Ev & Fv & Tv). exists v.
        split; [exact Ev|]. split; [exact Fv|].
        rewrite Tv, Tr, Tx, map_app, Qcsum_app. rewrite ?Z2Qc_inj_0; ring.
      * rewrite Hc. reflexivity.
    + destruct Hc as (x & Ex & Fx & Tx). rewrite Ex. simpl.
      destruct (vadd_foldable mode r x Hr Fx) as (r' & Er & Fr & Tr).
      rewrite Er. simpl. destruct (IH r' Fr Hall2) as (v & Ev & Fv & Tv).
      exists v. split; [exact Ev|]. split; [exact Fv|].
      rewrite Tv, Tr, Tx, map_app, Qcsum_app. rewrite ?Z2Qc_inj_0; ring.
Qed.

Lemma tag_or_zero_foldable tag mode n :
  tag_foldable tag mode n -> foldable mode (tag_or_zero tag n).
Proof.
  unfold tag_foldable, tag_or_zero, od_get_default.
  destruct (od_get tag (Node.data n)); simpl; auto.
Qed.

Lemma sum_folds tag mode strict lab n :
  forall inc,
    Forall (tag_foldable tag mode) (summed inc lab n) ->
    folds_to strict tag mode (summed inc lab n) (Qc_of_Z 0)
      (Node.sum tag inc strict lab n).
Proof.
  induction n as [l d cs IH] using node_ind. intros inc Hall.
  rewrite sum_unfold. unfold summed in *. simpl Node.children in *.
  assert (IH' : Forall (fun c =>
            Forall (tag_foldable tag mode) (summed true lab c) ->
            folds_to strict tag mode (summed true lab c) (Qc_of_Z 0)
              (Node.sum tag true strict lab c)) cs).
  { eapply Forall_impl; [exact IH|]. intros c Hc. apply Hc. }
  pose proof (sum_children_folds tag mode strict lab cs IH') as Hch.
  set (n := Node.mk l d cs) in *.
  destruct (inc && passes lab n) eqn:Einc.
  - apply andb_true_iff in Einc as [-> Hp].
    simpl in Hall |- *. rewrite Hp in Hall |- *.
    apply Forall_cons in Hall as [Hn Hall].
    pose proof (tag_or_zero_foldable tag mode n Hn) as Hz.
    unfold folds_to. simpl forallb. unfold has_tag at 1, od_mem.
    destruct strict.
    + unfold od_getitem. change (Node.data n) with d in *.
      destruct (od_get tag d) as [v|] eqn:Eg; simpl.
      * assert (Ev : tag_or_zero tag n = v).
        { unfold tag_or_zero, od_get_default. change (Node.data n) with d.
          rewrite Eg. reflexivity. }
        rewrite Ev in Hz. specialize (Hch v Hz Hall).
        unfold folds_to in Hch. simpl in Hch.
        destruct (forallb (has_tag tag) _); simpl in *; [|exact Hch].
        destruct Hch as (x & Ex & Fx & Tx). exists x.
        split; [exact Ex|]. split; [exact Fx|]. rewrite Tx, Ev. rewrite ?Z2Qc_inj_0; ring.
      * reflexivity.
    + simpl. specialize (Hch _ Hz Hall). unfold folds_to in Hch. simpl in Hch.
      destruct Hch as (x & Ex & Fx & Tx). exists x.
      split; [exact Ex|]. split; [exact Fx|]. rewrite Tx. rewrite ?Z2Qc_inj_0; ring.
  - assert (El : List.filter (passes lab)
                   ((if inc then [n] else []) ++ flat_map nodes cs)%list
                 = List.filter (passes lab) (flat_map nodes cs)).
    { destruct inc; simpl in *; [rewrite Einc|]; reflexivity. }
    rewrite El in *. simpl.
    specialize (Hch (VNum (PInt 0)) I Hall). simpl in Hch. exact Hch.
Qed.

Lemma sum_children_strict_eq tag lab cs :
  Forall (fun c =>
            Forall (fun m => has_tag tag m = true) (summed true lab c) ->
            Node.sum tag true true lab c = Node.sum tag true false lab c) cs ->
  forall r,
    Forall (fun m => has_tag tag m = true)
      (List.filter (passes lab) (flat_map nodes cs)) ->
    sum_children tag true lab cs r = sum_children tag false lab cs r.
Proof.
  induction 1 as [|c cs Hc _ IH]; intros r Hall; simpl; [reflexivity|].
  simpl in Hall. rewrite List.filter_app in Hall.
  apply Forall_app in Hall as [Hall1 Hall2].
  rewrite <- summed_self in Hall1. rewrite (Hc Hall1).
  destruct (Node.sum tag true false lab c) as [x|e]; simpl; [|reflexivity].
  destruct (vadd r x) as [r'|e]; simpl; [|reflexivity].
  apply IH, Hall2.
Qed.

(** When every node that is summed has the tag, [raise_keyerror] changes
    nothing. *)
Lemma sum_strict_eq tag lab n :
  forall inc,
    Forall (fun m => has_tag tag m = true) (summed inc lab n) ->
    Node.sum tag inc true lab n = Node.sum tag inc false lab n.
Proof.
  induction n as [l d cs IH] using node_ind. intros inc Hall.
  rewrite !sum_unfold. unfold summed in Hall. simpl Node.children in *.
  assert (IH' : Forall (fun c =>
            Forall (fun m => has_tag tag m = true) (summed true lab c) ->
            Node.sum tag true true lab c = Node.sum tag true false lab c) cs).
  { eapply Forall_impl; [exact IH|]. intros c Hc. apply Hc. }
  pose proof (sum_children_strict_eq tag lab cs IH') as Hch.
  set (n := Node.mk l d cs) in *.
  destruct (inc && passes lab n) eqn:Einc.
  - apply andb_true_iff in Einc as [-> Hp].
    simpl in Hall. rewrite Hp in Hall.
    apply Forall_cons in Hall as [Hn Hall].
    unfold has_tag, od_mem in Hn. unfold od_getitem, tag_or_zero, od_get_default.
    destruct (od_get tag (Node.data n)); [|discriminate]. simpl.
    apply Hch, Hall.
  - simpl. apply Hch.
    destruct inc; simpl in *; [rewrite Einc in Hall|]; exact Hall.
Qed.

Lemma forallb_has_tag tag ns :
  forallb (has_tag tag) ns = true <-> Forall (fun m => has_tag tag m = true) ns.
Proof. rewrite forallb_forall, List.Forall_forall. reflexivity. Qed.

Lemma sum_children_total tag strict lab cs :
  Forall (fun c => forall v,
            Node.sum tag true strict lab c = Ok v ->
            total v = Qcsum (map (fun m => total (tag_or_zero tag m))
                                 (summed true lab c))) cs ->
  forall r v,
    sum_children tag strict lab cs r = Ok v ->
    total v = (total r
               + Qcsum (map (fun m => total (tag_or_zero tag m))
                            (List.filter (passes lab) (flat_map nodes cs))))%Qc.
Proof.
  induction 1 as [|c cs Hc _ IH]; intros r v; simpl.
  - intros [= <-]. rewrite Z2Qc_inj_0. ring.
  - destruct (Node.sum tag true strict lab c) as [x|] eqn:Ex; simpl;
      [|discriminate].
    destruct (vadd r x) as [r'|] eqn:Er; simpl; [|discriminate].
    intros Hv. rewrite (IH r' v Hv), (vadd_total _ _ _ Er), (Hc x eq_refl).
    rewrite List.filter_app, <- summed_self, map_app, Qcsum_app. ring.
Qed.

(** Whatever the values, a result of [sum] stands for the sum of the
    values of the nodes summed. *)
Lemma sum_total tag strict lab n :
  forall inc v,
    Node.sum tag inc strict lab n = Ok v ->
    total v = Qcsum (map (fun m => total (tag_or_zero tag m)) (summed inc lab n)).
Proof.
  induction n as [l d cs IH] using node_ind. intros inc v.
  rewrite sum_unfold. unfold summed. simpl Node.children.
  assert (IH' : Forall (fun c => forall v,
            Node.sum tag true strict lab c = Ok v ->
            total v = Qcsum (map (fun m => total (tag_or_zero tag m))
                                 (summed true lab c))) cs).
  { eapply Forall_impl; [exact IH|]. intros c Hc. apply Hc. }
  pose proof (sum_children_total tag strict lab cs IH') as Hch.
  set (n := Node.mk l d cs) in *.
  destruct (inc && passes lab n) eqn:Einc.
  - apply andb_true_iff in Einc as [-> Hp]. simpl. rewrite Hp. simpl.
    assert (Hown : forall r,
               (if strict then od_getitem tag d
                else Ok (tag_or_zero tag n)) = Ok r -> r = tag_or_zero tag n).
    { intros r. unfold od_getitem, tag_or_zero, od_get_default.
      change (Node.data n) with d.
      destruct strict; [|congruence].
      destruct (od_get tag d); [congruence|discriminate]. }
    destruct (if strict then od_getitem tag d
              else Ok (tag_or_zero tag n)) as [r|]; simpl; [|discriminate].
    intros Hv. rewrite (Hch r v Hv), (Hown r eq_refl). reflexivity.
  - simpl. intros Hv. rewrite (Hch _ v Hv). simpl.
    assert (El : List.filter (passes lab)
                   ((if inc then [n] else []) ++ flat_map nodes cs)%list
                 = List.filter (passes lab) (flat_map nodes cs)).
    { destruct inc; simpl in *; [rewrite Einc|]; reflexivity. }
    rewrite El, Z2Qc_inj_0. ring.
Qed.

Lemma sum_children_strict_has_tag tag lab cs :
  Forall (fun c => forall v,
            Node.sum tag true true lab c = Ok v ->
            Forall (fun m => has_tag tag m = true) (summed true lab c)) cs ->
  forall r v,
    sum_children tag true lab cs r = Ok v ->
    Forall (fun m => has_tag tag m = true)
      (List.filter (passes lab) (flat_map nodes cs)).
Proof.
  induction 1 as [|c cs Hc _ IH]; intros r v; simpl; [constructor|].
  destruct (Node.sum tag true true lab c) as [x|] eqn:Ex; simpl; [|discriminate].
  destruct (vadd r x) as [r'|]; simpl; [|discriminate].
  intros Hv. rewrite List.filter_app, <- summed_self. apply Forall_app.
  split; [apply (Hc x eq_refl)|apply (IH r' v Hv)].
Qed.

(** With [raise_keyerror], [sum] returns only when every node summed has
    the tag. *)
Lemma sum_strict_has_tag tag lab n :
  forall inc v,
    Node.sum tag inc true lab n = Ok v ->
    Forall (fun m => has_tag tag m = true) (summed inc lab n).
Proof.
  induction n as [l d cs IH] using node_ind. intros inc v.
  rewrite sum_unfold. unfold summed. simpl Node.children.
  assert (IH' : Forall (fun c => forall v,
            Node.sum tag true true lab c = Ok v ->
            Forall (fun m => has_tag tag m = true) (summed true lab c)) cs).
  { eapply Forall_impl; [exact IH|]. intros c Hc. apply Hc. }
  pose proof (sum_children_strict_has_tag tag lab cs IH') as Hch.
  set (n := Node.mk l d cs) in *.
  destruct (inc && passes lab n) eqn:Einc.
  - apply andb_true_iff in Einc as [-> Hp]. simpl. rewrite Hp.
    unfold od_getitem. change (Node.data n) with d.
    destruct (od_get tag d) as [r|] eqn:Eg; simpl; [|discriminate].
    intros Hv. constructor; [|apply (Hch r v Hv)].
    unfold has_tag, od_mem. change (Node.data n) with d. rewrite Eg.
    reflexivity.
  - simpl. intros Hv.
    assert (El : List.filter (passes lab)
                   ((if inc then [n] else []) ++ flat_map nodes cs)%list
                 = List.filter (passes lab) (flat_map nodes cs)).
    { destruct inc; simpl in *; [rewrite Einc|]; reflexivity. }
    rewrite El. apply (Hch _ v Hv).
Qed.

(** C6.  [sum] folds the value at the tag over the nodes [summed]: the
    node itself when [include_self], every node below it (the recursion
    passes [include_self=True]), and of these the ones that pass the label
    filter.  A result stands for the sum of the values of these nodes, a
    node without the tag counting 0.  With [raise_keyerror], [sum] returns
    only if every such node has the tag, and then returns what it returns
    without.  When the values at the tag are numbers or Statistics of one
    mode, so that [+] cannot fail: without [raise_keyerror] [sum] returns,
    and with it [sum] raises [KeyError] when one of the nodes lacks the
    tag. *)
Theorem sum_folds_subtree (tag : string) (include_self : bool)
    (lab : option Label) (n : Node.t) :
  (forall m, In m (summed include_self lab n) <->
     passes lab m = true
     /\ ((include_self = true /\ m = n)
         \/ exists c, In c (Node.children n) /\ In m (nodes c)))
  /\ (forall strict,
        Node.sum tag include_self strict lab n =
        let* r :=
          if include_self && passes lab n then
            if strict then od_getitem tag (Node.data n)
            else Ok (tag_or_zero tag n)
          else Ok (VNum (PInt 0)) in
        sum_children tag strict lab (Node.children n) r)
  /\ (forall strict v,
        Node.sum tag include_self strict lab n = Ok v ->
        total v = Qcsum (map (fun m => total (tag_or_zero tag m))
                             (summed include_self lab n)))
  /\ (forall v,
        Node.sum tag include_self true lab n = Ok v ->
        Forall (fun m => has_tag tag m = true) (summed include_self lab n))
  /\ (Forall (fun m => has_tag tag m = true) (summed include_self lab n) ->
      Node.sum tag include_self true lab n
      = Node.sum tag include_self false lab n)
  /\ (forall mode,
        Forall (tag_foldable tag mode) (summed include_self lab n) ->
        (exists v, Node.sum tag include_self false lab n = Ok v
           /\ foldable mode v)
        /\ (Exists (fun m => has_tag tag m = false) (summed include_self lab n) ->
            Node.sum tag include_self true lab n = Raise KeyError)).
Proof.
  split.
  { intros m. unfold summed. rewrite List.filter_In, in_app_iff, in_flat_map.
    split.
    - intros [[H|H] Hp]; split; auto.
      destruct include_self; simpl in H; [|tauto].
      destruct H as [<-|[]]. auto.
    - intros [Hp [[-> ->]|H]]; split; auto. simpl. auto. }
  split; [intros strict; apply sum_unfold|].
  split; [intros strict v; apply sum_total|].
  split; [intros v; apply sum_strict_has_tag|].
  split; [apply sum_strict_eq|].
  intros mode Hall. split.
  { pose proof (sum_folds tag mode false lab n include_self Hall) as H.
    unfold folds_to in H. simpl in H. destruct H as (v & Ev & Fv & Tv).
    exists v. split; [exact Ev|exact Fv]. }
  intros Hex. pose proof (sum_folds tag mode true lab n include_self Hall) as H.
  unfold folds_to in H.
  destruct (forallb (has_tag tag) (summed include_self lab n)) eqn:E;
    simpl in H; [|exact H].
  apply forallb_has_tag in E. apply List.Exists_exists in Hex as (m & Hm & Hf).
  rewrite List.Forall_forall in E. rewrite (E m Hm) in Hf. discriminate.
Qed.

(** The doctests of [sum]. *)
Lemma sum_doctest :
  Node.sum "a" true false None doc_root = Ok (VNum (PFloat (Qc_of_Z 4197)))
  /\ Node.sum "a" true false (Some (LTuple [LStr "child"; LInt 3])) doc_root
     = Ok (VNum (PInt 4097))
  /\ Node.sum "a" true false (Some (LTuple [LStr "child"; LInt 2])) doc_root
     = Ok (VNum (PInt 0))
  /\ Node.sum "a" true true (Some (LTuple [LStr "child"; LInt 2])) doc_root
     = Raise KeyError.
Proof.
  split; [vm_compute; do 3 f_equal; apply Qc_is_canon; reflexivity|].
  split; [reflexivity|]. split; reflexivity.
Qed.

(** *** OrderedDict *)

Lemma od_get_cons k k' v d :
  od_get k ((k', v) :: d) = if String.eqb k' k then Some v else od_get k d.
Proof. unfold od_get. simpl. destruct (String.eqb k' k); reflexivity. Qed.

Lemma od_get_set_eq k v d : od_get k (od_set k v d) = Some v.
Proof.
  induction d as [|[k' v'] d IH]; simpl.
  - rewrite od_get_cons, String.eqb_refl. reflexivity.
  - destruct (String.eqb k' k) eqn:E; rewrite od_get_cons, E; auto.
Qed.

Lemma od_get_set_ne k k' v d :
  k <> k' -> od_get k' (od_set k v d) = od_get k' d.
Proof.
  intros Hne. induction d as [|[k'' v''] d IH]; simpl.
  - rewrite od_get_cons. apply String.eqb_neq in Hne. rewrite Hne. reflexivity.
  - destruct (String.eqb k'' k) eqn:E; rewrite !od_get_cons.
    + apply String.eqb_eq in E. subst k''.
      apply String.eqb_neq in Hne. rewrite Hne. reflexivity.
    + rewrite IH. reflexivity.
Qed.

Lemma od_get_not_in k d : ~ In k (map fst d) -> od_get k d = None.
Proof.
  induction d as [|[k' v] d IH]; simpl; [reflexivity|].
  intros H. rewrite od_get_cons.
  destruct (String.eqb k' k) eqn:E.
  - apply String.eqb_eq in E. tauto.
  - apply IH. tauto.
Qed.

Lemma opt_vadd_none_r x : opt_vadd x None = Ok x.
Proof. destruct x; reflexivity. Qed.

Lemma opt_vadd_none_l x : opt_vadd None x = Ok x.
Proof. destruct x; reflexivity. Qed.

Lemma opt_vadd_total x y z :
  opt_vadd x y = Ok z -> total_opt z = (total_opt x + total_opt y)%Qc.
Proof.
  destruct x as [a|], y as [b|]; simpl.
  - destruct (vadd a b) as [c|e] eqn:E; simpl; [|discriminate].
    intros [= <-]. simpl. apply vadd_total, E.
  - intros [= <-]. simpl. rewrite Z2Qc_inj_0. ring.
  - intros [= <-]. simpl. rewrite Z2Qc_inj_0. ring.
  - intros [= <-]. simpl. rewrite Z2Qc_inj_0. ring.
Qed.

(** The first loop of [merge]: every entry of the result is the sum of the
    entries of the two dicts, or the loop raises what one of the sums
    raises. *)
Lemma merge_data_spec nd :
  od_wf nd ->
  forall sd,
    match Node.merge_data sd nd with
    | Ok d' => forall t, opt_vadd (od_get t sd) (od_get t nd) = Ok (od_get t d')
    | Raise e => exists t, opt_vadd (od_get t sd) (od_get t nd) = Raise e
    end.
Proof.
  unfold od_wf. induction nd as [|[k v] nd IH]; intros Hwf sd; simpl.
  - intros t. apply opt_vadd_none_r.
  - simpl in Hwf. apply NoDup_cons in Hwf as [Hk Hwf].
    rewrite list_elem_of_In in Hk.
    pose proof (od_get_not_in k nd Hk) as Hnone.
    assert (Hstep : forall new,
      match Node.merge_data (od_set k new sd) nd with
      | Ok d' =>
          od_get k d' = Some new
          /\ forall t, t <> k ->
               opt_vadd (od_get t sd) (od_get t nd) = Ok (od_get t d')
      | Raise e =>
          exists t, t <> k /\ opt_vadd (od_get t sd) (od_get t nd) = Raise e
      end).
    { intros new. specialize (IH Hwf (od_set k new sd)).
      destruct (Node.merge_data (od_set k new sd) nd) as [d'|e].
      - split.
        + specialize (IH k). rewrite od_get_set_eq, Hnone in IH.
          simpl in IH. congruence.
        + intros t Ht. specialize (IH t).
          rewrite od_get_set_ne in IH by congruence. exact IH.
      - destruct IH as [t Ht]. exists t.
        destruct (string_dec t k) as [->|Hne].
        + rewrite Hnone, opt_vadd_none_r in Ht. discriminate.
        + split; [exact Hne|]. rewrite od_get_set_ne in Ht by congruence.
          exact Ht. }
    assert (Hother : forall t, t <> k -> od_get t ((k, v) :: nd) = od_get t nd).
    { intros t Ht. rewrite od_get_cons.
      destruct (String.eqb k t) eqn:E; [|reflexivity].
      apply String.eqb_eq in E. congruence. }
    assert (Hsame : od_get k ((k, v) :: nd) = Some v).
    { rewrite od_get_cons, String.eqb_refl. reflexivity. }
    destruct (od_get k sd) as [old|] eqn:Eold.
    + destruct (vadd old v) as [new|e] eqn:Eadd; simpl.
      * specialize (Hstep new).
        destruct (Node.merge_data (od_set k new sd) nd) as [d'|e].
        -- destruct Hstep as [Hk' Hrest]. intros t.
           destruct (string_dec t k) as [->|Hne].
           ++ rewrite Eold, Hsame, Hk'. simpl. rewrite Eadd. reflexivity.
           ++ rewrite (Hother t Hne). apply Hrest, Hne.
        -- destruct Hstep as (t & Hne & Ht). exists t.
           rewrite (Hother t Hne). exact Ht.
      * exists k. rewrite Eold, Hsame. simpl. rewrite Eadd. reflexivity.
    + specialize (Hstep v).
      destruct (Node.merge_data (od_set k v sd) nd) as [d'|e].
      * destruct Hstep as [Hk' Hrest]. intros t.
        destruct (string_dec t k) as [->|Hne].
        -- rewrite Eold, Hsame, Hk'. reflexivity.
        -- rewrite (Hother t Hne). apply Hrest, Hne.
      * destruct Hstep as (t & Hne & Ht). exists t.
        rewrite (Hother t Hne). exact Ht.
Qed.

(** *** merge *)

Lemma first_labelled_insert l l' scs i sc sc' :
  Node.first_labelled l scs = Some (i, sc) ->
  Node.label sc' = Node.label sc ->
  Node.first_labelled l' (<[i := sc']> scs) =
  if label_eqb l l' then Some (i, sc') else Node.first_labelled l' scs.
Proof.
  intros Hf Hl. revert i Hf.
  induction scs as [|x scs IH]; intros i; simpl; [discriminate|].
  destruct (label_eqb (Node.label x) l) eqn:E.
  - intros [= <- <-]. simpl. rewrite Hl. apply label_eqb_eq in E. rewrite E.
    destruct (label_eqb l l'); reflexivity.
  - destruct (Node.first_labelled l scs) as [[i' c]|]; [|discriminate].
    intros [= <- <-]. simpl. rewrite (IH i' eq_refl).
    destruct (label_eqb (Node.label x) l') eqn:E'.
    + destruct (label_eqb l l') eqn:E''; [|reflexivity].
      apply label_eqb_eq in E', E''. subst.
      rewrite label_eqb_refl in E. discriminate.
    + destruct (label_eqb l l'); reflexivity.
Qed.

Lemma first_labelled_app l scs sc' :
  Node.first_labelled l (scs ++ [sc'])%list =
  match Node.first_labelled l scs with
  | Some r => Some r
  | None =>
      if label_eqb (Node.label sc') l then Some (length scs, sc') else None
  end.
Proof.
  induction scs as [|x scs IH]; simpl.
  - destruct (label_eqb (Node.label sc') l); reflexivity.
  - destruct (label_eqb (Node.label x) l); [reflexivity|].
    rewrite IH. destruct (Node.first_labelled l scs) as [[i c]|]; [reflexivity|].
    destruct (label_eqb (Node.label sc') l); reflexivity.
Qed.

(** [merge] keeps the label of [self]: the label of the other tree is not
    read. *)
Lemma merge_label a b a' : Node.merge a b = Ok a' -> Node.label a' = Node.label a.
Proof.
  rewrite merge_unfold.
  destruct (Node.merge_data _ _); simpl; [|discriminate].
  destruct (merge_children _ _); simpl; [|discriminate].
  intros [= <-]. reflexivity.
Qed.

Lemma merge_ignores_label a l d cs l' :
  Node.merge a (Node.mk l d cs) = Node.merge a (Node.mk l' d cs).
Proof. rewrite !merge_unfold. reflexivity. Qed.

Lemma first_labelled_head c cs :
  Node.first_labelled (Node.label c) (c :: cs) = Some (O, c).
Proof. simpl. rewrite label_eqb_refl. reflexivity. Qed.

Lemma first_labelled_tail l c cs :
  Node.label c <> l ->
  Node.first_labelled l (c :: cs) =
  match Node.first_labelled l cs with
  | Some (i, x) => Some (S i, x)
  | None => None
  end.
Proof.
  intros H. simpl. apply label_eqb_neq in H. rewrite H. reflexivity.
Qed.

(** The second loop of [merge]: a child of the other tree is merged into
    the child of [self] with its label, or into a new node; the other
    children of [self] stay. *)
Lemma merge_children_spec ncs :
  NoDup (map Node.label ncs) ->
  forall scs,
    match merge_children ncs scs with
    | Ok scs' =>
        forall l,
          match Node.first_labelled l ncs with
          | Some (_, cb) =>
              exists sc', labelled l scs' = Some sc'
                /\ Node.merge (target_in l scs) cb = Ok sc'
          | None => labelled l scs' = labelled l scs
          end
    | Raise e =>
        exists l j cb, Node.first_labelled l ncs = Some (j, cb)
          /\ Node.merge (target_in l scs) cb = Raise e
    end.
Proof.
  induction ncs as [|c ncs IH]; intros Hnd scs.
  - simpl. reflexivity.
  - simpl map in Hnd. apply NoDup_cons in Hnd as [Hc Hnd].
    assert (Hfresh : Node.first_labelled (Node.label c) ncs = None).
    { apply first_labelled_None. intros c' Hc' E. apply Hc.
      rewrite <- E. apply list_elem_of_In, in_map, Hc'. }
    cbn [merge_children].
    assert (Hstep : exists scs1,
      forall sc',
        Node.merge (target_in (Node.label c) scs) c = Ok sc' ->
        (match Node.first_labelled (Node.label c) scs with
         | Some (i, sc) => <[i := sc']> scs
         | None => (scs ++ [sc'])%list
         end) = scs1 sc'
        /\ labelled (Node.label c) (scs1 sc') = Some sc'
        /\ forall l, l <> Node.label c ->
             Node.first_labelled l (scs1 sc') = Node.first_labelled l scs).
    { exists (fun sc' =>
        match Node.first_labelled (Node.label c) scs with
        | Some (i, sc) => <[i := sc']> scs
        | None => (scs ++ [sc'])%list
        end).
      intros sc' Hm. split; [reflexivity|].
      pose proof (merge_label _ _ _ Hm) as Hl. unfold target_in in Hl.
      unfold labelled.
      destruct (Node.first_labelled (Node.label c) scs) as [[i sc]|] eqn:Ef.
      - split.
        + rewrite (first_labelled_insert _ _ _ _ _ _ Ef Hl), label_eqb_refl.
          reflexivity.
        + intros l Hne. rewrite (first_labelled_insert _ _ _ _ _ _ Ef Hl).
          destruct (label_eqb (Node.label c) l) eqn:E; [|reflexivity].
          apply label_eqb_eq in E. congruence.
      - simpl in Hl. split.
        + rewrite first_labelled_app, Ef, Hl, label_eqb_refl. reflexivity.
        + intros l Hne. rewrite first_labelled_app, Hl.
          destruct (Node.first_labelled l scs) as [[i x]|]; [reflexivity|].
          destruct (label_eqb (Node.label c) l) eqn:E; [|reflexivity].
          apply label_eqb_eq in E. congruence. }
    destruct Hstep as [scs1 Hstep].
    assert (Hm : Node.merge (target_in (Node.label c) scs) c
                 = match Node.first_labelled (Node.label c) scs with
                   | Some (_, sc) => Node.merge sc c
                   | None => Node.merge (Node.__init__ (Node.label c) []) c
                   end).
    { unfold target_in.
      destruct (Node.first_labelled (Node.label c) scs) as [[i sc]|]; reflexivity. }
    destruct (Node.merge (target_in (Node.label c) scs) c) as [sc'|e] eqn:Em.
    + destruct (Hstep sc' eq_refl) as (E1 & Hlab & Hoth).
      assert (Eloop :
        match Node.first_labelled (Node.label c) scs with
        | Some (i, sc) =>
            let* sc' := Node.merge sc c in
            merge_children ncs (<[i := sc']> scs)
        | None =>
            let* sc' := Node.merge (Node.__init__ (Node.label c) []) c in
            merge_children ncs (scs ++ [sc'])%list
        end = merge_children ncs (scs1 sc')).
      { rewrite <- E1.
        destruct (Node.first_labelled (Node.label c) scs) as [[i sc]|];
          rewrite <- Hm; reflexivity. }
      rewrite Eloop. specialize (IH Hnd (scs1 sc')).
      destruct (merge_children ncs (scs1 sc')) as [scs'|e].
      * intros l. destruct (label_eqb (Node.label c) l) eqn:E.
        -- apply label_eqb_eq in E. subst l. rewrite first_labelled_head.
           exists sc'. split; [|exact Em].
           specialize (IH (Node.label c)). rewrite Hfresh in IH.
           rewrite IH. exact Hlab.
        -- apply label_eqb_neq in E. rewrite (first_labelled_tail l c ncs E).
           specialize (IH l).
           assert (Et : target_in l (scs1 sc') = target_in l scs).
           { unfold target_in. rewrite Hoth by congruence. reflexivity. }
           assert (El : labelled l (scs1 sc') = labelled l scs).
           { unfold labelled. rewrite Hoth by congruence. reflexivity. }
           destruct (Node.first_labelled l ncs) as [[j cb]|].
           ++ rewrite Et in IH. exact IH.
           ++ rewrite IH. exact El.
      * destruct IH as (l & j & cb & Hf & Hr).
        assert (Hne : Node.label c <> l).
        { intros <-. rewrite Hfresh in Hf. discriminate. }
        exists l, (S j), cb. rewrite (first_labelled_tail l c ncs Hne), Hf.
        split; [reflexivity|].
        assert (Et : target_in l (scs1 sc') = target_in l scs).
        { unfold target_in. rewrite Hoth by congruence. reflexivity. }
        rewrite <- Et. exact Hr.
    + assert (Eloop :
        match Node.first_labelled (Node.label c) scs with
        | Some (i, sc) =>
            let* sc' := Node.merge sc c in
            merge_children ncs (<[i := sc']> scs)
        | None =>
            let* sc' := Node.merge (Node.__init__ (Node.label c) []) c in
            merge_children ncs (scs ++ [sc'])%list
        end = Raise e).
      { destruct (Node.first_labelled (Node.label c) scs) as [[i sc]|];
          rewrite <- Hm; reflexivity. }
      rewrite Eloop. exists (Node.label c), O, c.
      split; [apply first_labelled_head|exact Em].
Qed.

Lemma tag_at_cons l p t n :
  tag_at (l :: p) t n =
  match labelled l (Node.children n) with
  | Some c => tag_at p t c
  | None => None
  end.
Proof.
  unfold tag_at, labelled. simpl.
  destruct (Node.first_labelled l (Node.children n)) as [[i c]|]; reflexivity.
Qed.

Lemma tag_at_empty p t l : tag_at p t (Node.__init__ l []) = None.
Proof. destruct p; reflexivity. Qed.

Lemma tag_at_target l p t a :
  tag_at p t (target_in l (Node.children a)) = tag_at (l :: p) t a.
Proof.
  rewrite tag_at_cons. unfold target_in, labelled.
  destruct (Node.first_labelled l (Node.children a)) as [[i c]|];
    [reflexivity|apply tag_at_empty].
Qed.

Lemma first_labelled_NoDup c cs :
  NoDup (map Node.label cs) -> In c cs ->
  exists j, Node.first_labelled (Node.label c) cs = Some (j, c).
Proof.
  induction cs as [|x cs IH]; simpl; [tauto|].
  intros Hnd [->|Hin].
  - rewrite label_eqb_refl. eauto.
  - apply NoDup_cons in Hnd as [Hx Hnd].
    destruct (label_eqb (Node.label x) (Node.label c)) eqn:E.
    + apply label_eqb_eq in E. destruct Hx. rewrite E.
      apply list_elem_of_In, in_map, Hin.
    + destruct (IH Hnd Hin) as [j Hj]. rewrite Hj. eauto.
Qed.

(** [merge] adds the entries at every position, or raises what one of the
    additions raises. *)
Lemma merge_spec b : wf b -> forall a, merge_outcome a b (Node.merge a b).
Proof.
  induction b as [lb db cbs IH] using node_ind. intros Hwf a.
  inversion Hwf as [l d cs Hd Hnd Hcs]; subst l d cs.
  rewrite merge_unfold. simpl Node.data. simpl Node.children.
  pose proof (merge_data_spec db Hd (Node.data a)) as Hdata.
  destruct (Node.merge_data (Node.data a) db) as [d'|e]; simpl.
  2:{ destruct Hdata as [t Ht]. exists [], t. exact Ht. }
  pose proof (merge_children_spec cbs Hnd (Node.children a)) as Hch.
  set (b := Node.mk lb db cbs).
  assert (Hb : forall l j cb,
             Node.first_labelled l cbs = Some (j, cb) ->
             forall p tag, tag_at (l :: p) tag b = tag_at p tag cb).
  { intros l j cb Hf p tag. rewrite tag_at_cons. unfold labelled.
    simpl. rewrite Hf. reflexivity. }
  assert (Hchild : forall l j cb,
             Node.first_labelled l cbs = Some (j, cb) ->
             merge_outcome (target_in l (Node.children a)) cb
               (Node.merge (target_in l (Node.children a)) cb)).
  { intros l j cb Hf. pose proof (first_labelled_In _ _ _ _ Hf) as Hin.
    rewrite List.Forall_forall in IH, Hcs. apply IH; auto. }
  destruct (merge_children cbs (Node.children a)) as [cs'|e]; simpl.
  - split; [reflexivity|]. intros [|l p] tag.
    + unfold tag_at. simpl. apply Hdata.
    + rewrite (tag_at_cons l p tag (Node.mk _ _ _)). simpl Node.children.
      specialize (Hch l).
      destruct (Node.first_labelled l cbs) as [[j cb]|] eqn:Ef.
      * destruct Hch as (sc' & Hl & Hm). rewrite Hl.
        pose proof (Hchild l j cb Ef) as Ho. rewrite Hm in Ho.
        destruct Ho as [_ Ho]. specialize (Ho p tag).
        rewrite tag_at_target in Ho.
        rewrite (Hb l j cb Ef p tag). exact Ho.
      * rewrite Hch. rewrite <- (tag_at_cons l p tag a).
        assert (Enone : tag_at (l :: p) tag b = None).
        { rewrite tag_at_cons. unfold labelled. simpl. rewrite Ef. reflexivity. }
        rewrite Enone. apply opt_vadd_none_r.
  - destruct Hch as (l & j & cb & Hf & Hm).
    pose proof (Hchild l j cb Hf) as Ho. rewrite Hm in Ho.
    destruct Ho as (p & tag & Ho). exists (l :: p), tag.
    rewrite tag_at_target in Ho.
    rewrite (Hb l j cb Hf p tag). exact Ho.
Qed.

(** Two trees are compatible when, and only when, [merge] returns. *)
Lemma merge_ok_compatible a b a' :
  wf b -> Node.merge a b = Ok a' -> compatible a b.
Proof.
  intros Hwf Hm p tag. pose proof (merge_spec b Hwf a) as H.
  rewrite Hm in H. destruct H as [_ H]. rewrite H. reflexivity.
Qed.

Lemma merge_compatible_ok a b :
  wf b -> compatible a b -> exists a', Node.merge a b = Ok a'.
Proof.
  intros Hwf Hc. pose proof (merge_spec b Hwf a) as H.
  destruct (Node.merge a b) as [a'|e]; [eauto|].
  destruct H as (p & tag & H). specialize (Hc p tag). rewrite H in Hc.
  discriminate.
Qed.

(** C4.  Let [b] be a tree as [child] builds it (distinct keys in a
    node's data, distinct labels among siblings) and [a] a tree that shares
    no node with [b] and whose values can be added to those of [b].  Then [a.merge(b)] returns, and
    for [a'], the tree [a] afterwards: the label is the one of [a], and
    the label of the root of [b] plays no part; at every position, named
    by the path of labels from the root, and every tag, the entry of [a']
    is the sum of the entries of [a] and [b] before, an entry that is
    absent counting as nothing (as 0 in the total); and every child of [b]
    is merged into the first child of [a] with its label, or into a new
    node with its label when [a] has none, while the other children of
    [a] stay as they are. *)
Theorem merge_adds_tags (a b : Node.t) :
  wf b -> compatible a b ->
  exists a',
    Node.merge a b = Ok a'
    /\ Node.label a' = Node.label a
    /\ (forall l, Node.merge a (Node.mk l (Node.data b) (Node.children b)) = Ok a')
    /\ (forall p tag,
          opt_vadd (tag_at p tag a) (tag_at p tag b) = Ok (tag_at p tag a'))
    /\ (forall p tag,
          total_opt (tag_at p tag a')
          = (total_opt (tag_at p tag a) + total_opt (tag_at p tag b))%Qc)
    /\ (forall cb, In cb (Node.children b) ->
          exists ca', labelled (Node.label cb) (Node.children a') = Some ca'
            /\ Node.merge (merge_target a cb) cb = Ok ca')
    /\ (forall l, (forall cb, In cb (Node.children b) -> Node.label cb <> l) ->
          labelled l (Node.children a') = labelled l (Node.children a)).
Proof.
  intros Hwf Hc. destruct (merge_compatible_ok a b Hwf Hc) as [a' Hm].
  exists a'. split; [exact Hm|].
  pose proof (merge_spec b Hwf a) as H. rewrite Hm in H. destruct H as [Hl Ht].
  split; [exact Hl|].
  split.
  { intros l. rewrite <- Hm, !merge_unfold. reflexivity. }
  split; [exact Ht|].
  split; [intros p tag; apply opt_vadd_total, Ht|].
  inversion Hwf as [lb db cbs Hd Hnd Hcs Eb]. subst b. simpl Node.children.
  rewrite merge_unfold in Hm. simpl in Hm.
  destruct (Node.merge_data (Node.data a) db) as [d'|e]; simpl in Hm;
    [|discriminate].
  pose proof (merge_children_spec cbs Hnd (Node.children a)) as Hch.
  destruct (merge_children cbs (Node.children a)) as [cs'|e]; simpl in Hm;
    [|discriminate].
  injection Hm as <-. simpl Node.children. split.
  - intros cb Hin. destruct (first_labelled_NoDup cb cbs Hnd Hin) as [j Hj].
    specialize (Hch (Node.label cb)). rewrite Hj in Hch. exact Hch.
  - intros l Hl'. specialize (Hch l).
    rewrite (proj2 (first_labelled_None l cbs) Hl') in Hch. exact Hch.
Qed.

Lemma wf_merge_b : wf merge_b.
Proof.
  assert (Hnil : forall A, NoDup (@nil A)) by (intros; constructor).
  repeat (constructor;
          rewrite ?list_elem_of_In; simpl; try (intuition discriminate)).
Qed.

(** C4 at the tree of the doctests and [merge_b]. *)
Lemma merge_adds_tags_witness :
  exists a',
    Node.merge doc_root merge_b = Ok a'
    /\ Node.label a' = Node.label doc_root
    /\ (forall l, Node.merge doc_root
                    (Node.mk l (Node.data merge_b) (Node.children merge_b)) = Ok a')
    /\ (forall p tag,
          opt_vadd (tag_at p tag doc_root) (tag_at p tag merge_b)
          = Ok (tag_at p tag a'))
    /\ (forall p tag,
          total_opt (tag_at p tag a')
          = (total_opt (tag_at p tag doc_root)
             + total_opt (tag_at p tag merge_b))%Qc)
    /\ (forall cb, In cb (Node.children merge_b) ->
          exists ca', labelled (Node.label cb) (Node.children a') = Some ca'
            /\ Node.merge (merge_target doc_root cb) cb = Ok ca')
    /\ (forall l, (forall cb, In cb (Node.children merge_b) -> Node.label cb <> l) ->
          labelled l (Node.children a') = labelled l (Node.children doc_root)).
Proof.
  apply (merge_adds_tags doc_root merge_b).
  - exact wf_merge_b.
  - destruct (Node.merge doc_root merge_b) as [a'|e] eqn:E.
    + exact (merge_ok_compatible doc_root merge_b a' wf_merge_b E).
    + vm_compute in E. discriminate.
Defined.

(** ** BKZTreeTracer.reenter *)

Lemma val_py_min_comm a b : val (py_min a b) = val (py_min b a).
Proof.
  apply Qcle_antisym.
  - destruct (py_min_cases b a) as [E|E]; rewrite E;
      [apply py_min_le_r|apply py_min_le_l].
  - destruct (py_min_cases a b) as [E|E]; rewrite E;
      [apply py_min_le_r|apply py_min_le_l].
Qed.

Lemma val_py_max_comm a b : val (py_max a b) = val (py_max b a).
Proof.
  apply Qcle_antisym.
  - destruct (py_max_cases a b) as [E|E]; rewrite E;
      [apply py_max_ge_r|apply py_max_ge_l].
  - destruct (py_max_cases b a) as [E|E]; rewrite E;
      [apply py_max_ge_r|apply py_max_ge_l].
Qed.

Lemma stat_eqv_refl s : stat_eqv s s.
Proof. repeat split. Qed.

(** One accumulator in [reenter]: what [node.data.get(tag, 0) +
    Statistic(-clock, repr="sum", count=False)] is. *)
Lemma restart_accumulator (old : option value) (clock : num) :
  accumulator old ->
  exists s r,
    vadd (match old with Some v => v | None => VNum (PInt 0) end)
         (VStat (restart clock)) = Ok (VStat s)
    /\ Statistic.__add__ (acc_or_zero old) (VStat (restart clock)) = Ok r
    /\ stat_eqv s r
    /\ Statistic._ctr s = Statistic._ctr (acc_or_zero old)
    /\ Statistic._repr s = "sum".
Proof.
  intros Hacc. destruct old as [[|x|s]|]; simpl in Hacc; try tauto.
  - (* a Statistic of mode "sum": the code combines the two *)
    simpl. rewrite Hacc. simpl. eexists _, _.
    split; [reflexivity|]. split; [reflexivity|].
    split; [apply stat_eqv_refl|]. simpl. split; [lia|reflexivity].
  - (* absent: the code inserts 0 into the new Statistic *)
    simpl. eexists _, _. split; [reflexivity|]. split; [reflexivity|].
    split; [|split; reflexivity].
    unfold stat_eqv, Statistic.add, restart, Statistic.__init__,
      Statistic.min, Statistic.max. simpl.
    split; [apply val_py_min_comm|]. split; [apply val_py_max_comm|].
    split; [apply num_add_comm|]. split; [apply num_add_comm|].
    split; reflexivity.
Qed.

Lemma reenter_data_spec cpu wall d :
  accumulator (od_get "cputime" d) -> accumulator (od_get "walltime" d) ->
  exists d' sc sw rc rw,
    BKZTreeTracer.reenter_data cpu wall d = Ok d'
    /\ od_get "cputime" d' = Some (VStat sc)
    /\ od_get "walltime" d' = Some (VStat sw)
    /\ (forall t, t <> "cputime" -> t <> "walltime" -> od_get t d' = od_get t d)
    /\ Statistic.__add__ (acc_or_zero (od_get "cputime" d)) (VStat (restart cpu))
       = Ok rc
    /\ stat_eqv sc rc
    /\ Statistic.__add__ (acc_or_zero (od_get "walltime" d)) (VStat (restart wall))
       = Ok rw
    /\ stat_eqv sw rw
    /\ Statistic._ctr sc = Statistic._ctr (acc_or_zero (od_get "cputime" d))
    /\ Statistic._ctr sw = Statistic._ctr (acc_or_zero (od_get "walltime" d))
    /\ accumulator (od_get "cputime" d') /\ accumulator (od_get "walltime" d').
Proof.
  intros Hc Hw.
  destruct (restart_accumulator _ cpu Hc) as (sc & rc & Ec & Erc & Vc & Cc & Rc).
  destruct (restart_accumulator _ wall Hw) as (sw & rw & Ew & Erw & Vw & Cw & Rw).
  exists (od_set "walltime" (VStat sw) (od_set "cputime" (VStat sc) d)),
    sc, sw, rc, rw.
  assert (Hne : "cputime" <> "walltime") by discriminate.
  assert (Hne' : "walltime" <> "cputime") by discriminate.
  assert (G1 : od_get "cputime"
                 (od_set "walltime" (VStat sw) (od_set "cputime" (VStat sc) d))
               = Some (VStat sc)).
  { rewrite od_get_set_ne by exact Hne'. apply od_get_set_eq. }
  assert (G2 : od_get "walltime"
                 (od_set "walltime" (VStat sw) (od_set "cputime" (VStat sc) d))
               = Some (VStat sw)) by apply od_get_set_eq.
  split.
  { unfold BKZTreeTracer.reenter_data, od_get_default.
    fold (restart cpu). fold (restart wall). rewrite Ec. simpl.
    rewrite (od_get_set_ne "cputime" "walltime") by exact Hne.
    rewrite Ew. reflexivity. }
  split; [exact G1|]. split; [exact G2|].
  split.
  { intros t H1 H2. rewrite !od_get_set_ne by congruence. reflexivity. }
  split; [exact Erc|]. split; [exact Vc|].
  split; [exact Erw|]. split; [exact Vw|].
  split; [exact Cc|]. split; [exact Cw|].
  rewrite G1, G2. simpl. auto.
Qed.

Lemma reenter_at cpu wall self c :
  BKZTreeTracer.current self = BKZTreeTracer.At c ->
  BKZTreeTracer.reenter cpu wall self =
  let* d := BKZTreeTracer.reenter_data cpu wall (current_data self) in
  Ok {| BKZTreeTracer.current := BKZTreeTracer.At (Cursor.set_data d c);
        BKZTreeTracer.verbosity := BKZTreeTracer.verbosity self |}.
Proof.
  intros H. unfold BKZTreeTracer.reenter, current_data. rewrite H. reflexivity.
Qed.

(** Restarts of a phase whose accumulators are Statistics of mode "sum"
    leave the observation counts as they are. *)
Lemma reenters_keep_count clocks :
  forall self c sc sw,
    BKZTreeTracer.current self = BKZTreeTracer.At c ->
    od_get "cputime" (current_data self) = Some (VStat sc) ->
    od_get "walltime" (current_data self) = Some (VStat sw) ->
    Statistic._repr sc = "sum" -> Statistic._repr sw = "sum" ->
    exists self',
      reenters clocks self = Ok self'
      /\ count_of (od_get "cputime" (current_data self'))
         = Some (Statistic._ctr sc)
      /\ count_of (od_get "walltime" (current_data self'))
         = Some (Statistic._ctr sw).
Proof.
  induction clocks as [|[cpu wall] clocks IH]; intros self c sc sw Hc Gc Gw Rc Rw.
  - exists self. simpl. rewrite Gc, Gw. auto.
  - simpl. rewrite (reenter_at cpu wall self c Hc).
    destruct (reenter_data_spec cpu wall (current_data self))
      as (d' & sc' & sw' & rc & rw & Ed & Gc' & Gw' & _ & _ & _ & _ & _
          & Cc & Cw & Ac & Aw).
    { rewrite Gc. exact Rc. }
    { rewrite Gw. exact Rw. }
    rewrite Ed. simpl. rewrite Gc' in Ac. rewrite Gw' in Aw. simpl in Ac, Aw.
    rewrite Gc in Cc. rewrite Gw in Cw. simpl in Cc, Cw.
    destruct (IH {| BKZTreeTracer.current := BKZTreeTracer.At (Cursor.set_data d' c);
                    BKZTreeTracer.verbosity := BKZTreeTracer.verbosity self |}
                 (Cursor.set_data d' c) sc' sw' eq_refl Gc' Gw' Ac Aw)
      as (self' & E & H1 & H2).
    exists self'. split; [exact E|]. rewrite H1, H2, Cc, Cw. auto.
Qed.

(** [reenter] at a node whose accumulators are absent or Statistics of
    mode "sum". *)
Lemma reenter_on_accumulators (self : BKZTreeTracer.t) (c : Cursor.t)
    (cpu wall : num) :
  BKZTreeTracer.current self = BKZTreeTracer.At c ->
  accumulator (od_get "cputime" (current_data self)) ->
  accumulator (od_get "walltime" (current_data self)) ->
  exists self' sc sw rc rw,
    BKZTreeTracer.reenter cpu wall self = Ok self'
    /\ BKZTreeTracer.current self'
       = BKZTreeTracer.At (Cursor.set_data (current_data self') c)
    /\ BKZTreeTracer.verbosity self' = BKZTreeTracer.verbosity self
    /\ od_get "cputime" (current_data self') = Some (VStat sc)
    /\ od_get "walltime" (current_data self') = Some (VStat sw)
    /\ (forall t, t <> "cputime" -> t <> "walltime" ->
          od_get t (current_data self') = od_get t (current_data self))
    /\ Statistic.__add__ (acc_or_zero (od_get "cputime" (current_data self)))
         (VStat (restart cpu)) = Ok rc
    /\ stat_eqv sc rc
    /\ Statistic.__add__ (acc_or_zero (od_get "walltime" (current_data self)))
         (VStat (restart wall)) = Ok rw
    /\ stat_eqv sw rw
    /\ Statistic._ctr sc
       = Statistic._ctr (acc_or_zero (od_get "cputime" (current_data self)))
    /\ Statistic._ctr sw
       = Statistic._ctr (acc_or_zero (od_get "walltime" (current_data self)))
    /\ (forall clocks, exists self'',
          reenters clocks self' = Ok self''
          /\ count_of (od_get "cputime" (current_data self''))
             = Some (Statistic._ctr sc)
          /\ count_of (od_get "walltime" (current_data self''))
             = Some (Statistic._ctr sw)).
Proof.
  intros Hc Ac Aw.
  destruct (reenter_data_spec cpu wall (current_data self) Ac Aw)
    as (d' & sc & sw & rc & rw & Ed & Gc & Gw & Hoth & Erc & Vc & Erw & Vw
        & Cc & Cw & Ac' & Aw').
  exists {| BKZTreeTracer.current := BKZTreeTracer.At (Cursor.set_data d' c);
            BKZTreeTracer.verbosity := BKZTreeTracer.verbosity self |},
    sc, sw, rc, rw.
  split; [rewrite (reenter_at cpu wall self c Hc), Ed; reflexivity|].
  split; [reflexivity|]. split; [reflexivity|].
  change (current_data
            {| BKZTreeTracer.current := BKZTreeTracer.At (Cursor.set_data d' c);
               BKZTreeTracer.verbosity := BKZTreeTracer.verbosity self |})
    with d'.
  split; [exact Gc|]. split; [exact Gw|]. split; [exact Hoth|].
  split; [exact Erc|]. split; [exact Vc|].
  split; [exact Erw|]. split; [exact Vw|].
  split; [exact Cc|]. split; [exact Cw|].
  intros clocks. rewrite Gc in Ac'. rewrite Gw in Aw'. simpl in Ac', Aw'.
  apply (reenters_keep_count clocks
           {| BKZTreeTracer.current := BKZTreeTracer.At (Cursor.set_data d' c);
              BKZTreeTracer.verbosity := BKZTreeTracer.verbosity self |}
           (Cursor.set_data d' c) sc sw eq_refl Gc Gw Ac' Aw').
Qed.

(** The first restart leaves the count 1, and the accumulator holds minus
    the clock. *)
Lemma reenter_first_restart :
  exists self',
    BKZTreeTracer.reenter (PInt 7) (PInt 2) tracer_new = Ok self'
    /\ od_get "cputime" (current_data self')
       = Some (VStat (Statistic.mk (PInt (-7)) (PInt 0) (PInt (-7)) (PInt 49)
                        1 "sum")).
Proof. eexists. split; reflexivity. Qed.

(** What [exit] does to the accumulators keeps them Statistics of mode
    "sum", and counts the interval. *)
Lemma exit_clocks_accumulators cpu wall d sc sw :
  od_get "cputime" d = Some (VStat sc) ->
  od_get "walltime" d = Some (VStat sw) ->
  exists d',
    BKZTreeTracer.exit_clocks cpu wall d = Ok d'
    /\ od_get "cputime" d' = Some (VStat (Statistic.add sc cpu))
    /\ od_get "walltime" d' = Some (VStat (Statistic.add sw wall))
    /\ (accumulator (od_get "cputime" d) -> accumulator (od_get "cputime" d'))
    /\ (accumulator (od_get "walltime" d) -> accumulator (od_get "walltime" d')).
Proof.
  intros Gc Gw.
  assert (Hne : "cputime" <> "walltime") by discriminate.
  assert (Hne' : "walltime" <> "cputime") by discriminate.
  exists (od_set "walltime" (VStat (Statistic.add sw wall))
            (od_set "cputime" (VStat (Statistic.add sc cpu)) d)).
  assert (G1 : od_get "cputime"
                 (od_set "walltime" (VStat (Statistic.add sw wall))
                    (od_set "cputime" (VStat (Statistic.add sc cpu)) d))
               = Some (VStat (Statistic.add sc cpu))).
  { rewrite od_get_set_ne by exact Hne'. apply od_get_set_eq. }
  split.
  { unfold BKZTreeTracer.exit_clocks, od_getitem. rewrite Gc. simpl.
    rewrite (od_get_set_ne "cputime" "walltime") by exact Hne.
    rewrite Gw. reflexivity. }
  split; [exact G1|]. split; [apply od_get_set_eq|].
  rewrite G1, od_get_set_eq, Gc, Gw. simpl. auto.
Qed.

(** ** What fails and what does not *)


(** [self + other] raises only [ValueError], and only on a Statistic of
    another mode. *)
Lemma plus_raises_only_mismatch s other e :
  Statistic.__add__ s other = Raise e ->
  e = ValueError
  /\ exists o, other = VStat o /\ Statistic._repr s <> Statistic._repr o.
Proof.
  destruct other as [|x|o]; simpl; try discriminate.
  destruct (String.eqb (Statistic._repr s) (Statistic._repr o)) eqn:E; simpl;
    [discriminate|].
  intros [= <-]. split; [reflexivity|]. exists o. split; [reflexivity|].
  apply String.eqb_neq, E.
Qed.


(** Scalarization in the five modes. *)
Lemma float_plain s :
  Statistic._repr s = "min" \/ Statistic._repr s = "max"
  \/ Statistic._repr s = "sum" ->
  exists x, Statistic.__float__ s = Ok x.
Proof.
  unfold Statistic.__float__, Statistic.__getattribute__.
  intros [E|[E|E]]; rewrite E; simpl; eauto.
Qed.

Lemma float_ratio s :
  Statistic._repr s = "avg" \/ Statistic._repr s = "variance" ->
  (Statistic._ctr s <> 0 -> exists x, Statistic.__float__ s = Ok x)
  /\ (Statistic._ctr s = 0 -> Statistic.__float__ s = Raise ZeroDivisionError).
Proof.
  intros Hr.
  assert (Hdiv : forall a,
    (Statistic._ctr s <> 0 -> exists q, num_div a (PInt (Statistic._ctr s)) = Ok q)
    /\ (Statistic._ctr s = 0 ->
        num_div a (PInt (Statistic._ctr s)) = Raise ZeroDivisionError)).
  { intros a. split.
    - intros Hc. destruct a as [z|q]; simpl.
      + destruct (Statistic._ctr s =? 0)%Z eqn:E;
          [apply Z.eqb_eq in E; tauto|].
        destruct future_division; eauto.
      + destruct (num_eqb (PInt (Statistic._ctr s)) (PInt 0)) eqn:E; [|eauto].
        apply num_eqb_eq in E. simpl in E. apply Z2Qc_inj in E. tauto.
    - intros ->. destruct a; reflexivity. }
  unfold Statistic.__float__, Statistic.__getattribute__, Statistic.variance,
    Statistic.avg.
  split.
  - intros Hc.
    destruct (proj1 (Hdiv (Statistic._sum s)) Hc) as [a Ha].
    destruct (proj1 (Hdiv (Statistic._sqr s)) Hc) as [q Hq].
    destruct Hr as [E|E]; rewrite E; simpl; rewrite ?Hq, ?Ha; simpl; eauto.
  - intros Hc.
    pose proof (proj2 (Hdiv (Statistic._sum s)) Hc) as Ha.
    pose proof (proj2 (Hdiv (Statistic._sqr s)) Hc) as Hq.
    destruct Hr as [E|E]; rewrite E; simpl; rewrite ?Hq, ?Ha; reflexivity.
Qed.

(** *** Rendering *)

Lemma fmt_exp_ok v : num_eqb v (PInt 0) = false -> exists t, fmt_exp v = Ok t.
Proof. intros H. unfold fmt_exp. rewrite H. eauto. Qed.

Lemma pretty_float_ok k v rb : exists t, pretty_float k v rb = Ok t.
Proof.
  unfold pretty_float.
  destruct (negb (num_ltb v (PInt 0)) && num_ltb v (PInt 10)) eqn:E1; [eauto|].
  destruct (num_ltb (PInt (-10)) v && num_ltb v (PInt 0)); [eauto|].
  destruct (num_ltb (num_abs v) rb); [eauto|].
  assert (Hnz : num_eqb v (PInt 0) = false).
  { destruct (num_eqb v (PInt 0)) eqn:E; [|reflexivity].
    apply num_eqb_eq in E.
    assert (H0 : num_ltb v (PInt 0) = false).
    { apply num_ltb_ge. rewrite E. apply Qcle_refl. }
    assert (H10 : num_ltb v (PInt 10) = true).
    { apply num_ltb_lt. rewrite E. simpl.
      apply (proj1 (Z2Qc_inj_lt 0 10)). lia. }
    rewrite H0, H10 in E1. discriminate. }
  destruct (fmt_exp_ok v Hnz) as [t Ht]. rewrite Ht. simpl. eauto.
Qed.

Lemma pretty_entry_ok kw rb kv :
  (val (PInt 0) <= val rb)%Qc -> printable (snd kv) ->
  exists t, pretty_entry kw rb kv = Ok t.
Proof.
  intros Hrb Hp. unfold pretty_entry.
  destruct (snd kv) as [|[z|q]|s]; simpl.
  - eauto.
  - destruct (num_ltb rb (PInt (Z.abs z))) eqn:E; [|eauto].
    assert (Hnz : num_eqb (PInt z) (PInt 0) = false).
    { destruct (num_eqb (PInt z) (PInt 0)) eqn:E0; [|reflexivity].
      apply num_eqb_eq in E0. simpl in E0. apply Z2Qc_inj in E0. subst z.
      apply num_ltb_lt in E. simpl in E.
      destruct (Qcle_not_lt _ _ Hrb E). }
    destruct (fmt_exp_ok _ Hnz) as [t Ht]. rewrite Ht. simpl. eauto.
  - apply pretty_float_ok.
  - simpl in Hp. destruct Hp as [x Hx]. rewrite Hx. apply pretty_float_ok.
Qed.

Lemma pretty_dict_ok kw rb d :
  (val (PInt 0) <= val rb)%Qc -> printable_data d ->
  exists t, pretty_dict d kw rb = Ok t.
Proof.
  intros Hrb Hd. unfold pretty_dict.
  assert (H : exists es, pretty_entries kw rb d = Ok es).
  { induction Hd as [|kv d Hkv _ IH]; simpl; [eauto|].
    destruct (pretty_entry_ok kw rb kv Hrb Hkv) as [e He].
    destruct IH as [es Hes]. rewrite He, Hes. simpl. eauto. }
  destruct H as [es Hes]. rewrite Hes. simpl. eauto.
Qed.

Lemma str_ok n :
  printable_data (Node.data n) -> exists t, NodeText.__str__ n = Ok t.
Proof.
  intros Hd. unfold NodeText.__str__.
  destruct (pretty_dict_ok None (PInt 9999) (Node.data n)) as [t Ht];
    [|exact Hd|].
  - simpl. apply (proj1 (Z2Qc_inj_le 0 9999)). lia.
  - rewrite Ht. simpl. eauto.
Qed.

Lemma report_unfold indentation depth n :
  NodeText.report indentation depth n =
  let* me := NodeText.__str__ n in
  let* rest :=
    if match depth with None => true | Some d => (0 <? d)%Z end
    then report_children indentation (Node.children n) depth
    else Ok [] in
  Ok (String.concat newline ((spaces (Z.to_nat indentation) ++ me) :: rest)).
Proof. destruct n as [l d cs]. reflexivity. Qed.




(** ** The states of a BKZTreeTracer *)

Lemma timed_inv n :
  timed n -> timed_data (Node.data n) /\ Forall timed (Node.children n).
Proof. intros H. inversion H. simpl. auto. Qed.

Lemma split_labelled_app l cs ls x rs :
  Cursor.split_labelled l cs = Some (ls, x, rs) -> cs = (ls ++ x :: rs)%list.
Proof.
  revert ls. induction cs as [|c cs IH]; intros ls; simpl; [discriminate|].
  destruct (label_eqb (Node.label c) l).
  - intros [= <- <- <-]. reflexivity.
  - destruct (Cursor.split_labelled l cs) as [[[ls' x'] rs']|]; [|discriminate].
    intros [= <- <- <-]. simpl. f_equal. apply IH. reflexivity.
Qed.

Lemma timed_data_nil : timed_data [].
Proof. split; exact I. Qed.

Lemma child_timed c l : timed_cursor c -> timed_cursor (Cursor.child c l).
Proof.
  intros [Hf Ha]. apply timed_inv in Hf as [Hd Hcs]. unfold Cursor.child.
  destruct (Cursor.split_labelled l (Node.children (Cursor.focus c)))
    as [[[ls x] rs]|] eqn:E.
  - apply split_labelled_app in E. rewrite E in Hcs.
    apply Forall_app in Hcs as [Hls Hx]. apply Forall_cons in Hx as [Hx Hrs].
    split; [exact Hx|]. constructor; [|exact Ha].
    split; [exact Hd|split; assumption].
  - split.
    + constructor; [apply timed_data_nil|constructor].
    + constructor; [|exact Ha].
      split; [exact Hd|split; [exact Hcs|constructor]].
Qed.

Lemma set_data_timed c d :
  timed_cursor c -> timed_data d -> timed_cursor (Cursor.set_data d c).
Proof.
  intros [Hf Ha] Hd. apply timed_inv in Hf as [_ Hcs].
  split; [constructor; assumption|exact Ha].
Qed.

Lemma parent_timed c :
  timed_cursor c ->
  match Cursor.parent c with
  | Some p => timed_cursor p
  | None => timed (Cursor.focus c)
  end.
Proof.
  intros [Hf Ha]. unfold Cursor.parent.
  destruct (Cursor.above c) as [|f fs]; [exact Hf|].
  apply Forall_cons in Ha as [(Hd & Hl & Hr) Hfs].
  split; [|exact Hfs]. simpl. constructor; [exact Hd|].
  apply Forall_app. split; [exact Hl|]. constructor; assumption.
Qed.

Lemma reenter_timed cpu wall self self' :
  timed_tracer self -> BKZTreeTracer.reenter cpu wall self = Ok self' ->
  timed_tracer self'.
Proof.
  unfold timed_tracer, BKZTreeTracer.reenter.
  destruct (BKZTreeTracer.current self) as [c|n]; [|discriminate].
  intros Hc. pose proof Hc as [Hf _]. apply timed_inv in Hf as [[Ac Aw] _].
  destruct (reenter_data_spec cpu wall _ Ac Aw)
    as (d' & sc & sw & rc & rw & Ed & _ & _ & _ & _ & _ & _ & _ & _ & _
        & Ac' & Aw').
  rewrite Ed. simpl. intros [= <-]. simpl.
  apply set_data_timed; [exact Hc|split; assumption].
Qed.

Lemma timed_data_set k v d :
  k <> "cputime" -> k <> "walltime" -> timed_data d -> timed_data (od_set k v d).
Proof.
  intros H1 H2 [Ac Aw]. split; rewrite od_get_set_ne by exact H1 || exact H2;
    assumption.
Qed.

Lemma exit_enumeration_timed env d d' :
  timed_data d -> BKZTreeTracer.exit_enumeration env d = Ok d' -> timed_data d'.
Proof.
  intros Hd. unfold BKZTreeTracer.exit_enumeration.
  destruct (BKZTreeTracer.e_full env); [|intros [= <-]; exact Hd].
  destruct (BKZTreeTracer.e_enum_nodes env) as [n|]; [|discriminate].
  destruct (Statistic.__add__ _ _) as [e|]; simpl; [|discriminate].
  assert (H1 : timed_data (od_set "#enum" (VStat e) d)).
  { apply timed_data_set; [discriminate|discriminate|exact Hd]. }
  destruct (BKZTreeTracer.e_probability env) as [p|]; [|intros [= <-]; exact H1].
  destruct (Statistic.__add__ _ _) as [q|]; simpl; [|discriminate].
  intros [= <-]. apply timed_data_set; [discriminate|discriminate|exact H1].
Qed.

Lemma exit_tour_timed env d :
  timed_data d -> timed_data (BKZTreeTracer.exit_tour env d).
Proof.
  intros Hd. unfold BKZTreeTracer.exit_tour.
  repeat (apply timed_data_set; [discriminate|discriminate|]). exact Hd.
Qed.

Lemma exit_clocks_timed cpu wall d d' :
  timed_data d -> BKZTreeTracer.exit_clocks cpu wall d = Ok d' -> timed_data d'.
Proof.
  intros [Ac Aw] H.
  destruct (od_get "cputime" d) as [[|x|sc]|] eqn:Gc; simpl in Ac; try tauto;
    [|unfold BKZTreeTracer.exit_clocks, od_getitem in H; rewrite Gc in H;
      discriminate].
  destruct (od_get "walltime" d) as [[|x|sw]|] eqn:Gw; simpl in Aw; try tauto.
  - destruct (exit_clocks_accumulators cpu wall d sc sw Gc Gw)
      as (d'' & E & G1 & G2 & _). rewrite E in H. injection H as <-.
    split; [rewrite G1|rewrite G2]; simpl; assumption.
  - unfold BKZTreeTracer.exit_clocks, od_getitem in H. rewrite Gc in H.
    simpl in H. rewrite od_get_set_ne in H by discriminate.
    rewrite Gw in H. discriminate.
Qed.

Lemma exit_timed env self self' :
  timed_tracer self -> BKZTreeTracer.exit env self = Ok self' ->
  timed_tracer self'.
Proof.
  unfold timed_tracer at 1, BKZTreeTracer.exit.
  destruct (BKZTreeTracer.current self) as [c|n]; [|discriminate].
  intros Hc. pose proof Hc as [Hf _]. apply timed_inv in Hf as [Hd _].
  destruct (BKZTreeTracer.exit_clocks _ _ _) as [d1|] eqn:E1; simpl;
    [|discriminate].
  pose proof (exit_clocks_timed _ _ _ _ Hd E1) as H1.
  assert (H2 : forall d2,
             (if label_eqb (Node.label (Cursor.focus c)) (LStr "enumeration")
              then BKZTreeTracer.exit_enumeration env d1 else Ok d1) = Ok d2 ->
             timed_data d2).
  { intros d2. destruct (label_eqb _ _).
    - apply exit_enumeration_timed, H1.
    - intros [= <-]. exact H1. }
  destruct (if label_eqb (Node.label (Cursor.focus c)) (LStr "enumeration")
            then BKZTreeTracer.exit_enumeration env d1 else Ok d1)
    as [d2|]; simpl; [|discriminate].
  specialize (H2 d2 eq_refl).
  destruct (BKZTreeTracer.label_first _) as [first|]; simpl; [|discriminate].
  set (d3 := if label_eqb first (LStr "tour")
             then BKZTreeTracer.exit_tour env d2 else d2).
  assert (H3 : timed_data d3).
  { unfold d3. destruct (label_eqb first (LStr "tour"));
      [apply exit_tour_timed|]; exact H2. }
  destruct (if negb (BKZTreeTracer.verbosity self =? 0)%Z
               && label_eqb first (LStr "tour")
            then match BKZTreeTracer.e_report env with
                 | Some e => Raise e
                 | None => Ok tt
                 end
            else Ok tt); simpl; [|discriminate].
  intros [= <-]. unfold timed_tracer. simpl.
  pose proof (parent_timed _ (set_data_timed c d3 Hc H3)) as Hp.
  destruct (Cursor.parent (Cursor.set_data d3 c)); exact Hp.
Qed.

(** In every state of a BKZTreeTracer, the time accumulators of every node
    are absent or Statistics of mode "sum". *)
Lemma reachable_timed self : reachable self -> timed_tracer self.
Proof.
  induction 1 as [verb l clocks self Hi|l cpu wall self self' _ IH He
                 |cpu wall self self' _ IH He|env self self' _ IH He].
  - unfold BKZTreeTracer.__init__ in Hi.
    assert (H0 : timed_tracer
              {| BKZTreeTracer.current :=
                   BKZTreeTracer.At {| Cursor.focus := Node.__init__ l [];
                                       Cursor.above := [] |};
                 BKZTreeTracer.verbosity := verb |}).
    { split; [constructor; [apply timed_data_nil|constructor]|constructor]. }
    destruct clocks as [[cpu wall]|].
    + exact (reenter_timed _ _ _ _ H0 Hi).
    + injection Hi as <-. exact H0.
  - unfold BKZTreeTracer.enter in He. unfold timed_tracer in IH.
    destruct (BKZTreeTracer.current self) as [c|n]; [|discriminate].
    refine (reenter_timed _ _ _ _ _ He). exact (child_timed c l IH).
  - exact (reenter_timed _ _ _ _ IH He).
  - exact (exit_timed _ _ _ IH He).
Qed.

(** C9.  In every state of a BKZTreeTracer that is at a node, [reenter]
    returns, having changed only the entries "cputime" and "walltime" of
    the node.  Each is now equal, as far as [==] on the fields tells, to
    the combination of the accumulator before, or of [Statistic(0, "sum")]
    when it was absent, with [Statistic(-clock, "sum", count=False)].  Its
    observation count is the count of the accumulator before, or the
    count 1 of [Statistic(0)] at the first restart, and any number of
    further restarts leaves the two counts unchanged. *)
Theorem reenter_restarts_clocks (self : BKZTreeTracer.t) (c : Cursor.t)
    (cpu wall : num) :
  reachable self ->
  BKZTreeTracer.current self = BKZTreeTracer.At c ->
  exists self' sc sw rc rw,
    BKZTreeTracer.reenter cpu wall self = Ok self'
    /\ BKZTreeTracer.current self'
       = BKZTreeTracer.At (Cursor.set_data (current_data self') c)
    /\ BKZTreeTracer.verbosity self' = BKZTreeTracer.verbosity self
    /\ od_get "cputime" (current_data self') = Some (VStat sc)
    /\ od_get "walltime" (current_data self') = Some (VStat sw)
    /\ (forall t, t <> "cputime" -> t <> "walltime" ->
          od_get t (current_data self') = od_get t (current_data self))
    /\ Statistic.__add__ (acc_or_zero (od_get "cputime" (current_data self)))
         (VStat (restart cpu)) = Ok rc
    /\ stat_eqv sc rc
    /\ Statistic.__add__ (acc_or_zero (od_get "walltime" (current_data self)))
         (VStat (restart wall)) = Ok rw
    /\ stat_eqv sw rw
    /\ Statistic._ctr sc
       = Statistic._ctr (acc_or_zero (od_get "cputime" (current_data self)))
    /\ Statistic._ctr sw
       = Statistic._ctr (acc_or_zero (od_get "walltime" (current_data self)))
    /\ (forall clocks, exists self'',
          reenters clocks self' = Ok self''
          /\ count_of (od_get "cputime" (current_data self''))
             = Some (Statistic._ctr sc)
          /\ count_of (od_get "walltime" (current_data self''))
             = Some (Statistic._ctr sw)).
Proof.
  intros Hr Hc. pose proof (reachable_timed self Hr) as Ht.
  unfold timed_tracer in Ht. rewrite Hc in Ht. destruct Ht as [Hf _].
  apply timed_inv in Hf as [[Ac Aw] _].
  apply (reenter_on_accumulators self c cpu wall Hc);
    unfold current_data; rewrite Hc; assumption.
Qed.

(** C9 at the first restart of a new tracer, with the clocks at 1.5 and
    at 2. *)
Lemma reenter_restarts_clocks_witness :
  exists self' sc sw rc rw,
    BKZTreeTracer.reenter (PFloat (Q2Qc (3 # 2))) (PInt 2) tracer_new = Ok self'
    /\ BKZTreeTracer.current self'
       = BKZTreeTracer.At
           (Cursor.set_data (current_data self')
              {| Cursor.focus := Node.__init__ (LStr "bkz") [];
                 Cursor.above := [] |})
    /\ BKZTreeTracer.verbosity self' = BKZTreeTracer.verbosity tracer_new
    /\ od_get "cputime" (current_data self') = Some (VStat sc)
    /\ od_get "walltime" (current_data self') = Some (VStat sw)
    /\ (forall t, t <> "cputime" -> t <> "walltime" ->
          od_get t (current_data self') = od_get t (current_data tracer_new))
    /\ Statistic.__add__ (acc_or_zero (od_get "cputime" (current_data tracer_new)))
         (VStat (restart (PFloat (Q2Qc (3 # 2))))) = Ok rc
    /\ stat_eqv sc rc
    /\ Statistic.__add__ (acc_or_zero (od_get "walltime" (current_data tracer_new)))
         (VStat (restart (PInt 2))) = Ok rw
    /\ stat_eqv sw rw
    /\ Statistic._ctr sc
       = Statistic._ctr (acc_or_zero (od_get "cputime" (current_data tracer_new)))
    /\ Statistic._ctr sw
       = Statistic._ctr (acc_or_zero (od_get "walltime" (current_data tracer_new)))
    /\ (forall clocks, exists self'',
          reenters clocks self' = Ok self''
          /\ count_of (od_get "cputime" (current_data self''))
             = Some (Statistic._ctr sc)
          /\ count_of (od_get "walltime" (current_data self''))
             = Some (Statistic._ctr sw)).
Proof.
  apply (reenter_restarts_clocks tracer_new
           {| Cursor.focus := Node.__init__ (LStr "bkz") [];
              Cursor.above := [] |}
           (PFloat (Q2Qc (3 # 2))) (PInt 2)).
  - apply (reach_init 0 (LStr "bkz") None). reflexivity.
  - reflexivity.
Defined.

(** * Further properties *)

(** ** Statistic: how [+] and [add] compose *)










(** ** Statistic: the mean and the variance *)

Lemma Qcsum_lower lo l :
  (forall x, In x l -> (lo <= x)%Qc) ->
  (Qc_of_Z (Z.of_nat (length l)) * lo <= Qcsum l)%Qc.
Proof.
  induction l as [|x l IH]; intros H.
  - unfold Qcsum. cbn [length fold_right]. change (Z.of_nat 0) with 0.
    replace (Qc_of_Z 0 * lo)%Qc with (Qc_of_Z 0);
      [apply Qcle_refl|rewrite Z2Qc_inj_0; ring].
  - cbn [length Qcsum fold_right]. rewrite Nat2Z.inj_succ, <- Z.add_1_r.
    rewrite Z2Qc_inj_add, Z2Qc_inj_1.
    replace ((Qc_of_Z (Z.of_nat (length l)) + 1) * lo)%Qc
      with (lo + Qc_of_Z (Z.of_nat (length l)) * lo)%Qc by ring.
    apply Qcplus_le_compat.
    + apply H. left. reflexivity.
    + apply IH. intros y Hy. apply H. right. exact Hy.
Qed.

Lemma Qcsum_upper hi l :
  (forall x, In x l -> (x <= hi)%Qc) ->
  (Qcsum l <= Qc_of_Z (Z.of_nat (length l)) * hi)%Qc.
Proof.
  induction l as [|x l IH]; intros H.
  - unfold Qcsum. cbn [length fold_right]. change (Z.of_nat 0) with 0.
    replace (Qc_of_Z 0 * hi)%Qc with (Qc_of_Z 0);
      [apply Qcle_refl|rewrite Z2Qc_inj_0; ring].
  - cbn [length Qcsum fold_right]. rewrite Nat2Z.inj_succ, <- Z.add_1_r.
    rewrite Z2Qc_inj_add, Z2Qc_inj_1.
    replace ((Qc_of_Z (Z.of_nat (length l)) + 1) * hi)%Qc
      with (hi + Qc_of_Z (Z.of_nat (length l)) * hi)%Qc by ring.
    apply Qcplus_le_compat.
    + apply H. left. reflexivity.
    + apply IH. intros y Hy. apply H. right. exact Hy.
Qed.

Lemma observe_counted_facts v0 repr vs :
  let s := observe (Statistic.__init__ v0 repr true) vs in
  Statistic._ctr s = Z.of_nat (length (v0 :: vs))
  /\ val (Statistic._sum s) = Qcsum (map val (v0 :: vs))
  /\ (Qc_of_Z (Statistic._ctr s) * val (Statistic._min s)
      <= val (Statistic._sum s))%Qc
  /\ (val (Statistic._sum s)
      <= Qc_of_Z (Statistic._ctr s) * val (Statistic._max s))%Qc.
Proof.
  intros s.
  assert (Hc : Statistic._ctr s = Z.of_nat (length (v0 :: vs))).
  { unfold s. rewrite observe_ctr. simpl length. simpl Statistic._ctr. lia. }
  assert (Hs : val (Statistic._sum s) = Qcsum (map val (v0 :: vs))).
  { unfold s. rewrite observe_sum, val_fold_num_add. reflexivity. }
  assert (Hb : forall x, In x (v0 :: vs) ->
            (val (Statistic._min s) <= val x)%Qc
            /\ (val x <= val (Statistic._max s))%Qc).
  { intros x [<-|Hx]; unfold s.
    - split; [apply (observe_min_le (Statistic.__init__ v0 repr true))
             |apply (observe_max_ge (Statistic.__init__ v0 repr true))].
    - split; [apply observe_min_bound, Hx|apply observe_max_bound, Hx]. }
  split; [exact Hc|]. split; [exact Hs|].
  rewrite Hc, Hs, <- (length_map val (v0 :: vs)). split.
  - apply Qcsum_lower. intros x Hx. apply in_map_iff in Hx as (y & <- & Hy).
    apply Hb, Hy.
  - apply Qcsum_upper. intros x Hx. apply in_map_iff in Hx as (y & <- & Hy).
    apply Hb, Hy.
Qed.

Lemma ints_are_ints z0 zs x : In x (PInt z0 :: ints zs) -> exists k, x = PInt k.
Proof.
  intros [<-|Hx]; [eauto|]. unfold ints in Hx.
  apply in_map_iff in Hx as (k & <- & _). eauto.
Qed.

Lemma ints_length zs : length (ints zs) = length zs.
Proof. apply length_map. Qed.

(** X3.  The mean of int observations.  A Statistic that counted its
    first value and has seen ints only has an int min, max and mean; the
    mean is the sum divided by the count and rounded down, and it lies
    between the min and the max. *)
Theorem average_between_extremes (z0 : Z) (repr : string) (zs : list Z) :
  let s := observe (Statistic.__init__ (PInt z0) repr true) (ints zs) in
  exists m a M,
    Statistic.min s = PInt m /\ Statistic.max s = PInt M
    /\ Statistic.avg s = Ok (PInt a)
    /\ a = Zsum (z0 :: zs) / Z.of_nat (length (z0 :: zs))
    /\ m <= a <= M.
Proof.
  intros s.
  destruct (observe_counted_facts (PInt z0) repr (ints zs))
    as (Hc & _ & Hlo & Hhi).
  fold s in Hc, Hlo, Hhi.
  destruct (observe_ints_first z0 repr true zs) as [Hsum _]. fold s in Hsum.
  assert (Hn : Statistic._ctr s = Z.of_nat (length (z0 :: zs))).
  { rewrite Hc. simpl length. rewrite ints_length. reflexivity. }
  assert (Hpos : 0 < Statistic._ctr s) by (rewrite Hn; simpl length; lia).
  destruct (ints_are_ints z0 zs _
              (observe_min_in (Statistic.__init__ (PInt z0) repr true) (ints zs)))
    as [m Hm].
  destruct (ints_are_ints z0 zs _
              (observe_max_in (Statistic.__init__ (PInt z0) repr true) (ints zs)))
    as [M HM].
  fold s in Hm, HM. exists m, (Zsum (z0 :: zs) / Statistic._ctr s), M.
  split; [exact Hm|]. split; [exact HM|].
  split; [apply avg_int; [exact Hsum|lia]|].
  split; [rewrite Hn; reflexivity|].
  rewrite Hm, Hsum in Hlo. rewrite HM, Hsum in Hhi. simpl val in Hlo, Hhi.
  rewrite <- Z2Qc_inj_mul in Hlo, Hhi. apply Z2Qc_inj_le in Hlo, Hhi. split.
  - apply Z.div_le_lower_bound; assumption.
  - apply Z.div_le_upper_bound; assumption.
Qed.

Lemma Zsum_deviations x l :
  Zsum (map (fun y => (y - x) * (y - x)) l)
  = Zsum (squares l) - 2 * x * Zsum l + Z.of_nat (length l) * (x * x).
Proof.
  induction l as [|y l IH]; unfold squares in *; cbn [map length Zsum fold_right].
  - lia.
  - unfold Zsum in IH. rewrite IH, Nat2Z.inj_succ. lia.
Qed.

Lemma Zsum_deviations_nonneg x l :
  0 <= Zsum (map (fun y => (y - x) * (y - x)) l).
Proof.
  induction l as [|y l IH]; cbn [map Zsum fold_right]; [lia|].
  unfold Zsum in IH. pose proof (Z.square_nonneg (y - x)). lia.
Qed.

(** The square of a sum of [n] ints is at most [n] times the sum of their
    squares. *)
Lemma Zsum_square_le l :
  Zsum l * Zsum l <= Z.of_nat (length l) * Zsum (squares l).
Proof.
  induction l as [|x l IH]; [simpl; lia|].
  pose proof (Zsum_deviations_nonneg x l) as Hd.
  rewrite Zsum_deviations in Hd.
  unfold squares in *. cbn [map length Zsum fold_right].
  unfold Zsum in IH, Hd. rewrite Nat2Z.inj_succ. nia.
Qed.

(** X4.  The variance of int observations.  A Statistic that counted its
    first value and has seen ints only has an int variance: the sum of
    squares divided by the count and rounded down, less the square of the
    mean, itself rounded down.  It is not negative when the sum is not
    negative.  With a negative sum it can be negative: of -1 and 0 the
    variance is -1. *)
Theorem variance_of_ints (z0 : Z) (repr : string) (zs : list Z) :
  let s := observe (Statistic.__init__ (PInt z0) repr true) (ints zs) in
  let n := Z.of_nat (length (z0 :: zs)) in
  (exists v,
     Statistic.variance s = Ok (PInt v)
     /\ v = Zsum (squares (z0 :: zs)) / n
            - (Zsum (z0 :: zs) / n) * (Zsum (z0 :: zs) / n)
     /\ (0 <= Zsum (z0 :: zs) -> 0 <= v))
  /\ Statistic.variance
       (observe (Statistic.__init__ (PInt (-1)) repr true) (ints [0]))
     = Ok (PInt (-1)).
Proof.
  intros s n. split; [|reflexivity].
  destruct (observe_ints_first z0 repr true zs) as [Hsum Hsqr].
  fold s in Hsum, Hsqr.
  assert (Hn : Statistic._ctr s = n).
  { unfold s, n. rewrite observe_ctr. simpl. rewrite ints_length. lia. }
  assert (Hpos : 0 < n) by (unfold n; simpl length; lia).
  eexists. split.
  { rewrite (variance_int s _ _ Hsum Hsqr) by lia. rewrite Hn. reflexivity. }
  split; [reflexivity|]. intros Hs.
  pose proof (Zsum_square_le (z0 :: zs)) as Hcs. fold n in Hcs.
  set (S := Zsum (z0 :: zs)) in *. set (Q := Zsum (squares (z0 :: zs))) in *.
  assert (Ha : 0 <= S / n) by (apply Z.div_pos; lia).
  assert (Hb : n * (S / n) <= S) by (apply Z.mul_div_le; lia).
  assert (Hc : (S / n) * (S / n) <= Q / n).
  { apply Z.div_le_lower_bound; [lia|]. nia. }
  lia.
Qed.



(** ** pretty_dict: columns and failures *)

Lemma string_length_app (s t : string) :
  String.length (s ++ t) = (String.length s + String.length t)%nat.
Proof. induction s as [|c s IH]; simpl; [reflexivity|]. rewrite IH. reflexivity. Qed.

Lemma spaces_length n : String.length (spaces n) = n.
Proof.
  induction n as [|n IH]; [reflexivity|].
  cbn [spaces]. rewrite string_length_app, IH. reflexivity.
Qed.

Lemma fmt_s_length w s :
  String.length (fmt_s w s) = Nat.max (String.length s) (Z.to_nat (Z.abs w)).
Proof.
  unfold fmt_s. cbv zeta. destruct (w <? 0)%Z;
    rewrite string_length_app, spaces_length; lia.
Qed.

Lemma fmt_exp_length v t : fmt_exp v = Ok t -> (8 <= String.length t)%nat.
Proof.
  unfold fmt_exp. destruct (num_eqb v (PInt 0)); [discriminate|].
  intros [= <-]. rewrite fmt_s_length. simpl. lia.
Qed.

Lemma pretty_float_field k v rb e :
  pretty_float k v rb = Ok e ->
  exists f, e = k ++ ": " ++ f /\ (8 <= String.length f)%nat.
Proof.
  unfold pretty_float.
  destruct (negb (num_ltb v (PInt 0)) && num_ltb v (PInt 10)).
  { intros [= <-]. eexists. split; [reflexivity|]. rewrite fmt_s_length.
    simpl. lia. }
  destruct (num_ltb (PInt (-10)) v && num_ltb v (PInt 0)).
  { intros [= <-]. eexists. split; [reflexivity|]. rewrite fmt_s_length.
    simpl. lia. }
  destruct (num_ltb (num_abs v) rb).
  { intros [= <-]. eexists. split; [reflexivity|]. rewrite fmt_s_length.
    simpl. lia. }
  destruct (fmt_exp v) as [t|err] eqn:E; simpl; [|discriminate].
  intros [= <-]. eexists. split; [reflexivity|]. apply (fmt_exp_length v), E.
Qed.

Lemma pretty_entry_field kw rb k v e :
  pretty_entry kw rb (k, v) = Ok e ->
  exists f, e = pretty_key kw k ++ ": " ++ f
    /\ match v with
       | VNone => f = "None"
       | _ => (8 <= String.length f)%nat
       end.
Proof.
  unfold pretty_entry. cbn [fst snd]. destruct v as [|[z|q]|s].
  - simpl. intros [= <-]. eauto.
  - destruct (num_ltb rb (num_abs (PInt z))).
    + destruct (fmt_exp (PInt z)) as [t|err] eqn:E; simpl; [|discriminate].
      intros [= <-]. eexists. split; [reflexivity|].
      apply (fmt_exp_length (PInt z)), E.
    + intros [= <-]. eexists. split; [reflexivity|]. unfold fmt_8d.
      rewrite fmt_s_length. simpl. lia.
  - apply pretty_float_field.
  - destruct (float_of_value (VStat s)) as [x|err].
    + apply pretty_float_field.
    + destruct err; discriminate.
Qed.

Lemma pretty_entries_fields kw rb d es :
  pretty_entries kw rb d = Ok es ->
  exists fields,
    es = zip_with (fun kv f => pretty_key kw (fst kv) ++ ": " ++ f) d fields
    /\ Forall2 (fun kv f =>
                  match snd kv with
                  | VNone => f = "None"
                  | _ => (8 <= String.length f)%nat
                  end) d fields.
Proof.
  revert es. induction d as [|[k v] d IH]; intros es; simpl.
  - intros [= <-]. exists []. split; [reflexivity|constructor].
  - destruct (pretty_entry kw rb (k, v)) as [e|err] eqn:E; simpl;
      [|discriminate].
    destruct (pretty_entries kw rb d) as [es'|err]; simpl; [|discriminate].
    intros [= <-]. destruct (IH _ eq_refl) as (fields & -> & HF).
    destruct (pretty_entry_field kw rb k v e E) as (f & -> & Hf).
    exists (f :: fields). split; [reflexivity|]. constructor; assumption.
Qed.

(** X6.  What [pretty_dict] returns is, in braces and joined by a comma
    and two spaces, one entry for each key in the order of the mapping:
    the key in double quotes, a colon and a space, and a field.  The
    field of a number or a Statistic is at least 8 characters wide, the
    field of [None] is the word None; the quoted key is as wide as the key
    or, if wider, as [keyword_width] asks, plus the two quotes. *)
Theorem pretty_dict_columns (d : list (string * value))
    (keyword_width : option Z) (round_bound : num) (t : string) :
  pretty_dict d keyword_width round_bound = Ok t ->
  (exists fields,
     t = "{" ++ String.concat ",  "
                  (zip_with (fun kv f =>
                               pretty_key keyword_width (fst kv) ++ ": " ++ f)
                     d fields) ++ "}"
     /\ Forall2 (fun kv f =>
                   match snd kv with
                   | VNone => f = "None"
                   | _ => (8 <= String.length f)%nat
                   end) d fields)
  /\ forall k,
       String.length (pretty_key keyword_width k)
       = (2 + Nat.max (String.length k)
                match keyword_width with
                | Some w => Z.to_nat (Z.abs w)
                | None => 0
                end)%nat.
Proof.
  intros H. split.
  - unfold pretty_dict in H.
    destruct (pretty_entries keyword_width round_bound d) as [es|err] eqn:E;
      simpl in H; [|discriminate].
    injection H as <-.
    destruct (pretty_entries_fields _ _ _ _ E) as (fields & -> & HF).
    exists fields. split; [reflexivity|exact HF].
  - intros k. unfold pretty_key. destruct keyword_width as [w|].
    + destruct (w =? 0)%Z eqn:E0.
      * apply Z.eqb_eq in E0. subst w.
        rewrite !string_length_app. simpl. lia.
      * rewrite !string_length_app, fmt_s_length. simpl. lia.
    + rewrite !string_length_app. simpl. lia.
Qed.

(** X6 at the doctest of [pretty_dict]. *)
Lemma pretty_dict_columns_witness :
  (exists fields,
     doctest_text
     = "{" ++ String.concat ",  "
                (zip_with (fun kv f => pretty_key None (fst kv) ++ ": " ++ f)
                   doctest_dict fields) ++ "}"
     /\ Forall2 (fun kv f =>
                   match snd kv with
                   | VNone => f = "None"
                   | _ => (8 <= String.length f)%nat
                   end) doctest_dict fields)
  /\ forall k,
       String.length (pretty_key None k)
       = (2 + Nat.max (String.length k) 0)%nat.
Proof.
  apply (pretty_dict_columns doctest_dict None (PInt 9999) doctest_text).
  vm_compute. reflexivity.
Defined.




(** ** Node: child, find and get *)

Lemma child_existing self l i c :
  Node.first_labelled l (Node.children self) = Some (i, c) ->
  Node.child self l = (self, i, c).
Proof. intros H. unfold Node.child. rewrite H. reflexivity. Qed.

Lemma child_spec (self : Node.t) (l : Label) :
  exists self' i c,
    Node.child self l = (self', i, c)
    /\ Node.label c = l
    /\ Node.children self' !! i = Some c
    /\ (forall j c', (j < i)%nat -> Node.children self' !! j = Some c' ->
          Node.label c' <> l)
    /\ Node.label self' = Node.label self
    /\ Node.data self' = Node.data self
    /\ ((exists c', In c' (Node.children self) /\ Node.label c' = l) ->
        self' = self)
    /\ ((forall c', In c' (Node.children self) -> Node.label c' <> l) ->
        Node.children self' = (Node.children self ++ [c])%list
        /\ c = Node.__init__ l [] /\ i = length (Node.children self))
    /\ Node.child self' l = (self', i, c).
Proof.
  unfold Node.child at 1.
  destruct (Node.first_labelled l (Node.children self)) as [[i c]|] eqn:E.
  - exists self, i, c. split; [reflexivity|].
    destruct (first_labelled_Some _ _ _ _ E) as (H1 & H2 & H3).
    split; [exact H2|]. split; [exact H1|]. split; [exact H3|].
    split; [reflexivity|]. split; [reflexivity|]. split; [reflexivity|].
    split; [|apply child_existing, E].
    intros Hn. apply first_labelled_None in Hn. congruence.
  - assert (Hn := proj1 (first_labelled_None _ _) E).
    assert (E' : Node.first_labelled l
                   (Node.children (Node.add_child self (Node.__init__ l [])))
                 = Some (length (Node.children self), Node.__init__ l [])).
    { simpl. rewrite first_labelled_app, E. simpl.
      rewrite label_eqb_refl. reflexivity. }
    eexists _, _, _. split; [reflexivity|].
    destruct (first_labelled_Some _ _ _ _ E') as (H1 & H2 & H3).
    split; [reflexivity|]. split; [exact H1|]. split; [exact H3|].
    split; [reflexivity|]. split; [reflexivity|].
    split.
    { intros (c' & Hin & Hl). destruct (Hn c' Hin Hl). }
    split; [intros _; auto|].
    apply child_existing, E'.
Qed.

(** X8.  [child] is get-or-create.  It returns a child of the node with
    the label, the first one; the label and the data of the node are left
    alone.  When the node had a child with the label nothing changes;
    otherwise the child is a new node without data and without children,
    put after the children there were.  A second call with the label
    returns the same child and changes nothing. *)
Theorem child_gets_or_creates (self : Node.t) (l : Label) :
  exists self' i c,
    Node.child self l = (self', i, c)
    /\ Node.label c = l
    /\ Node.children self' !! i = Some c
    /\ (forall j c', (j < i)%nat -> Node.children self' !! j = Some c' ->
          Node.label c' <> l)
    /\ Node.label self' = Node.label self
    /\ Node.data self' = Node.data self
    /\ ((exists c', In c' (Node.children self) /\ Node.label c' = l) ->
        self' = self)
    /\ ((forall c', In c' (Node.children self) -> Node.label c' <> l) ->
        Node.children self' = (Node.children self ++ [c])%list
        /\ c = Node.__init__ l [] /\ i = length (Node.children self))
    /\ Node.child self' l = (self', i, c).
Proof. exact (child_spec self l). Qed.

Lemma get_loop_first l cs r i c :
  Node.first_labelled l cs = Some (i, c) ->
  (forall j c', (j < i)%nat -> cs !! j = Some c' -> empty_tuple c' = false) ->
  Node.get_loop l cs r = Ok (Node.Single c).
Proof.
  revert r i. induction cs as [|x cs IH]; intros r i; simpl; [discriminate|].
  destruct (label_eqb (Node.label x) l) eqn:E.
  - intros [= <- <-] _. reflexivity.
  - destruct (Node.first_labelled l cs) as [[i' c'']|] eqn:E'; [|discriminate].
    intros [= <- <-] H.
    assert (Hx : empty_tuple x = false) by (apply (H O x); [lia|reflexivity]).
    assert (Hcs : forall j c', (j < i')%nat -> cs !! j = Some c' ->
                    empty_tuple c' = false).
    { intros j c' Hj Hc'. apply (H (S j) c'); [lia|exact Hc']. }
    unfold empty_tuple in Hx.
    destruct (Node.label x) as [s|z|[|y items]]; try discriminate;
      try (apply (IH _ i' eq_refl Hcs)).
    destruct (label_eqb y l); apply (IH _ i' eq_refl Hcs).
Qed.

(** X9.  After [child(l)], the lookups find the child it returned:
    [find(l)], with and without [raise_keyerror], returns it, and so does
    [get(l)] when no child of the node was labelled by the empty tuple (on
    which [get] raises [IndexError]). *)
Theorem child_then_lookup (self : Node.t) (l : Label) :
  exists self' i c,
    Node.child self l = (self', i, c)
    /\ Node.find l false self' = Ok (Some c)
    /\ Node.find l true self' = Ok (Some c)
    /\ (Forall (fun x => empty_tuple x = false) (Node.children self) ->
        Node.get self' l = Ok (Node.Single c)).
Proof.
  destruct (child_spec self l)
    as (self' & i & c & Hc & Hl & Hi & Hfirst & _ & _ & Hold & Hnew & Hagain).
  exists self', i, c. split; [exact Hc|].
  assert (E : Node.first_labelled l (Node.children self') = Some (i, c)).
  { unfold Node.child in Hagain.
    destruct (Node.first_labelled l (Node.children self')) as [[i' c']|] eqn:E.
    - injection Hagain as <- <-. reflexivity.
    - exfalso. apply (proj1 (first_labelled_None _ _) E c); [|exact Hl].
      apply list_elem_of_In. eapply list_elem_of_lookup_2, Hi. }
  split; [rewrite find_unfold, E; reflexivity|].
  split; [rewrite find_unfold, E; reflexivity|].
  intros Hall. unfold Node.get. apply (get_loop_first l _ [] i c E).
  intros j c' Hj Hc'.
  destruct (Node.first_labelled l (Node.children self)) as [[i0 c0]|] eqn:E0.
  - assert (Hs : self' = self).
    { apply Hold. exists c0. split; [eapply first_labelled_In, E0|].
      apply (first_labelled_Some _ _ _ _ E0). }
    subst self'. rewrite List.Forall_forall in Hall. apply Hall.
    apply list_elem_of_In. eapply list_elem_of_lookup_2, Hc'.
  - destruct (Hnew (proj1 (first_labelled_None _ _) E0)) as (Hch & _ & ->).
    rewrite Hch in Hc'. rewrite lookup_app_l in Hc' by exact Hj.
    rewrite List.Forall_forall in Hall. apply Hall.
    apply list_elem_of_In. eapply list_elem_of_lookup_2, Hc'.
Qed.

(** X10.  With [raise_keyerror=True], [find] never returns [None]; a
    node it returns is below [self] and has the label; and when it raises
    [KeyError] no node below [self] has the label.  Anything else it
    raises comes from [str] of a node of the tree, called to format the
    message of a [KeyError]: so when the first child has no children, is
    not a match and cannot be printed, [find] raises what [str] of that
    child raises, whatever the other subtrees hold.  On a tree all of
    whose nodes [str] prints, [find] returns a node exactly when some
    node below [self] has the label, and raises [KeyError] otherwise.  In
    both modes a child of [self] with the label is preferred to any
    deeper node: the first such child is returned. *)
Theorem find_strict_complete (l : Label) (n : Node.t) :
  (forall c, Node.find l true n = Ok (Some c) ->
     In c (flat_map nodes (Node.children n)) /\ Node.label c = l)
  /\ Node.find l true n <> Ok None
  /\ (Node.find l true n = Raise KeyError ->
      forall m, In m (flat_map nodes (Node.children n)) -> Node.label m <> l)
  /\ (forall e, Node.find l true n = Raise e -> e <> KeyError ->
        exists m, In m (nodes n) /\ Node.__str__ m = Raise e)
  /\ (forall c cs e,
        Node.children n = c :: cs ->
        Node.first_labelled l (c :: cs) = None ->
        Node.children c = [] ->
        Node.__str__ c = Raise e ->
        Node.find l true n = Raise e)
  /\ ((forall m, In m (nodes n) -> exists t, Node.__str__ m = Ok t) ->
      ((exists c, Node.find l true n = Ok (Some c))
       <-> exists m, In m (flat_map nodes (Node.children n))
             /\ Node.label m = l)
      /\ (Node.find l true n = Raise KeyError
          <-> forall m, In m (flat_map nodes (Node.children n)) ->
                Node.label m <> l))
  /\ (forall strict i c,
        Node.first_labelled l (Node.children n) = Some (i, c) ->
        Node.find l strict n = Ok (Some c)).
Proof.
  pose proof (find_strict_cases l n) as H. unfold find_strict_post in H.
  split.
  { intros c E. rewrite E in H. exact H. }
  split.
  { intros E. rewrite E in H. exact H. }
  split.
  { intros E. rewrite E in H. destruct H as [[_ H]|[H _]]; [exact H|].
    destruct (H eq_refl). }
  split.
  { intros e E Hne. rewrite E in H. destruct H as [[H _]|[_ H]]; [|exact H].
    destruct (Hne H). }
  split.
  { intros c cs e Hc Hf Hcc Hs. rewrite find_unfold, Hc, Hf.
    cbn [find_children]. rewrite (find_unfold l true c), Hcc.
    cbn [Node.first_labelled find_children]. rewrite Hs. cbn [bind].
    pose proof (str_not_keyerror c e Hs) as Hne.
    destruct e; try reflexivity. destruct (Hne eq_refl). }
  split.
  { intros Hp. pose proof (find_strict_spec l n Hp) as S.
    destruct (Node.find l true n) as [[c|]|e] eqn:E.
    - destruct S as [Hin Hl]. split.
      + split; eauto.
      + split; [discriminate|]. intros Hn. destruct (Hn c Hin Hl).
    - destruct S.
    - destruct S as [-> Hn]. split.
      + split; [intros [c Hc]; discriminate|].
        intros (m & Hin & Hl). destruct (Hn m Hin Hl).
      + split; auto. }
  intros strict i c' Hf. rewrite find_unfold, Hf. reflexivity.
Qed.

Lemma leftmost_unfold n :
  leftmost n = n :: match Node.children n with
                    | [] => []
                    | c :: _ => leftmost c
                    end.
Proof. destruct n as [l d cs]. reflexivity. Qed.

Lemma leftmost_match_unfold l n :
  leftmost_match l n =
  match Node.first_labelled l (Node.children n) with
  | Some (_, c) => Some c
  | None =>
      match Node.children n with
      | [] => None
      | c :: _ => leftmost_match l c
      end
  end.
Proof.
  unfold leftmost_match. rewrite leftmost_unfold. simpl. unfold labelled at 1.
  destruct (Node.first_labelled l (Node.children n)) as [[i c]|];
    [reflexivity|].
  destruct (Node.children n); reflexivity.
Qed.

Lemma find_lenient_leftmost l n :
  Node.find l false n = Ok (leftmost_match l n).
Proof.
  induction n as [ln d cs IH] using node_ind.
  rewrite find_unfold, leftmost_match_unfold. cbn [Node.children].
  destruct (Node.first_labelled l cs) as [[i c]|] eqn:E; [reflexivity|].
  destruct IH as [|c cs' Hc _]; [reflexivity|].
  cbn [find_children]. rewrite Hc. reflexivity.
Qed.

(** X11.  Without [raise_keyerror], [find] looks only at the children of
    the nodes of the leftmost branch: it returns the first child with the
    label of the first node of that branch that has one, and [None] when
    none has, whatever the rest of the tree holds. *)
Theorem find_lenient_searches_leftmost (l : Label) (n : Node.t) :
  Node.find l false n = Ok (leftmost_match l n)
  /\ (forall c, Node.find l false n = Ok (Some c) ->
        exists m i, In m (leftmost n)
          /\ Node.first_labelled l (Node.children m) = Some (i, c))
  /\ ((forall m c, In m (leftmost n) -> In c (Node.children m) ->
         Node.label c <> l) ->
      Node.find l false n = Ok None).
Proof.
  split; [apply find_lenient_leftmost|].
  rewrite find_lenient_leftmost. unfold leftmost_match. split.
  - intros c [= Hc].
    destruct (omap (fun m => labelled l (Node.children m)) (leftmost n))
      as [|x xs] eqn:E; [discriminate|].
    simpl in Hc. injection Hc as ->.
    assert (Hin : c ∈ omap (fun m => labelled l (Node.children m)) (leftmost n))
      by (rewrite E; left).
    apply list_elem_of_omap in Hin as (m & Hm & Hlab).
    unfold labelled in Hlab.
    destruct (Node.first_labelled l (Node.children m)) as [[i c']|] eqn:Ef;
      [|discriminate].
    injection Hlab as ->. exists m, i. split; [|exact Ef].
    apply list_elem_of_In, Hm.
  - intros Hnone. f_equal.
    destruct (omap (fun m => labelled l (Node.children m)) (leftmost n))
      as [|x xs] eqn:E; [reflexivity|].
    exfalso.
    assert (Hin : x ∈ omap (fun m => labelled l (Node.children m)) (leftmost n))
      by (rewrite E; left).
    apply list_elem_of_omap in Hin as (m & Hm & Hlab).
    unfold labelled in Hlab.
    destruct (Node.first_labelled l (Node.children m)) as [[i c']|] eqn:Ef;
      [|discriminate].
    injection Hlab as ->.
    apply (Hnone m x); [apply list_elem_of_In, Hm|eapply first_labelled_In, Ef|].
    apply (first_labelled_Some _ _ _ _ Ef).
Qed.

Lemma get_loop_empty_tuple l pre c rest r :
  Node.label c = LTuple [] -> l <> LTuple [] ->
  Forall (fun x => Node.label x <> l /\ empty_tuple x = false) pre ->
  Node.get_loop l (pre ++ c :: rest) r = Raise IndexError.
Proof.
  intros Hc Hl Hpre. revert r.
  induction Hpre as [|x pre [Hx Hxe] _ IH]; intros r; simpl.
  - rewrite Hc. destruct (label_eqb (LTuple []) l) eqn:E; [|reflexivity].
    apply label_eqb_eq in E. congruence.
  - apply label_eqb_neq in Hx. rewrite Hx. unfold empty_tuple in Hxe.
    destruct (Node.label x) as [s|z|[|y items]]; try discriminate;
      try apply IH.
    destruct (label_eqb y l); apply IH.
Qed.

(** X12.  [get] raises [IndexError] when, before any child whose label
    is [l], it comes to a child labelled by the empty tuple: it asks for
    the first component of that label. *)
Theorem get_empty_tuple_label (n : Node.t) (l : Label)
    (pre : list Node.t) (c : Node.t) (rest : list Node.t) :
  Node.children n = (pre ++ c :: rest)%list ->
  Node.label c = LTuple [] ->
  l <> LTuple [] ->
  Forall (fun x => Node.label x <> l /\ empty_tuple x = false) pre ->
  Node.get n l = Raise IndexError.
Proof.
  intros Hn Hc Hl Hpre. unfold Node.get. rewrite Hn.
  apply get_loop_empty_tuple; assumption.
Qed.

(** X12 at a node with the children "a" and (): [get("b")]. *)
Lemma get_empty_tuple_label_witness :
  Node.get
    (Node.mk (LStr "root") []
       [Node.mk (LStr "a") [] []; Node.mk (LTuple []) [] [];
        Node.mk (LStr "b") [] []])
    (LStr "b") = Raise IndexError.
Proof.
  apply (get_empty_tuple_label _ (LStr "b") [Node.mk (LStr "a") [] []]
           (Node.mk (LTuple []) [] []) [Node.mk (LStr "b") [] []]).
  - reflexivity.
  - reflexivity.
  - discriminate.
  - constructor; [|constructor]. split; [discriminate|reflexivity].
Defined.

(** ** Node: what merge keeps *)

Lemma od_get_in k d : In k (map fst d) -> exists v, od_get k d = Some v.
Proof.
  induction d as [|[k' v] d IH]; simpl; [tauto|].
  intros H. rewrite od_get_cons. destruct (String.eqb k' k) eqn:E; [eauto|].
  apply String.eqb_neq in E. destruct H as [H|H]; [congruence|auto].
Qed.

Lemma od_set_keys k v d :
  map fst (od_set k v d)
  = match od_get k d with
    | Some _ => map fst d
    | None => (map fst d ++ [k])%list
    end.
Proof.
  induction d as [|[k' v'] d IH]; simpl; [reflexivity|].
  rewrite od_get_cons. destruct (String.eqb k' k) eqn:E; simpl; [reflexivity|].
  rewrite IH. destruct (od_get k d); reflexivity.
Qed.

Lemma od_set_wf k v d : od_wf d -> od_wf (od_set k v d).
Proof.
  unfold od_wf. intros H. rewrite od_set_keys.
  destruct (od_get k d) as [old|] eqn:E; [exact H|].
  apply NoDup_app. split; [exact H|]. split; [|apply NoDup_singleton].
  intros x Hx Hk. apply list_elem_of_singleton in Hk. subst x.
  apply list_elem_of_In in Hx. destruct (od_get_in k d Hx) as [v' Hv].
  congruence.
Qed.

Lemma merge_data_keeps sd nd d' :
  Node.merge_data sd nd = Ok d' ->
  (exists new, map fst d' = (map fst sd ++ new)%list)
  /\ (od_wf sd -> od_wf d').
Proof.
  revert sd. induction nd as [|[k v] nd IH]; intros sd; simpl.
  - intros [= <-]. split; [exists []; rewrite app_nil_r; reflexivity|auto].
  - assert (Hstep : forall x, Node.merge_data (od_set k x sd) nd = Ok d' ->
              (exists new, map fst d' = (map fst sd ++ new)%list)
              /\ (od_wf sd -> od_wf d')).
    { intros x H. destruct (IH _ H) as [[new Hnew] Hwf]. split.
      - rewrite od_set_keys in Hnew. destruct (od_get k sd); [eauto|].
        rewrite <- app_assoc in Hnew. eauto.
      - intros Hsd. apply Hwf, od_set_wf, Hsd. }
    destruct (od_get k sd) as [old|]; [|apply Hstep].
    destruct (vadd old v) as [new|e]; simpl; [apply Hstep|discriminate].
Qed.

Lemma map_insert_same {A B} (f : A -> B) (cs : list A) i x y :
  cs !! i = Some x -> f y = f x -> map f (<[i := y]> cs) = map f cs.
Proof.
  revert i. induction cs as [|c cs IH]; intros [|i]; simpl; try discriminate.
  - intros [= ->] ->. reflexivity.
  - intros Hi Hf. f_equal. apply (IH i Hi Hf).
Qed.

Lemma label_not_in_children l cs :
  Node.first_labelled l cs = None -> l ∉ map Node.label cs.
Proof.
  intros H Hin. apply list_elem_of_In, in_map_iff in Hin as (c & Hc & Hin).
  exact (proj1 (first_labelled_None l cs) H c Hin Hc).
Qed.

Lemma merge_children_keeps ncs :
  Forall (fun b => forall a a', Node.merge a b = Ok a' -> wf a -> wf a') ncs ->
  forall scs cs',
    merge_children ncs scs = Ok cs' ->
    (exists new, map Node.label cs' = (map Node.label scs ++ new)%list)
    /\ (NoDup (map Node.label scs) -> NoDup (map Node.label cs'))
    /\ (Forall wf scs -> Forall wf cs').
Proof.
  induction 1 as [|c ncs Hc _ IH]; intros scs cs'; simpl.
  - intros [= <-]. split; [exists []; rewrite app_nil_r; reflexivity|auto].
  - destruct (Node.first_labelled (Node.label c) scs) as [[i sc]|] eqn:E.
    + destruct (Node.merge sc c) as [sc'|e] eqn:Em; simpl; [|discriminate].
      intros H. destruct (IH _ _ H) as ([new Hnew] & Hnd & Hwf).
      destruct (first_labelled_Some _ _ _ _ E) as (Hi & _ & _).
      pose proof (map_insert_same Node.label scs i sc sc' Hi
                    (merge_label _ _ _ Em)) as Hsame.
      rewrite Hsame in Hnew, Hnd.
      split; [eauto|]. split; [exact Hnd|].
      intros Hall. apply Hwf, Forall_insert; [exact Hall|].
      apply (Hc sc sc' Em). rewrite List.Forall_forall in Hall.
      apply Hall. eapply first_labelled_In, E.
    + destruct (Node.merge (Node.__init__ (Node.label c) []) c)
        as [sc'|e] eqn:Em; simpl; [|discriminate].
      intros H. destruct (IH _ _ H) as ([new Hnew] & Hnd & Hwf).
      rewrite map_app in Hnew, Hnd. rewrite <- app_assoc in Hnew.
      split; [eauto|]. split.
      * intros Hscs. apply Hnd. apply NoDup_app.
        split; [exact Hscs|]. split; [|apply NoDup_singleton].
        intros x Hx Hk. simpl in Hk. apply list_elem_of_singleton in Hk.
        subst x. rewrite (merge_label _ _ _ Em) in Hx. simpl in Hx.
        exact (label_not_in_children _ _ E Hx).
      * intros Hall. apply Hwf, Forall_app. split; [exact Hall|].
        constructor; [|constructor].
        apply (Hc _ sc' Em). constructor; [constructor|constructor|constructor].
Qed.

Lemma merge_keeps_wf b : forall a a', Node.merge a b = Ok a' -> wf a -> wf a'.
Proof.
  induction b as [lb db cbs IH] using node_ind. intros a a'.
  rewrite merge_unfold. simpl.
  destruct (Node.merge_data (Node.data a) db) as [d'|e] eqn:Ed; simpl;
    [|discriminate].
  destruct (merge_children cbs (Node.children a)) as [cs'|e] eqn:Ec; simpl;
    [|discriminate].
  intros [= <-] Ha. inversion Ha as [la da cas Hda Hnd Hcs Ea]. subst a.
  simpl in Ed, Ec.
  destruct (merge_data_keeps _ _ _ Ed) as [_ Hd].
  destruct (merge_children_keeps cbs IH _ _ Ec) as (_ & Hn & Hw).
  constructor; auto.
Qed.

(** X13.  [merge] takes nothing away from [self] and keeps its order:
    afterwards the keys of its data are the keys it had, in their order,
    followed by the new ones, and the labels of its children are the
    labels they had, in their order, followed by those of the new
    children.  If before the merge the keys of each node of [self] were
    distinct and the labels of its children too, they still are, whatever
    the tree merged in looks like.  Merging a node without data and
    without children changes nothing. *)
Theorem merge_keeps_shape (a b a' : Node.t) :
  Node.merge a b = Ok a' ->
  (exists new, map fst (Node.data a') = (map fst (Node.data a) ++ new)%list)
  /\ (exists new,
        map Node.label (Node.children a')
        = (map Node.label (Node.children a) ++ new)%list)
  /\ (wf a -> wf a')
  /\ forall l, Node.merge a (Node.mk l [] []) = Ok a.
Proof.
  intros H. pose proof (merge_keeps_wf b a a' H) as Hwf.
  rewrite merge_unfold in H.
  destruct (Node.merge_data (Node.data a) (Node.data b)) as [d'|e] eqn:Ed;
    simpl in H; [|discriminate].
  destruct (merge_children (Node.children b) (Node.children a))
    as [cs'|e] eqn:Ec; simpl in H; [|discriminate].
  injection H as <-. simpl.
  split; [apply (merge_data_keeps _ _ _ Ed)|].
  split.
  { assert (Hall : Forall (fun b => forall a a',
                      Node.merge a b = Ok a' -> wf a -> wf a')
                     (Node.children b)).
    { apply List.Forall_forall. intros x _. apply merge_keeps_wf. }
    apply (merge_children_keeps _ Hall _ _ Ec). }
  split; [exact Hwf|].
  intros l. destruct a as [la da cas]. reflexivity.
Qed.

(** X13 at a merge that adds to one entry and brings a new entry and a
    new child. *)
Lemma merge_keeps_shape_witness :
  (exists new,
     map fst [("a", VNum (PInt 3)); ("b", VNum (PInt 3))]
     = (map fst [("a", VNum (PInt 1))] ++ new)%list)
  /\ (exists new,
        map Node.label [Node.mk (LStr "x") [] []; Node.mk (LStr "y") [] []]
        = (map Node.label [Node.mk (LStr "x") [] []] ++ new)%list)
  /\ (wf (Node.mk (LStr "root") [("a", VNum (PInt 1))]
            [Node.mk (LStr "x") [] []]) ->
      wf (Node.mk (LStr "root") [("a", VNum (PInt 3)); ("b", VNum (PInt 3))]
            [Node.mk (LStr "x") [] []; Node.mk (LStr "y") [] []]))
  /\ forall l,
       Node.merge
         (Node.mk (LStr "root") [("a", VNum (PInt 1))]
            [Node.mk (LStr "x") [] []])
         (Node.mk l [] [])
       = Ok (Node.mk (LStr "root") [("a", VNum (PInt 1))]
               [Node.mk (LStr "x") [] []]).
Proof.
  apply (merge_keeps_shape
           (Node.mk (LStr "root") [("a", VNum (PInt 1))]
              [Node.mk (LStr "x") [] []])
           (Node.mk (LStr "other")
              [("a", VNum (PInt 2)); ("b", VNum (PInt 3))]
              [Node.mk (LStr "y") [] []])
           (Node.mk (LStr "root")
              [("a", VNum (PInt 3)); ("b", VNum (PInt 3))]
              [Node.mk (LStr "x") [] []; Node.mk (LStr "y") [] []])).
  reflexivity.
Defined.

(** ** Node: report *)

Lemma string_app_assoc (s t u : string) : (s ++ t) ++ u = s ++ (t ++ u).
Proof.
  induction s as [|c s IH]; [reflexivity|].
  change (String c ((s ++ t) ++ u) = String c (s ++ t ++ u)).
  f_equal. exact IH.
Qed.

Lemma string_concat_app sep (xs ys : list string) :
  xs <> [] -> ys <> [] ->
  String.concat sep (xs ++ ys)
  = String.concat sep xs ++ sep ++ String.concat sep ys.
Proof.
  intros Hxs Hys. induction xs as [|x xs IH]; [congruence|].
  destruct xs as [|x' xs].
  - simpl. destruct ys; [congruence|reflexivity].
  - change (String.concat sep ((x :: x' :: xs) ++ ys))
      with (x ++ sep ++ String.concat sep ((x' :: xs) ++ ys)).
    rewrite IH by discriminate.
    change (String.concat sep (x :: x' :: xs))
      with (x ++ sep ++ String.concat sep (x' :: xs)).
    rewrite !string_app_assoc. reflexivity.
Qed.

(** Joining joined groups of lines is joining all the lines. *)
Lemma string_concat_groups sep (tss : list (list string)) :
  Forall (fun ts => ts <> []) tss ->
  String.concat sep (map (String.concat sep) tss)
  = String.concat sep (List.concat tss).
Proof.
  induction 1 as [|ts tss Hts Hall IH]; [reflexivity|].
  destruct tss as [|ts' tss].
  - simpl. rewrite app_nil_r. reflexivity.
  - change (String.concat sep (map (String.concat sep) (ts :: ts' :: tss)))
      with (String.concat sep ts ++ sep
            ++ String.concat sep (map (String.concat sep) (ts' :: tss))).
    rewrite IH. cbn [List.concat]. symmetry. apply string_concat_app.
    + exact Hts.
    + inversion Hall as [|? ? Hts' _]. destruct ts'; [congruence|discriminate].
Qed.

Lemma string_concat_head sep (x : string) (tss : list (list string)) :
  Forall (fun ts => ts <> []) tss ->
  String.concat sep (x :: map (String.concat sep) tss)
  = String.concat sep (x :: List.concat tss).
Proof.
  intros H. apply (string_concat_groups sep ([x] :: tss)).
  constructor; [discriminate|exact H].
Qed.

Lemma rows_nodes indentation n : map snd (rows indentation n) = nodes n.
Proof.
  revert indentation. induction n as [l d cs IH] using node_ind.
  intros indentation. simpl. f_equal.
  induction IH as [|c cs Hc _ IHcs]; simpl; [reflexivity|].
  rewrite map_app, Hc, IHcs. reflexivity.
Qed.

Lemma report_children_rows indentation cs :
  Forall (fun c => forall indentation,
            match NodeText.report indentation None c with
            | Ok s =>
                exists texts,
                  Forall2 (fun r t => row_line r = Ok t) (rows indentation c) texts
                  /\ s = String.concat newline texts
            | Raise e =>
                exists m, In m (nodes c) /\ NodeText.__str__ m = Raise e
            end) cs ->
  match report_children indentation cs None with
  | Ok rs =>
      exists tss,
        Forall2 (fun c ts =>
                   Forall2 (fun r t => row_line r = Ok t)
                     (rows (indentation + 2) c) ts) cs tss
        /\ rs = map (String.concat newline) tss
  | Raise e =>
      exists m, In m (flat_map nodes cs) /\ NodeText.__str__ m = Raise e
  end.
Proof.
  induction 1 as [|c cs Hc _ IH]; simpl.
  - exists []. split; [constructor|reflexivity].
  - specialize (Hc (indentation + 2)).
    destruct (NodeText.report (indentation + 2) None c) as [r|e]; simpl.
    + destruct Hc as (ts & Hts & ->).
      destruct (report_children indentation cs None) as [rs|e]; simpl.
      * destruct IH as (tss & Htss & ->). exists (ts :: tss).
        split; [constructor; assumption|reflexivity].
      * destruct IH as (m & Hm & He). exists m. split; [|exact He].
        apply in_or_app. right. exact Hm.
    + destruct Hc as (m & Hm & He). exists m. split; [|exact He].
      apply in_or_app. left. exact Hm.
Qed.

Lemma rows_groups indentation cs tss :
  Forall2 (fun c ts =>
             Forall2 (fun r t => row_line r = Ok t) (rows indentation c) ts)
    cs tss ->
  Forall2 (fun r t => row_line r = Ok t)
    (flat_map (rows indentation) cs) (List.concat tss)
  /\ Forall (fun ts => ts <> []) tss.
Proof.
  induction 1 as [|c ts cs tss Hc _ [IH1 IH2]]; simpl.
  - split; constructor.
  - split; [apply Forall2_app; assumption|].
    constructor; [|exact IH2]. intros ->. destruct c as [l d cs'].
    simpl in Hc. inversion Hc.
Qed.

Lemma report_rows n :
  forall indentation,
    match NodeText.report indentation None n with
    | Ok s =>
        exists texts,
          Forall2 (fun r t => row_line r = Ok t) (rows indentation n) texts
          /\ s = String.concat newline texts
    | Raise e => exists m, In m (nodes n) /\ NodeText.__str__ m = Raise e
    end.
Proof.
  induction n as [l d cs IH] using node_ind. intros indentation.
  rewrite report_unfold. cbn [Node.children].
  destruct (NodeText.__str__ (Node.mk l d cs)) as [me|e] eqn:Eme; simpl bind.
  - pose proof (report_children_rows indentation cs IH) as Hch.
    destruct (report_children indentation cs None) as [rs|e]; simpl bind.
    + destruct Hch as (tss & Htss & ->).
      destruct (rows_groups _ _ _ Htss) as [Hrows Hne].
      exists ((spaces (Z.to_nat indentation) ++ me) :: List.concat tss).
      split.
      * cbn [rows Node.children]. constructor; [|exact Hrows].
        unfold row_line. cbn [fst snd]. rewrite Eme. reflexivity.
      * transitivity
          (String.concat newline
             ((spaces (Z.to_nat indentation) ++ me)
              :: map (String.concat newline) tss)); [reflexivity|].
        apply string_concat_head, Hne.
    + destruct Hch as (m & Hm & He). exists m. split; [|exact He].
      simpl. right. exact Hm.
  - exists (Node.mk l d cs). split; [left; reflexivity|exact Eme].
Qed.

(** X14.  [report] without a depth lists the whole tree: what it returns
    is the lines of all the nodes, in the order of [nodes] (a node, then
    the trees of its children in turn), joined by newlines; the line of a
    node is its [str] behind [indentation] spaces for the root and two
    more for each level below.  It raises only what [str] of one of the
    nodes raises. *)
Theorem report_lists_every_node (indentation : Z) (n : Node.t) :
  map snd (rows indentation n) = nodes n
  /\ match NodeText.report indentation None n with
     | Ok s =>
         exists texts,
           Forall2 (fun r t => row_line r = Ok t) (rows indentation n) texts
           /\ length texts = length (nodes n)
           /\ s = String.concat newline texts
     | Raise e => exists m, In m (nodes n) /\ NodeText.__str__ m = Raise e
     end.
Proof.
  split; [apply rows_nodes|].
  pose proof (report_rows n indentation) as H.
  destruct (NodeText.report indentation None n) as [s|e]; [|exact H].
  destruct H as (texts & Hrows & ->). exists texts.
  split; [exact Hrows|]. split; [|reflexivity].
  rewrite <- (rows_nodes indentation n), length_map.
  symmetry. eapply Forall2_length, Hrows.
Qed.

Lemma report_shallow indentation d n :
  d <= 0 -> NodeText.report indentation (Some d) n = row_line (indentation, n).
Proof.
  intros Hd. rewrite report_unfold. unfold row_line. cbn [fst snd].
  destruct (0 <? d)%Z eqn:E; [apply Z.ltb_lt in E; lia|].
  destruct (NodeText.__str__ n); reflexivity.
Qed.

Lemma report_children_depths indentation cs :
  forall d rs,
    report_children indentation cs (Some d) = Ok rs ->
    length rs = length cs
    /\ forall k c, cs !! k = Some c ->
         exists part, rs !! k = Some part
           /\ NodeText.report (indentation + 2) (Some (d - 1 - Z.of_nat k)) c
              = Ok part.
Proof.
  induction cs as [|c cs IH]; intros d rs; simpl.
  - intros [= <-]. split; [reflexivity|]. intros k c [=].
  - destruct (NodeText.report (indentation + 2) (Some (d - 1)) c)
      as [r|e] eqn:Er; simpl; [|discriminate].
    destruct (report_children indentation cs (Some (d - 1))) as [rs'|e] eqn:Ers;
      simpl; [|discriminate].
    intros [= <-]. destruct (IH _ _ Ers) as [Hlen Hk].
    split; [simpl; rewrite Hlen; reflexivity|].
    intros [|k] c'; simpl.
    + intros [= <-]. exists r. split; [reflexivity|].
      rewrite Z.sub_0_r. exact Er.
    + intros Hc'. destruct (Hk k c' Hc') as (part & Hp & Hr).
      exists part. split; [exact Hp|].
      replace (d - 1 - Z.of_nat (S k)) with (d - 1 - 1 - Z.of_nat k) by lia.
      exact Hr.
Qed.

(** X15.  In [report] with a depth, the loop over the children lowers the
    depth at each turn and hands it on: the child at position [k], the
    first at 0, is reported with depth [depth - 1 - k].  So with a depth
    that is not positive only the line of the node is returned, and with
    a positive depth [d] every child is listed, but the children from
    position [d - 1] on are listed without the nodes below them. *)
Theorem report_depth_per_child (indentation d : Z) (n : Node.t) (s : string) :
  NodeText.report indentation (Some d) n = Ok s ->
  exists me parts,
    NodeText.__str__ n = Ok me
    /\ s = String.concat newline ((spaces (Z.to_nat indentation) ++ me) :: parts)
    /\ (d <= 0 -> parts = [])
    /\ (0 < d ->
        length parts = length (Node.children n)
        /\ forall k c, Node.children n !! k = Some c ->
             exists part,
               parts !! k = Some part
               /\ NodeText.report (indentation + 2)
                    (Some (d - 1 - Z.of_nat k)) c = Ok part
               /\ (d - 1 <= Z.of_nat k ->
                   row_line (indentation + 2, c) = Ok part)).
Proof.
  rewrite report_unfold.
  destruct (NodeText.__str__ n) as [me|e]; simpl bind; [|discriminate].
  destruct (0 <? d)%Z eqn:E.
  - apply Z.ltb_lt in E.
    destruct (report_children indentation (Node.children n) (Some d))
      as [rs|e] eqn:Ers; simpl bind; [|discriminate].
    intros [= <-]. exists me, rs. split; [reflexivity|].
    split; [reflexivity|]. split; [lia|]. intros _.
    destruct (report_children_depths _ _ _ _ Ers) as [Hlen Hk].
    split; [exact Hlen|]. intros k c Hc.
    destruct (Hk k c Hc) as (part & Hp & Hr). exists part.
    split; [exact Hp|]. split; [exact Hr|].
    intros Hle. rewrite <- Hr. symmetry. apply report_shallow. lia.
  - apply Z.ltb_ge in E. simpl bind. intros [= <-]. exists me, [].
    split; [reflexivity|]. split; [reflexivity|]. split; [reflexivity|]. lia.
Qed.

(** X15 at the second doctest of [report]: indentation 2 and depth 1. *)
Lemma report_depth_per_child_witness :
  exists s,
    NodeText.report 2 (Some 1) doc_root = Ok s
    /\ exists me parts,
         NodeText.__str__ doc_root = Ok me
         /\ s = String.concat newline ((spaces (Z.to_nat 2) ++ me) :: parts)
         /\ (1 <= 0 -> parts = [])
         /\ (0 < 1 ->
             length parts = length (Node.children doc_root)
             /\ forall k c, Node.children doc_root !! k = Some c ->
                  exists part,
                    parts !! k = Some part
                    /\ NodeText.report (2 + 2) (Some (1 - 1 - Z.of_nat k)) c
                       = Ok part
                    /\ (1 - 1 <= Z.of_nat k -> row_line (2 + 2, c) = Ok part)).
Proof.
  eexists. split; [vm_compute; reflexivity|].
  apply (report_depth_per_child 2 1 doc_root). vm_compute. reflexivity.
Defined.

(** ** Tracer: the base class traces nothing *)

Lemma context_labelled {T K : Type} (tr : Trace.Tracer T K) args kw :
  args <> [] -> exists l,
    Trace.context tr args kw
    = Ok {| Trace.tracer := tr; Trace.what := l; Trace.kwds := kw |}.
Proof.
  intros H. unfold Trace.context, Trace.__init__.
  destruct args as [|a [|b args]]; [congruence|eauto|eauto].
Qed.

Lemma exec_dummy {T K : Type} (p : Trace.stmt T K) :
  labelled_blocks p = true ->
  forall w : T * list Trace.event,
    (Trace.exec Trace.dummy_tracer p w).1.1 = (untraced p w.1).1
    /\ (Trace.exec Trace.dummy_tracer p w).2 = (untraced p w.1).2.
Proof.
  induction p as [f|a IHa b IHb|body IHb handler IHh|n body IH|args kw body IH];
    simpl; intros Hp w.
  - destruct (f w.1) as [s o]. split; reflexivity.
  - apply andb_prop in Hp as [Ha Hb].
    destruct (IHa Ha w) as [E1 E2].
    destruct (Trace.exec Trace.dummy_tracer a w) as [w1 o1].
    destruct (untraced a w.1) as [s1 o1']. simpl in E1, E2. subst o1'.
    destruct o1 as [e|]; simpl; [split; [exact E1|reflexivity]|].
    rewrite <- E1. apply (IHb Hb).
  - apply andb_prop in Hp as [Hb Hh].
    destruct (IHb Hb w) as [E1 E2].
    destruct (Trace.exec Trace.dummy_tracer body w) as [w1 o1].
    destruct (untraced body w.1) as [s1 o1']. simpl in E1, E2. subst o1'.
    destruct o1 as [e|]; simpl; [|split; [exact E1|reflexivity]].
    rewrite <- E1. apply (IHh Hh).
  - revert w. induction n as [|n IHn]; intros w; [split; reflexivity|].
    destruct (IH Hp w) as [E1 E2].
    destruct (Trace.exec Trace.dummy_tracer body w) as [w1 o1].
    destruct (untraced body w.1) as [s1 o1']. simpl in E1, E2. subst o1'.
    destruct o1 as [e|]; simpl; [split; [exact E1|reflexivity]|].
    rewrite <- E1. apply IHn.
  - destruct args as [|a args]; [discriminate|].
    destruct (context_labelled (@Trace.dummy_tracer T K) (a :: args) kw)
      as [l ->]; [discriminate|].
    unfold Trace.with_, Trace.__enter__, Trace.__exit__. simpl.
    destruct (IH Hp (w.1, (w.2 ++ [Trace.Enter l true])%list)) as [E1 E2].
    destruct (Trace.exec Trace.dummy_tracer body
                (w.1, (w.2 ++ [Trace.Enter l true])%list)) as [w2 o2].
    simpl in E1, E2. simpl. split; assumption.
Qed.

(** X16.  The base class [Tracer], and so [dummy_tracer], traces nothing:
    code run under it, whose [with] blocks all give a label, ends in the
    state and with the exception, if any, that it ends with when the
    [with] blocks are taken away.  (A block without a label raises
    [IndexError] when its context is made.) *)
Theorem dummy_tracer_is_transparent {T K : Type} (p : Trace.stmt T K)
    (s : T) (log : list Trace.event) :
  labelled_blocks p = true ->
  (Trace.exec Trace.dummy_tracer p (s, log)).1.1 = (untraced p s).1
  /\ (Trace.exec Trace.dummy_tracer p (s, log)).2 = (untraced p s).2.
Proof. intros H. apply (exec_dummy p H (s, log)). Qed.

(** X16 at a run whose inner block raises. *)
Lemma dummy_tracer_is_transparent_witness :
  (Trace.exec Trace.dummy_tracer raising_run (tt, [])).1.1
  = (untraced raising_run tt).1
  /\ (Trace.exec Trace.dummy_tracer raising_run (tt, [])).2
     = (untraced raising_run tt).2.
Proof.
  apply (dummy_tracer_is_transparent raising_run tt []). reflexivity.
Defined.

(** ** Cursors *)

Lemma split_first l cs :
  match Cursor.split_labelled l cs with
  | Some (ls, x, rs) =>
      Node.first_labelled l cs = Some (length ls, x)
      /\ cs = (ls ++ x :: rs)%list
  | None => Node.first_labelled l cs = None
  end.
Proof.
  induction cs as [|c cs IH]; simpl; [reflexivity|].
  destruct (label_eqb (Node.label c) l); [split; reflexivity|].
  destruct (Cursor.split_labelled l cs) as [[[ls x] rs]|].
  - destruct IH as [-> ->]. split; reflexivity.
  - rewrite IH. reflexivity.
Qed.

(** [Cursor.child] goes to the child that [Node.child] returns. *)
Lemma cursor_child_spec c l :
  exists n' i x,
    Node.child (Cursor.focus c) l = (n', i, x)
    /\ Node.children n' !! i = Some x
    /\ Node.label x = l
    /\ Cursor.child c l
       = {| Cursor.focus := x;
            Cursor.above :=
              {| Cursor.f_label := Node.label (Cursor.focus c);
                 Cursor.f_data := Node.data (Cursor.focus c);
                 Cursor.f_left := take i (Node.children n');
                 Cursor.f_right := drop (S i) (Node.children n') |}
              :: Cursor.above c |}.
Proof.
  unfold Node.child, Cursor.child.
  pose proof (split_first l (Node.children (Cursor.focus c))) as H.
  destruct (Cursor.split_labelled l (Node.children (Cursor.focus c)))
    as [[[ls x] rs]|].
  - destruct H as [Hf Hcs]. rewrite Hf. exists (Cursor.focus c), (length ls), x.
    split; [reflexivity|].
    split; [rewrite Hcs; apply list_lookup_middle; reflexivity|].
    split; [apply (first_labelled_Some _ _ _ _ Hf)|].
    f_equal. f_equal. rewrite Hcs. f_equal.
    + rewrite take_app_length. reflexivity.
    + rewrite (cons_middle x ls rs), app_assoc.
      rewrite drop_app_length'; [reflexivity|].
      rewrite length_app. simpl. lia.
  - rewrite H. eexists _, _, _. split; [reflexivity|]. simpl.
    split; [apply list_lookup_middle; reflexivity|].
    split; [reflexivity|].
    f_equal. f_equal. f_equal.
    + rewrite take_app_length. reflexivity.
    + symmetry. apply drop_ge. rewrite length_app. simpl. lia.
Qed.

(** Going to a child, giving it new data and going back up leaves the
    cursor where it was, with that child replaced. *)
Lemma cursor_visit c l :
  exists n' i x,
    Node.child (Cursor.focus c) l = (n', i, x)
    /\ Cursor.focus (Cursor.child c l) = x
    /\ Cursor.level (Cursor.child c l) = S (Cursor.level c)
    /\ forall d,
         Cursor.parent (Cursor.set_data d (Cursor.child c l))
         = Some {| Cursor.focus :=
                     Node.mk (Node.label (Cursor.focus c))
                       (Node.data (Cursor.focus c))
                       (<[i := Node.mk l d (Node.children x)]>
                          (Node.children n'));
                   Cursor.above := Cursor.above c |}.
Proof.
  destruct (cursor_child_spec c l) as (n' & i & x & Hc & Hi & Hl & ->).
  exists n', i, x. split; [exact Hc|]. split; [reflexivity|].
  split; [reflexivity|]. intros d.
  unfold Cursor.parent, Cursor.set_data, Cursor.plug. simpl. rewrite Hl.
  rewrite insert_take_drop by (eapply lookup_lt_Some, Hi). reflexivity.
Qed.

Section DataInvariantFacts.

Variable P : list (string * value) -> Prop.
Hypothesis P_nil : P [].

Lemma all_data_inv n :
  all_data P n -> P (Node.data n) /\ Forall (all_data P) (Node.children n).
Proof. intros H. inversion H. simpl. auto. Qed.

Lemma child_all_data c l :
  all_data_cursor P c -> all_data_cursor P (Cursor.child c l).
Proof.
  intros [Hf Ha]. apply all_data_inv in Hf as [Hd Hcs]. unfold Cursor.child.
  destruct (Cursor.split_labelled l (Node.children (Cursor.focus c)))
    as [[[ls x] rs]|] eqn:E.
  - apply split_labelled_app in E. rewrite E in Hcs.
    apply Forall_app in Hcs as [Hls Hx]. apply Forall_cons in Hx as [Hx Hrs].
    split; [exact Hx|]. constructor; [|exact Ha].
    split; [exact Hd|split; assumption].
  - split.
    + constructor; [apply P_nil|constructor].
    + constructor; [|exact Ha].
      split; [exact Hd|split; [exact Hcs|constructor]].
Qed.

Lemma set_data_all_data c d :
  all_data_cursor P c -> P d -> all_data_cursor P (Cursor.set_data d c).
Proof.
  intros [Hf Ha] Hd. apply all_data_inv in Hf as [_ Hcs].
  split; [constructor; assumption|exact Ha].
Qed.

Lemma parent_all_data c :
  all_data_cursor P c ->
  all_data_at P match Cursor.parent c with
                | Some p => BKZTreeTracer.At p
                | None => BKZTreeTracer.Off (Cursor.focus c)
                end.
Proof.
  intros [Hf Ha]. unfold Cursor.parent.
  destruct (Cursor.above c) as [|f fs]; [exact Hf|].
  apply Forall_cons in Ha as [(Hd & Hl & Hr) Hfs].
  split; [|exact Hfs]. simpl. constructor; [exact Hd|].
  apply Forall_app. split; [exact Hl|]. constructor; assumption.
Qed.

Lemma root_all_data c : all_data_cursor P c -> all_data P (Cursor.root c).
Proof.
  destruct c as [n fs]. revert n. unfold Cursor.root. simpl.
  induction fs as [|f fs IH]; intros n [Hf Ha]; simpl in *; [exact Hf|].
  apply Forall_cons in Ha as [(Hd & Hl & Hr) Hfs].
  apply IH. split; [|exact Hfs]. simpl. constructor; [exact Hd|].
  apply Forall_app. split; [exact Hl|]. constructor; assumption.
Qed.

End DataInvariantFacts.

(** ** TimeTreeTracer *)

Lemma numbers_get d t v : numbers d -> od_get t d = Some v -> exists x, v = VNum x.
Proof.
  intros H. induction H as [|[k w] d Hw _ IH]; [discriminate|].
  rewrite od_get_cons. destruct (String.eqb k t); [|exact IH].
  intros [= <-]. exact Hw.
Qed.

Lemma numbers_set d k x : numbers d -> numbers (od_set k (VNum x) d).
Proof.
  intros H. induction H as [|[k' w] d Hw Hd IH]; simpl.
  - constructor; [simpl; eauto|constructor].
  - destruct (String.eqb k' k); constructor; simpl; eauto.
Qed.

Lemma numbers_default d t :
  numbers d -> od_get_default t (VNum (PInt 0)) d = VNum (clock_of t d).
Proof.
  intros H. unfold od_get_default, clock_of.
  destruct (od_get t d) as [v|] eqn:E; [|reflexivity].
  destruct (numbers_get d t v H E) as [x ->]. reflexivity.
Qed.

Lemma numbers_printable d : numbers d -> printable_data d.
Proof.
  intros H. unfold printable_data. eapply Forall_impl; [exact H|].
  intros [k v] [x Hx]. simpl in *. subst v. exact I.
Qed.

Lemma clock_of_set_eq t x d : clock_of t (od_set t (VNum x) d) = x.
Proof. unfold clock_of. rewrite od_get_set_eq. reflexivity. Qed.

Lemma clock_of_set_ne t t' v d :
  t <> t' -> clock_of t' (od_set t v d) = clock_of t' d.
Proof. intros H. unfold clock_of. rewrite od_get_set_ne by exact H. reflexivity. Qed.

Lemma time_enter_data cpu wall d :
  numbers d ->
  TimeTreeTracer.enter_data cpu wall d
  = Ok (od_set "walltime" (VNum (num_sub (clock_of "walltime" d) wall))
          (od_set "cputime" (VNum (num_sub (clock_of "cputime" d) cpu)) d)).
Proof.
  intros H. unfold TimeTreeTracer.enter_data.
  rewrite (numbers_default d "cputime" H). simpl.
  rewrite (numbers_default _ "walltime" (numbers_set d "cputime" _ H)). simpl.
  rewrite clock_of_set_ne by discriminate. reflexivity.
Qed.

Lemma time_exit_data cpu wall d :
  numbers d ->
  TimeTreeTracer.exit_data cpu wall d
  = Ok (od_set "walltime" (VNum (num_add (clock_of "walltime" d) wall))
          (od_set "cputime" (VNum (num_add (clock_of "cputime" d) cpu)) d)).
Proof.
  intros H. unfold TimeTreeTracer.exit_data.
  rewrite (numbers_default d "cputime" H). simpl.
  rewrite (numbers_default _ "walltime" (numbers_set d "cputime" _ H)). simpl.
  rewrite clock_of_set_ne by discriminate. reflexivity.
Qed.

Lemma numbers_nil : numbers [].
Proof. constructor. Qed.

Lemma time_enter_numbers l cpu wall self self' :
  all_data_at numbers (TimeTreeTracer.current self) ->
  TimeTreeTracer.enter l cpu wall self = Ok self' ->
  all_data_at numbers (TimeTreeTracer.current self').
Proof.
  unfold TimeTreeTracer.enter.
  destruct (TimeTreeTracer.current self) as [c|n]; [|discriminate].
  simpl. intros Hc.
  pose proof (child_all_data numbers numbers_nil c l Hc) as Hch.
  pose proof (proj1 (all_data_inv numbers _ (proj1 Hch))) as Hd.
  rewrite (time_enter_data cpu wall _ Hd). simpl. intros [= <-]. simpl.
  apply set_data_all_data; [exact Hch|]. repeat apply numbers_set. exact Hd.
Qed.

Lemma time_exit_numbers cpu wall self self' :
  all_data_at numbers (TimeTreeTracer.current self) ->
  TimeTreeTracer.exit cpu wall self = Ok self' ->
  all_data_at numbers (TimeTreeTracer.current self').
Proof.
  unfold TimeTreeTracer.exit.
  destruct (TimeTreeTracer.current self) as [c|n]; [|discriminate].
  simpl. intros Hc.
  pose proof (proj1 (all_data_inv numbers _ (proj1 Hc))) as Hd.
  rewrite (time_exit_data cpu wall _ Hd). simpl.
  match goal with
  | |- bind ?m _ = _ -> _ => destruct m as [out|e]; simpl; [|discriminate]
  end.
  intros [= <-]. simpl. apply parent_all_data, set_data_all_data; [exact Hc|].
  repeat apply numbers_set. exact Hd.
Qed.

Lemma time_reachable_numbers self :
  time_reachable self -> all_data_at numbers (TimeTreeTracer.current self).
Proof.
  induction 1 as [verb|l cpu wall self self' _ IH He|cpu wall self self' _ IH He].
  - split; [constructor; [apply numbers_nil|constructor]|constructor].
  - exact (time_enter_numbers _ _ _ _ _ IH He).
  - exact (time_exit_numbers _ _ _ _ IH He).
Qed.

Lemma val_sub a b : val (num_sub a b) = (val a - val b)%Qc.
Proof. destruct a, b; simpl; try reflexivity. apply Z2Qc_inj_sub. Qed.

Lemma time_visit_data cpu0 wall0 cpu1 wall1 d :
  numbers d ->
  exists d1 d2,
    TimeTreeTracer.enter_data cpu0 wall0 d = Ok d1
    /\ numbers d1
    /\ TimeTreeTracer.exit_data cpu1 wall1 d1 = Ok d2
    /\ numbers d2
    /\ od_get "cputime" d2
       = Some (VNum (num_add (num_sub (clock_of "cputime" d) cpu0) cpu1))
    /\ od_get "walltime" d2
       = Some (VNum (num_add (num_sub (clock_of "walltime" d) wall0) wall1))
    /\ forall t, t <> "cputime" -> t <> "walltime" -> od_get t d2 = od_get t d.
Proof.
  intros H. eexists _, _. split; [apply time_enter_data, H|].
  assert (H1 : numbers
            (od_set "walltime" (VNum (num_sub (clock_of "walltime" d) wall0))
               (od_set "cputime" (VNum (num_sub (clock_of "cputime" d) cpu0)) d)))
    by (repeat apply numbers_set; exact H).
  split; [exact H1|]. split; [apply time_exit_data, H1|].
  split; [repeat apply numbers_set; exact H|].
  split.
  { rewrite od_get_set_ne by discriminate. rewrite od_get_set_eq.
    rewrite clock_of_set_ne by discriminate. rewrite clock_of_set_eq.
    reflexivity. }
  split.
  { rewrite od_get_set_eq, clock_of_set_eq. reflexivity. }
  intros t Hc Hw. rewrite !od_get_set_ne by congruence. reflexivity.
Qed.

(** X17.  A TimeTreeTracer adds the time spent in a context to its node.
    From any state at a node, [enter(l)] and then [exit()] return, and
    leave the tracer at the node it was at, with the child that [child(l)]
    gives replaced by a node of the same label and children whose entries
    "cputime" and "walltime" are what they were (0 when absent) less the
    clocks at [enter] plus the clocks at [exit], that is, more by the time
    between the two calls; its other entries, and the rest of the tree,
    are unchanged. *)
Theorem time_tracer_adds_elapsed (self : TimeTreeTracer.t) (c : Cursor.t)
    (l : Label) (cpu0 wall0 cpu1 wall1 : num) :
  time_reachable self ->
  TimeTreeTracer.current self = BKZTreeTracer.At c ->
  exists s1 s2 n' i x x',
    TimeTreeTracer.enter l cpu0 wall0 self = Ok s1
    /\ TimeTreeTracer.exit cpu1 wall1 s1 = Ok s2
    /\ Node.child (Cursor.focus c) l = (n', i, x)
    /\ TimeTreeTracer.current s2
       = BKZTreeTracer.At
           {| Cursor.focus :=
                Node.mk (Node.label (Cursor.focus c))
                  (Node.data (Cursor.focus c))
                  (<[i := x']> (Node.children n'));
              Cursor.above := Cursor.above c |}
    /\ Node.label x' = l
    /\ Node.children x' = Node.children x
    /\ od_get "cputime" (Node.data x')
       = Some (VNum (num_add (num_sub (clock_of "cputime" (Node.data x)) cpu0)
                       cpu1))
    /\ od_get "walltime" (Node.data x')
       = Some (VNum (num_add (num_sub (clock_of "walltime" (Node.data x)) wall0)
                       wall1))
    /\ val (clock_of "cputime" (Node.data x'))
       = (val (clock_of "cputime" (Node.data x)) + (val cpu1 - val cpu0))%Qc
    /\ val (clock_of "walltime" (Node.data x'))
       = (val (clock_of "walltime" (Node.data x)) + (val wall1 - val wall0))%Qc
    /\ forall t, t <> "cputime" -> t <> "walltime" ->
         od_get t (Node.data x') = od_get t (Node.data x).
Proof.
  intros Hr Hcur. pose proof (time_reachable_numbers self Hr) as Hnum.
  rewrite Hcur in Hnum. simpl in Hnum.
  pose proof (child_all_data numbers numbers_nil c l Hnum) as Hch.
  destruct (cursor_visit c l) as (n' & i & x & Hchild & Hfocus & _ & Hparent).
  pose proof (proj1 (all_data_inv numbers _ (proj1 Hch))) as Hdx.
  rewrite Hfocus in Hdx.
  destruct (time_visit_data cpu0 wall0 cpu1 wall1 _ Hdx)
    as (d1 & d2 & E1 & N1 & E2 & N2 & Gc & Gw & Go).
  destruct (str_ok (Node.mk (Node.label x) d2 (Node.children x))
              (numbers_printable _ N2)) as [line Hline].
  set (s1 := {| TimeTreeTracer.current :=
                  BKZTreeTracer.At (Cursor.set_data d1 (Cursor.child c l));
                TimeTreeTracer.verbosity := TimeTreeTracer.verbosity self;
                TimeTreeTracer.printed := TimeTreeTracer.printed self |}).
  assert (Hexit : exists s2,
            TimeTreeTracer.exit cpu1 wall1 s1 = Ok s2
            /\ TimeTreeTracer.current s2
               = BKZTreeTracer.At
                   {| Cursor.focus :=
                        Node.mk (Node.label (Cursor.focus c))
                          (Node.data (Cursor.focus c))
                          (<[i := Node.mk l d2 (Node.children x)]>
                             (Node.children n'));
                      Cursor.above := Cursor.above c |}).
  { unfold TimeTreeTracer.exit, s1. cbn [TimeTreeTracer.current].
    cbn [Cursor.set_data Cursor.focus Node.data]. rewrite E2. cbn [bind].
    rewrite Hfocus. cbn [Node.label Node.children]. rewrite Hline.
    change (Cursor.set_data d2 (Cursor.set_data d1 (Cursor.child c l)))
      with (Cursor.set_data d2 (Cursor.child c l)).
    rewrite Hparent.
    match goal with
    | |- exists _, bind (if ?b then _ else _) _ = _ /\ _ => destruct b
    end; eexists; split; reflexivity. }
  destruct Hexit as (s2 & Hexit & Hcur2).
  exists s1, s2, n', i, x, (Node.mk l d2 (Node.children x)).
  split.
  { unfold TimeTreeTracer.enter. rewrite Hcur. cbv zeta. rewrite Hfocus, E1.
    reflexivity. }
  split; [exact Hexit|].
  split; [exact Hchild|].
  split; [exact Hcur2|].
  split; [reflexivity|]. split; [reflexivity|].
  split; [exact Gc|]. split; [exact Gw|].
  split.
  { unfold clock_of at 1. cbn [Node.data]. rewrite Gc, val_add, val_sub. ring. }
  split.
  { unfold clock_of at 1. cbn [Node.data]. rewrite Gw, val_add, val_sub. ring. }
  exact Go.
Qed.

(** X17 at a new tracer: a context "tour" entered with the clocks at 1
    and 2, and left with the clocks at 3 and 5. *)
Lemma time_tracer_adds_elapsed_witness :
  exists s1 s2 n' i x x',
    TimeTreeTracer.enter (LStr "tour") (PInt 1) (PInt 2) time_tracer_new = Ok s1
    /\ TimeTreeTracer.exit (PInt 3) (PInt 5) s1 = Ok s2
    /\ Node.child (Cursor.focus (at_root (Node.__init__ (LStr "root") [])))
         (LStr "tour") = (n', i, x)
    /\ TimeTreeTracer.current s2
       = BKZTreeTracer.At
           {| Cursor.focus :=
                Node.mk
                  (Node.label
                     (Cursor.focus (at_root (Node.__init__ (LStr "root") []))))
                  (Node.data
                     (Cursor.focus (at_root (Node.__init__ (LStr "root") []))))
                  (<[i := x']> (Node.children n'));
              Cursor.above :=
                Cursor.above (at_root (Node.__init__ (LStr "root") [])) |}
    /\ Node.label x' = LStr "tour"
    /\ Node.children x' = Node.children x
    /\ od_get "cputime" (Node.data x')
       = Some (VNum (num_add
                       (num_sub (clock_of "cputime" (Node.data x)) (PInt 1))
                       (PInt 3)))
    /\ od_get "walltime" (Node.data x')
       = Some (VNum (num_add
                       (num_sub (clock_of "walltime" (Node.data x)) (PInt 2))
                       (PInt 5)))
    /\ val (clock_of "cputime" (Node.data x'))
       = (val (clock_of "cputime" (Node.data x))
          + (val (PInt 3) - val (PInt 1)))%Qc
    /\ val (clock_of "walltime" (Node.data x'))
       = (val (clock_of "walltime" (Node.data x))
          + (val (PInt 5) - val (PInt 2)))%Qc
    /\ forall t, t <> "cputime" -> t <> "walltime" ->
         od_get t (Node.data x') = od_get t (Node.data x).
Proof.
  apply (time_tracer_adds_elapsed time_tracer_new
           (at_root (Node.__init__ (LStr "root") [])) (LStr "tour")
           (PInt 1) (PInt 2) (PInt 3) (PInt 5)).
  - apply time_init.
  - reflexivity.
Defined.

Lemma time_exit_at cpu wall self c :
  TimeTreeTracer.current self = BKZTreeTracer.At c ->
  numbers (Node.data (Cursor.focus c)) ->
  exists d line s',
    TimeTreeTracer.exit_data cpu wall (Node.data (Cursor.focus c)) = Ok d
    /\ NodeText.__str__
         (Node.mk (Node.label (Cursor.focus c)) d (Node.children (Cursor.focus c)))
       = Ok line
    /\ TimeTreeTracer.exit cpu wall self = Ok s'
    /\ TimeTreeTracer.current s'
       = match Cursor.parent (Cursor.set_data d c) with
         | Some p => BKZTreeTracer.At p
         | None => BKZTreeTracer.Off (Cursor.focus (Cursor.set_data d c))
         end
    /\ TimeTreeTracer.printed s'
       = if negb (TimeTreeTracer.verbosity self =? 0)%Z
            && (Z.of_nat (Cursor.level c) <=? TimeTreeTracer.verbosity self)%Z
         then (TimeTreeTracer.printed self ++ [line])%list
         else TimeTreeTracer.printed self.
Proof.
  intros Hcur Hd.
  pose proof (time_exit_data cpu wall _ Hd) as E.
  set (d := od_set "walltime" _ _) in E.
  assert (Nd : numbers d) by (unfold d; repeat apply numbers_set; exact Hd).
  destruct (str_ok (Node.mk (Node.label (Cursor.focus c)) d
                      (Node.children (Cursor.focus c)))
              (numbers_printable _ Nd)) as [line Hline].
  exists d, line. unfold TimeTreeTracer.exit. rewrite Hcur, E. cbn [bind].
  cbv zeta. cbn [Cursor.set_data Cursor.focus]. rewrite Hline.
  change (Cursor.level (Cursor.set_data d c)) with (Cursor.level c).
  destruct (negb (TimeTreeTracer.verbosity self =? 0)%Z
            && (Z.of_nat (Cursor.level c) <=? TimeTreeTracer.verbosity self)%Z);
    eexists; repeat split; reflexivity.
Qed.

(** X18.  A TimeTreeTracer does not fail while it is in its tree.  In
    every state it goes through, all the values of the tree are numbers;
    at a node, [enter] returns, one level down at a node with the label,
    and prints nothing; [exit] returns, one level up, or at no node when
    it was at the root, and has printed the node left, with its times
    added, exactly when the verbosity is not 0 and at least the level of
    the node.  Once the root was left, [enter] and [exit] raise
    [AttributeError]. *)
Theorem time_tracer_never_fails (self : TimeTreeTracer.t) :
  time_reachable self ->
  all_data numbers (TimeTreeTracer.trace self)
  /\ match TimeTreeTracer.current self with
     | BKZTreeTracer.At c =>
         (forall l cpu wall, exists s' c',
            TimeTreeTracer.enter l cpu wall self = Ok s'
            /\ TimeTreeTracer.current s' = BKZTreeTracer.At c'
            /\ Node.label (Cursor.focus c') = l
            /\ Cursor.level c' = S (Cursor.level c)
            /\ TimeTreeTracer.printed s' = TimeTreeTracer.printed self)
         /\ (forall cpu wall, exists s' d line,
               TimeTreeTracer.exit cpu wall self = Ok s'
               /\ TimeTreeTracer.exit_data cpu wall (Node.data (Cursor.focus c))
                  = Ok d
               /\ NodeText.__str__
                    (Node.mk (Node.label (Cursor.focus c)) d
                       (Node.children (Cursor.focus c))) = Ok line
               /\ TimeTreeTracer.printed s'
                  = (if negb (TimeTreeTracer.verbosity self =? 0)%Z
                        && (Z.of_nat (Cursor.level c)
                            <=? TimeTreeTracer.verbosity self)%Z
                     then (TimeTreeTracer.printed self ++ [line])%list
                     else TimeTreeTracer.printed self)
               /\ match Cursor.level c with
                  | O => exists n, TimeTreeTracer.current s' = BKZTreeTracer.Off n
                  | S k =>
                      exists c', TimeTreeTracer.current s' = BKZTreeTracer.At c'
                        /\ Cursor.level c' = k
                  end)
     | BKZTreeTracer.Off _ =>
         forall l cpu wall,
           TimeTreeTracer.enter l cpu wall self = Raise AttributeError
           /\ TimeTreeTracer.exit cpu wall self = Raise AttributeError
     end.
Proof.
  intros Hr. pose proof (time_reachable_numbers self Hr) as Hnum.
  split.
  { unfold TimeTreeTracer.trace.
    destruct (TimeTreeTracer.current self) as [c|n]; [|exact Hnum].
    apply root_all_data, Hnum. }
  destruct (TimeTreeTracer.current self) as [c|n] eqn:Hcur.
  - simpl in Hnum. split.
    + intros l cpu wall.
      pose proof (child_all_data numbers numbers_nil c l Hnum) as Hch.
      pose proof (proj1 (all_data_inv numbers _ (proj1 Hch))) as Hd.
      destruct (cursor_visit c l) as (n' & i & x & Hchild & Hfocus & Hlev & _).
      destruct (cursor_child_spec c l) as (n'' & i' & x' & Hc' & _ & Hl & Hcc).
      eexists _, _. unfold TimeTreeTracer.enter. rewrite Hcur. cbv zeta.
      rewrite (time_enter_data cpu wall _ Hd). cbn [bind].
      split; [reflexivity|]. cbn [TimeTreeTracer.current].
      split; [reflexivity|]. cbn [Cursor.set_data Cursor.focus Node.label].
      split; [rewrite Hcc; exact Hl|]. split; [exact Hlev|reflexivity].
    + intros cpu wall.
      destruct (time_exit_at cpu wall self c Hcur
                  (proj1 (all_data_inv numbers _ (proj1 Hnum))))
        as (d & line & s' & Ed & Hline & Hexit & Hcur' & Hpr).
      exists s', d, line. split; [exact Hexit|]. split; [exact Ed|].
      split; [exact Hline|]. split; [exact Hpr|].
      rewrite Hcur'. unfold Cursor.parent, Cursor.level.
      cbn [Cursor.set_data Cursor.above].
      destruct (Cursor.above c) as [|f fs]; simpl; eauto.
  - intros l cpu wall. unfold TimeTreeTracer.enter, TimeTreeTracer.exit.
    rewrite Hcur. split; reflexivity.
Qed.

(** X18 at a new tracer. *)
Lemma time_tracer_never_fails_witness :
  all_data numbers (TimeTreeTracer.trace time_tracer_new)
  /\ match TimeTreeTracer.current time_tracer_new with
     | BKZTreeTracer.At c =>
         (forall l cpu wall, exists s' c',
            TimeTreeTracer.enter l cpu wall time_tracer_new = Ok s'
            /\ TimeTreeTracer.current s' = BKZTreeTracer.At c'
            /\ Node.label (Cursor.focus c') = l
            /\ Cursor.level c' = S (Cursor.level c)
            /\ TimeTreeTracer.printed s' = TimeTreeTracer.printed time_tracer_new)
         /\ (forall cpu wall, exists s' d line,
               TimeTreeTracer.exit cpu wall time_tracer_new = Ok s'
               /\ TimeTreeTracer.exit_data cpu wall (Node.data (Cursor.focus c))
                  = Ok d
               /\ NodeText.__str__
                    (Node.mk (Node.label (Cursor.focus c)) d
                       (Node.children (Cursor.focus c))) = Ok line
               /\ TimeTreeTracer.printed s'
                  = (if negb (TimeTreeTracer.verbosity time_tracer_new =? 0)%Z
                        && (Z.of_nat (Cursor.level c)
                            <=? TimeTreeTracer.verbosity time_tracer_new)%Z
                     then (TimeTreeTracer.printed time_tracer_new ++ [line])%list
                     else TimeTreeTracer.printed time_tracer_new)
               /\ match Cursor.level c with
                  | O => exists n, TimeTreeTracer.current s' = BKZTreeTracer.Off n
                  | S k =>
                      exists c', TimeTreeTracer.current s' = BKZTreeTracer.At c'
                        /\ Cursor.level c' = k
                  end)
     | BKZTreeTracer.Off _ =>
         forall l cpu wall,
           TimeTreeTracer.enter l cpu wall time_tracer_new = Raise AttributeError
           /\ TimeTreeTracer.exit cpu wall time_tracer_new = Raise AttributeError
     end.
Proof. apply (time_tracer_never_fails time_tracer_new), time_init. Defined.

(** ** The trees of the tracers are as [child] builds them *)

Lemma wf_inv n :
  wf n -> od_wf (Node.data n) /\ NoDup (map Node.label (Node.children n))
          /\ Forall wf (Node.children n).
Proof. intros H. inversion H. simpl. auto. Qed.

Lemma wf_child c l : wf_cursor c -> wf_cursor (Cursor.child c l).
Proof.
  intros [Hf Ha]. apply wf_inv in Hf as (Hd & Hnd & Hcs). unfold Cursor.child.
  pose proof (split_first l (Node.children (Cursor.focus c))) as Hs.
  destruct (Cursor.split_labelled l (Node.children (Cursor.focus c)))
    as [[[ls x] rs]|].
  - destruct Hs as [_ Hs]. rewrite Hs in Hnd, Hcs.
    apply Forall_app in Hcs as [Hls Hx]. apply Forall_cons in Hx as [Hx Hrs].
    rewrite map_app in Hnd. simpl in Hnd.
    split; [exact Hx|]. simpl. split; [|exact Ha].
    split; [exact Hd|]. split; [exact Hnd|]. split; assumption.
  - split; [constructor; constructor|]. simpl. split; [|exact Ha].
    split; [exact Hd|]. split; [|split; [exact Hcs|constructor]].
    simpl. apply NoDup_app. split; [exact Hnd|].
    split; [|apply NoDup_singleton].
    intros y Hy Hl. apply list_elem_of_singleton in Hl. subst y.
    exact (label_not_in_children _ _ Hs Hy).
Qed.

Lemma wf_set_data c d : wf_cursor c -> od_wf d -> wf_cursor (Cursor.set_data d c).
Proof.
  intros [Hf Ha] Hd. apply wf_inv in Hf as (_ & Hnd & Hcs).
  split; [constructor; assumption|exact Ha].
Qed.

Lemma wf_plug below_node f :
  wf below_node -> wf_frame (Node.label below_node) f ->
  wf (Cursor.plug f below_node).
Proof.
  intros Hn (Hd & Hnd & Hl & Hr). unfold Cursor.plug. constructor.
  - exact Hd.
  - rewrite map_app. exact Hnd.
  - apply Forall_app. split; [exact Hl|]. constructor; assumption.
Qed.

Lemma wf_parent c :
  wf_cursor c ->
  wf_at match Cursor.parent c with
        | Some p => BKZTreeTracer.At p
        | None => BKZTreeTracer.Off (Cursor.focus c)
        end.
Proof.
  intros [Hf Ha]. unfold Cursor.parent.
  destruct (Cursor.above c) as [|f fs]; [exact Hf|].
  destruct Ha as [Hfr Hfs]. split; [apply wf_plug; assumption|exact Hfs].
Qed.

Lemma wf_root c : wf_cursor c -> wf (Cursor.root c).
Proof.
  destruct c as [n fs]. revert n. unfold Cursor.root, wf_cursor. simpl.
  induction fs as [|f fs IH]; intros n [Hf Ha]; simpl in *; [exact Hf|].
  destruct Ha as [Hfr Hfs]. apply IH. split; [apply wf_plug; assumption|].
  exact Hfs.
Qed.

Lemma od_wf_nil : od_wf [].
Proof. constructor. Qed.

Lemma reenter_data_wf cpu wall d d' :
  od_wf d -> BKZTreeTracer.reenter_data cpu wall d = Ok d' -> od_wf d'.
Proof.
  intros Hd. unfold BKZTreeTracer.reenter_data.
  destruct (vadd _ _) as [c|]; simpl; [|discriminate].
  destruct (vadd _ _) as [w|]; simpl; [|discriminate].
  intros [= <-]. repeat apply od_set_wf. exact Hd.
Qed.

Lemma exit_clocks_wf cpu wall d d' :
  od_wf d -> BKZTreeTracer.exit_clocks cpu wall d = Ok d' -> od_wf d'.
Proof.
  intros Hd. unfold BKZTreeTracer.exit_clocks.
  destruct (od_getitem "cputime" d) as [c0|]; simpl; [|discriminate].
  destruct (vadd c0 _) as [c|]; simpl; [|discriminate].
  destruct (od_getitem "walltime" _) as [w0|]; simpl; [|discriminate].
  destruct (vadd w0 _) as [w|]; simpl; [|discriminate].
  intros [= <-]. repeat apply od_set_wf. exact Hd.
Qed.

Lemma exit_enumeration_wf env d d' :
  od_wf d -> BKZTreeTracer.exit_enumeration env d = Ok d' -> od_wf d'.
Proof.
  intros Hd. unfold BKZTreeTracer.exit_enumeration.
  destruct (BKZTreeTracer.e_full env); [|intros [= <-]; exact Hd].
  destruct (BKZTreeTracer.e_enum_nodes env) as [n|]; [|discriminate].
  destruct (Statistic.__add__ _ _) as [e|]; simpl; [|discriminate].
  destruct (BKZTreeTracer.e_probability env) as [p|];
    [|intros [= <-]; apply od_set_wf, Hd].
  destruct (Statistic.__add__ _ _) as [q|]; simpl; [|discriminate].
  intros [= <-]. repeat apply od_set_wf. exact Hd.
Qed.

Lemma exit_tour_wf env d : od_wf d -> od_wf (BKZTreeTracer.exit_tour env d).
Proof.
  intros Hd. unfold BKZTreeTracer.exit_tour. repeat apply od_set_wf. exact Hd.
Qed.

(** What [exit] does, step by step: [Q0] is known of the data before,
    the addition of the clocks takes [Q0] to [Q], and the other steps keep
    [Q]. *)
Lemma exit_steps (Q0 Q : list (string * value) -> Prop) env self c self' :
  BKZTreeTracer.current self = BKZTreeTracer.At c ->
  BKZTreeTracer.exit env self = Ok self' ->
  Q0 (Node.data (Cursor.focus c)) ->
  (forall d d', Q0 d ->
     BKZTreeTracer.exit_clocks (BKZTreeTracer.e_cpu env)
       (BKZTreeTracer.e_wall env) d = Ok d' -> Q d') ->
  (forall d d', Q d -> BKZTreeTracer.exit_enumeration env d = Ok d' -> Q d') ->
  (forall d, Q d -> Q (BKZTreeTracer.exit_tour env d)) ->
  exists d,
    Q d
    /\ BKZTreeTracer.current self'
       = match Cursor.parent (Cursor.set_data d c) with
         | Some p => BKZTreeTracer.At p
         | None => BKZTreeTracer.Off (Cursor.focus (Cursor.set_data d c))
         end
    /\ BKZTreeTracer.verbosity self' = BKZTreeTracer.verbosity self.
Proof.
  intros Hcur He H0 Hclocks Henum Htour. unfold BKZTreeTracer.exit in He.
  rewrite Hcur in He.
  destruct (BKZTreeTracer.exit_clocks _ _ _) as [d1|] eqn:E1; simpl in He;
    [|discriminate].
  pose proof (Hclocks _ _ H0 E1) as H1.
  assert (H2 : forall d2,
             (if label_eqb (Node.label (Cursor.focus c)) (LStr "enumeration")
              then BKZTreeTracer.exit_enumeration env d1 else Ok d1) = Ok d2 ->
             Q d2).
  { intros d2. destruct (label_eqb _ _).
    - apply Henum, H1.
    - intros [= <-]. exact H1. }
  destruct (if label_eqb (Node.label (Cursor.focus c)) (LStr "enumeration")
            then BKZTreeTracer.exit_enumeration env d1 else Ok d1)
    as [d2|]; simpl in He; [|discriminate].
  specialize (H2 d2 eq_refl).
  destruct (BKZTreeTracer.label_first _) as [first|]; simpl in He;
    [|discriminate].
  set (d3 := if label_eqb first (LStr "tour")
             then BKZTreeTracer.exit_tour env d2 else d2) in *.
  assert (H3 : Q d3).
  { unfold d3. destruct (label_eqb first (LStr "tour")); [apply Htour|];
      exact H2. }
  destruct (if negb (BKZTreeTracer.verbosity self =? 0)%Z
               && label_eqb first (LStr "tour")
            then match BKZTreeTracer.e_report env with
                 | Some e => Raise e
                 | None => Ok tt
                 end
            else Ok tt); simpl in He; [|discriminate].
  injection He as <-. exists d3. split; [exact H3|]. split; reflexivity.
Qed.

Lemma reenter_wf cpu wall self self' :
  wf_at (BKZTreeTracer.current self) ->
  BKZTreeTracer.reenter cpu wall self = Ok self' ->
  wf_at (BKZTreeTracer.current self').
Proof.
  unfold BKZTreeTracer.reenter.
  destruct (BKZTreeTracer.current self) as [c|n]; [|discriminate].
  intros Hc.
  destruct (BKZTreeTracer.reenter_data _ _ _) as [d|] eqn:E; simpl;
    [|discriminate].
  intros [= <-]. simpl. apply wf_set_data; [exact Hc|].
  apply (reenter_data_wf _ _ _ _ (proj1 (wf_inv _ (proj1 Hc))) E).
Qed.

Lemma reachable_wf self : reachable self -> wf_at (BKZTreeTracer.current self).
Proof.
  induction 1 as [verb l clocks self Hi|l cpu wall self self' _ IH He
                 |cpu wall self self' _ IH He|env self self' _ IH He].
  - unfold BKZTreeTracer.__init__ in Hi.
    assert (H0 : wf_at (BKZTreeTracer.current
              {| BKZTreeTracer.current :=
                   BKZTreeTracer.At {| Cursor.focus := Node.__init__ l [];
                                       Cursor.above := [] |};
                 BKZTreeTracer.verbosity := verb |})).
    { split; [constructor; constructor|exact I]. }
    destruct clocks as [[cpu wall]|].
    + exact (reenter_wf _ _ _ _ H0 Hi).
    + injection Hi as <-. exact H0.
  - unfold BKZTreeTracer.enter in He.
    destruct (BKZTreeTracer.current self) as [c|n] eqn:Hcur; [|discriminate].
    refine (reenter_wf _ _ _ _ _ He). exact (wf_child c l IH).
  - exact (reenter_wf _ _ _ _ IH He).
  - destruct (BKZTreeTracer.current self) as [c|n] eqn:Hcur;
      [|unfold BKZTreeTracer.exit in He; rewrite Hcur in He; discriminate].
    destruct (exit_steps od_wf od_wf env self c self' Hcur He
                (proj1 (wf_inv _ (proj1 IH))))
      as (d & Hd & -> & _).
    + intros d d'. apply exit_clocks_wf.
    + intros d d'. apply exit_enumeration_wf.
    + intros d. apply exit_tour_wf.
    + apply wf_parent, wf_set_data; assumption.
Qed.

Lemma time_reachable_wf self :
  time_reachable self -> wf_at (TimeTreeTracer.current self).
Proof.
  induction 1 as [verb|l cpu wall self self' _ IH He|cpu wall self self' _ IH He].
  - split; [constructor; constructor|exact I].
  - unfold TimeTreeTracer.enter in He.
    destruct (TimeTreeTracer.current self) as [c|n]; [|discriminate].
    cbv zeta in He. unfold TimeTreeTracer.enter_data in He.
    destruct (vsub _ _) as [x|]; simpl in He; [|discriminate].
    destruct (vsub _ _) as [y|]; simpl in He; [|discriminate].
    injection He as <-. simpl.
    pose proof (wf_child c l IH) as Hch.
    apply wf_set_data; [exact Hch|]. repeat apply od_set_wf.
    apply (wf_inv _ (proj1 Hch)).
  - unfold TimeTreeTracer.exit in He.
    destruct (TimeTreeTracer.current self) as [c|n]; [|discriminate].
    unfold TimeTreeTracer.exit_data in He.
    destruct (vadd _ _) as [x|]; simpl in He; [|discriminate].
    destruct (vadd _ _) as [y|]; simpl in He; [|discriminate].
    match type of He with
    | bind ?m _ = _ => destruct m as [out|]; simpl in He; [|discriminate]
    end.
    injection He as <-. simpl. apply wf_parent, wf_set_data; [exact IH|].
    repeat apply od_set_wf. apply (wf_inv _ (proj1 IH)).
Qed.

(** X19.  The tree of a tracer is always as [child] builds it: in every
    state a BKZTreeTracer or a TimeTreeTracer goes through, no node of
    [self.trace] has two children with the same label, nor two entries
    with the same key.  (This is what [merge] asks of the tree merged
    in.) *)
Theorem tracer_trees_are_wf :
  (forall self, reachable self -> wf (BKZTreeTracer.trace self))
  /\ (forall self, time_reachable self -> wf (TimeTreeTracer.trace self)).
Proof.
  split; intros self Hr.
  - pose proof (reachable_wf self Hr) as H. unfold BKZTreeTracer.trace.
    destruct (BKZTreeTracer.current self) as [c|n]; [apply wf_root|]; exact H.
  - pose proof (time_reachable_wf self Hr) as H. unfold TimeTreeTracer.trace.
    destruct (TimeTreeTracer.current self) as [c|n]; [apply wf_root|]; exact H.
Qed.

(** ** BKZTreeTracer: the clocks and the entries of [exit] *)

Lemma reenter_data_clocked cpu wall d d' :
  timed_data d -> BKZTreeTracer.reenter_data cpu wall d = Ok d' -> clocked d'.
Proof.
  intros [Ac Aw] E.
  destruct (reenter_data_spec cpu wall d Ac Aw)
    as (d'' & sc & sw & _ & _ & Ed & Gc & Gw & _).
  rewrite Ed in E. injection E as <-. exists sc, sw. auto.
Qed.

Lemma entered_above_tail d d' fs :
  entered_above d fs -> clocked d' -> entered_above d' fs.
Proof. destruct fs as [|f fs]; simpl; [auto|]. intros [_ H] Hd. auto. Qed.

Lemma reenter_entered cpu wall self self' :
  timed_tracer self -> entered_at (BKZTreeTracer.current self) ->
  BKZTreeTracer.reenter cpu wall self = Ok self' ->
  entered_at (BKZTreeTracer.current self').
Proof.
  unfold timed_tracer, BKZTreeTracer.reenter.
  destruct (BKZTreeTracer.current self) as [c|n]; [|discriminate].
  intros Ht He.
  destruct (BKZTreeTracer.reenter_data _ _ _) as [d|] eqn:E; simpl;
    [|discriminate].
  intros [= <-]. simpl. apply (entered_above_tail _ _ _ He).
  apply (reenter_data_clocked _ _ _ _ (proj1 (timed_inv _ (proj1 Ht))) E).
Qed.

Lemma reachable_entered self :
  reachable self -> entered_at (BKZTreeTracer.current self).
Proof.
  induction 1 as [verb l clocks self Hi|l cpu wall self self' Hr IH He
                 |cpu wall self self' Hr IH He|env self self' Hr IH He].
  - unfold BKZTreeTracer.__init__ in Hi. destruct clocks as [[cpu wall]|].
    + unfold BKZTreeTracer.reenter in Hi. simpl in Hi.
      injection Hi as <-. exact I.
    + injection Hi as <-. exact I.
  - pose proof (reachable_timed _ Hr) as Ht. unfold timed_tracer in Ht.
    unfold BKZTreeTracer.enter in He.
    destruct (BKZTreeTracer.current self) as [c|n] eqn:Hcur; [|discriminate].
    pose proof (child_timed c l Ht) as Hch.
    unfold BKZTreeTracer.reenter in He. simpl in He.
    destruct (BKZTreeTracer.reenter_data _ _ _) as [d|] eqn:E; simpl in He;
      [|discriminate].
    injection He as <-. simpl.
    pose proof (reenter_data_clocked _ _ _ _
                  (proj1 (timed_inv _ (proj1 Hch))) E) as Hd.
    simpl in IH. unfold Cursor.child.
    destruct (Cursor.split_labelled l (Node.children (Cursor.focus c)))
      as [[[ls x] rs]|]; simpl; auto.
  - exact (reenter_entered _ _ _ _ (reachable_timed _ Hr) IH He).
  - destruct (BKZTreeTracer.current self) as [c|n] eqn:Hcur;
      [|unfold BKZTreeTracer.exit in He; rewrite Hcur in He; discriminate].
    destruct (exit_steps (fun _ => True) (fun _ => True) env self c self'
                Hcur He I)
      as (d & _ & -> & _); auto.
    simpl in IH. unfold Cursor.parent. simpl.
    destruct (Cursor.above c) as [|f fs]; [exact I|]. simpl. apply IH.
Qed.

Lemma stat_entry_set_ne mode k k' v d :
  k <> k' -> stat_entry mode (od_get k' (od_set k v d)) = stat_entry mode (od_get k' d).
Proof. intros H. rewrite od_get_set_ne by exact H. reflexivity. Qed.

Lemma enum_data_set k v d :
  k <> "#enum" -> k <> "%" -> enum_data d -> enum_data (od_set k v d).
Proof.
  intros H1 H2 [He Hp]. split; rewrite od_get_set_ne by assumption; assumption.
Qed.

Lemma enum_data_nil : enum_data [].
Proof. split; exact I. Qed.

Lemma reenter_data_enum cpu wall d d' :
  enum_data d -> BKZTreeTracer.reenter_data cpu wall d = Ok d' -> enum_data d'.
Proof.
  intros Hd. unfold BKZTreeTracer.reenter_data.
  destruct (vadd _ _) as [c|]; simpl; [|discriminate].
  destruct (vadd _ _) as [w|]; simpl; [|discriminate].
  intros [= <-]. repeat (apply enum_data_set; [discriminate|discriminate|]).
  exact Hd.
Qed.

Lemma exit_clocks_enum cpu wall d d' :
  enum_data d -> BKZTreeTracer.exit_clocks cpu wall d = Ok d' -> enum_data d'.
Proof.
  intros Hd. unfold BKZTreeTracer.exit_clocks.
  destruct (od_getitem "cputime" d) as [c0|]; simpl; [|discriminate].
  destruct (vadd c0 _) as [c|]; simpl; [|discriminate].
  destruct (od_getitem "walltime" _) as [w0|]; simpl; [|discriminate].
  destruct (vadd w0 _) as [w|]; simpl; [|discriminate].
  intros [= <-]. repeat (apply enum_data_set; [discriminate|discriminate|]).
  exact Hd.
Qed.

Lemma plus_keeps_mode s other r :
  Statistic.__add__ s other = Ok r -> Statistic._repr r = Statistic._repr s.
Proof.
  destruct other as [|x|o]; simpl.
  - intros [= <-]. reflexivity.
  - intros [= <-]. reflexivity.
  - destruct (negb (String.eqb (Statistic._repr s) (Statistic._repr o)));
      [discriminate|]. intros [= <-]. reflexivity.
Qed.

Lemma exit_enumeration_enum env d d' :
  enum_data d -> BKZTreeTracer.exit_enumeration env d = Ok d' -> enum_data d'.
Proof.
  intros [He Hp]. unfold BKZTreeTracer.exit_enumeration.
  destruct (BKZTreeTracer.e_full env); [|intros [= <-]; split; assumption].
  destruct (BKZTreeTracer.e_enum_nodes env) as [n|]; [|discriminate].
  destruct (Statistic.__add__ _ _) as [e|] eqn:Ee; simpl; [|discriminate].
  apply plus_keeps_mode in Ee. simpl in Ee.
  assert (H1 : enum_data (od_set "#enum" (VStat e) d)).
  { split; [rewrite od_get_set_eq; exact Ee|].
    rewrite od_get_set_ne by discriminate. exact Hp. }
  destruct (BKZTreeTracer.e_probability env) as [p|]; [|intros [= <-]; exact H1].
  destruct (Statistic.__add__ _ _) as [q|] eqn:Eq; simpl; [|discriminate].
  apply plus_keeps_mode in Eq. simpl in Eq.
  intros [= <-]. split; [|rewrite od_get_set_eq; exact Eq].
  rewrite od_get_set_ne by discriminate. apply H1.
Qed.

Lemma exit_tour_enum env d : enum_data d -> enum_data (BKZTreeTracer.exit_tour env d).
Proof.
  intros Hd. unfold BKZTreeTracer.exit_tour.
  repeat (apply enum_data_set; [discriminate|discriminate|]). exact Hd.
Qed.

Lemma reenter_enum cpu wall self self' :
  all_data_at enum_data (BKZTreeTracer.current self) ->
  BKZTreeTracer.reenter cpu wall self = Ok self' ->
  all_data_at enum_data (BKZTreeTracer.current self').
Proof.
  unfold BKZTreeTracer.reenter.
  destruct (BKZTreeTracer.current self) as [c|n]; [|discriminate].
  intros Hc.
  destruct (BKZTreeTracer.reenter_data _ _ _) as [d|] eqn:E; simpl;
    [|discriminate].
  intros [= <-]. simpl. apply set_data_all_data; [exact Hc|].
  apply (reenter_data_enum _ _ _ _
           (proj1 (all_data_inv enum_data _ (proj1 Hc))) E).
Qed.

Lemma reachable_enum self :
  reachable self -> all_data_at enum_data (BKZTreeTracer.current self).
Proof.
  induction 1 as [verb l clocks self Hi|l cpu wall self self' _ IH He
                 |cpu wall self self' _ IH He|env self self' _ IH He].
  - unfold BKZTreeTracer.__init__ in Hi.
    assert (H0 : all_data_at enum_data (BKZTreeTracer.current
              {| BKZTreeTracer.current :=
                   BKZTreeTracer.At {| Cursor.focus := Node.__init__ l [];
                                       Cursor.above := [] |};
                 BKZTreeTracer.verbosity := verb |})).
    { split; [constructor; [apply enum_data_nil|constructor]|constructor]. }
    destruct clocks as [[cpu wall]|].
    + exact (reenter_enum _ _ _ _ H0 Hi).
    + injection Hi as <-. exact H0.
  - unfold BKZTreeTracer.enter in He.
    destruct (BKZTreeTracer.current self) as [c|n] eqn:Hcur; [|discriminate].
    refine (reenter_enum _ _ _ _ _ He).
    exact (child_all_data enum_data enum_data_nil c l IH).
  - exact (reenter_enum _ _ _ _ IH He).
  - destruct (BKZTreeTracer.current self) as [c|n] eqn:Hcur;
      [|unfold BKZTreeTracer.exit in He; rewrite Hcur in He; discriminate].
    destruct (exit_steps enum_data enum_data env self c self' Hcur He
                (proj1 (all_data_inv enum_data _ (proj1 IH))))
      as (d & Hd & -> & _).
    + intros d d'. apply exit_clocks_enum.
    + intros d d'. apply exit_enumeration_enum.
    + intros d. apply exit_tour_enum.
    + apply parent_all_data, set_data_all_data; assumption.
Qed.

Lemma exit_clocks_frame cpu wall d d' t :
  BKZTreeTracer.exit_clocks cpu wall d = Ok d' ->
  t <> "cputime" -> t <> "walltime" -> od_get t d' = od_get t d.
Proof.
  unfold BKZTreeTracer.exit_clocks.
  destruct (od_getitem "cputime" d) as [c0|]; simpl; [|discriminate].
  destruct (vadd c0 _) as [c|]; simpl; [|discriminate].
  destruct (od_getitem "walltime" _) as [w0|]; simpl; [|discriminate].
  destruct (vadd w0 _) as [w|]; simpl; [|discriminate].
  intros [= <-] H1 H2. rewrite !od_get_set_ne by congruence. reflexivity.
Qed.

Lemma exit_enumeration_frame env d d' t :
  BKZTreeTracer.exit_enumeration env d = Ok d' ->
  t <> "#enum" -> t <> "%" -> od_get t d' = od_get t d.
Proof.
  unfold BKZTreeTracer.exit_enumeration.
  destruct (BKZTreeTracer.e_full env); [|intros [= <-]; reflexivity].
  destruct (BKZTreeTracer.e_enum_nodes env) as [n|]; [|discriminate].
  destruct (Statistic.__add__ _ _) as [e|]; simpl; [|discriminate].
  destruct (BKZTreeTracer.e_probability env) as [p|].
  - destruct (Statistic.__add__ _ _) as [q|]; simpl; [|discriminate].
    intros [= <-] H1 H2. rewrite !od_get_set_ne by congruence. reflexivity.
  - intros [= <-] H1 H2. rewrite !od_get_set_ne by congruence. reflexivity.
Qed.

Lemma exit_tour_frame env d t :
  t <> "r_0" -> t <> "/" -> od_get t (BKZTreeTracer.exit_tour env d) = od_get t d.
Proof.
  intros H1 H2. unfold BKZTreeTracer.exit_tour.
  rewrite !od_get_set_ne by congruence. reflexivity.
Qed.

Lemma plus_restart_sum a clock r :
  Statistic.__add__ a (VStat (restart clock)) = Ok r ->
  Statistic._sum r = num_add (Statistic._sum a) (num_neg clock).
Proof.
  unfold Statistic.__add__.
  destruct (negb (String.eqb (Statistic._repr a) (Statistic._repr (restart clock))));
    [discriminate|].
  intros [= <-]. reflexivity.
Qed.

(** X20.  A BKZTreeTracer adds the time spent in a context to the sums
    of the accumulators of its node.  From any state at a node,
    [enter(l)] returns, one level down at the child that [child(l)]
    gives, whose accumulators "cputime" and "walltime" are now Statistics
    with the count they had (1 when they were absent) and the sum they
    had less the clocks.  When the [exit] that follows returns, the tracer
    is at the node it was at before, with that child replaced by a node of
    the same label and children whose accumulators have the clocks of
    [exit] added: the sum is more by the time between the two calls, and
    the count by one. *)
Theorem bkz_visit_adds_elapsed (self : BKZTreeTracer.t) (c : Cursor.t)
    (l : Label) (cpu0 wall0 : num) :
  reachable self ->
  BKZTreeTracer.current self = BKZTreeTracer.At c ->
  exists s1 c1 n' i x sc sw,
    BKZTreeTracer.enter l cpu0 wall0 self = Ok s1
    /\ Node.child (Cursor.focus c) l = (n', i, x)
    /\ BKZTreeTracer.current s1 = BKZTreeTracer.At c1
    /\ Node.label (Cursor.focus c1) = l
    /\ Cursor.level c1 = S (Cursor.level c)
    /\ od_get "cputime" (Node.data (Cursor.focus c1)) = Some (VStat sc)
    /\ od_get "walltime" (Node.data (Cursor.focus c1)) = Some (VStat sw)
    /\ val (Statistic.sum sc)
       = (val (Statistic.sum (acc_or_zero (od_get "cputime" (Node.data x))))
          - val cpu0)%Qc
    /\ val (Statistic.sum sw)
       = (val (Statistic.sum (acc_or_zero (od_get "walltime" (Node.data x))))
          - val wall0)%Qc
    /\ Statistic._ctr sc
       = Statistic._ctr (acc_or_zero (od_get "cputime" (Node.data x)))
    /\ Statistic._ctr sw
       = Statistic._ctr (acc_or_zero (od_get "walltime" (Node.data x)))
    /\ forall env s2,
         BKZTreeTracer.exit env s1 = Ok s2 ->
         exists x',
           BKZTreeTracer.current s2
           = BKZTreeTracer.At
               {| Cursor.focus :=
                    Node.mk (Node.label (Cursor.focus c))
                      (Node.data (Cursor.focus c))
                      (<[i := x']> (Node.children n'));
                  Cursor.above := Cursor.above c |}
           /\ Node.label x' = l
           /\ Node.children x' = Node.children x
           /\ od_get "cputime" (Node.data x')
              = Some (VStat (Statistic.add sc (BKZTreeTracer.e_cpu env)))
           /\ od_get "walltime" (Node.data x')
              = Some (VStat (Statistic.add sw (BKZTreeTracer.e_wall env)))
           /\ val (Statistic.sum (Statistic.add sc (BKZTreeTracer.e_cpu env)))
              = (val (Statistic.sum
                        (acc_or_zero (od_get "cputime" (Node.data x))))
                 + (val (BKZTreeTracer.e_cpu env) - val cpu0))%Qc
           /\ val (Statistic.sum (Statistic.add sw (BKZTreeTracer.e_wall env)))
              = (val (Statistic.sum
                        (acc_or_zero (od_get "walltime" (Node.data x))))
                 + (val (BKZTreeTracer.e_wall env) - val wall0))%Qc
           /\ Statistic._ctr (Statistic.add sc (BKZTreeTracer.e_cpu env))
              = Statistic._ctr (acc_or_zero (od_get "cputime" (Node.data x))) + 1
           /\ Statistic._ctr (Statistic.add sw (BKZTreeTracer.e_wall env))
              = Statistic._ctr (acc_or_zero (od_get "walltime" (Node.data x))) + 1.
Proof.
  intros Hr Hcur. pose proof (reachable_timed self Hr) as Ht.
  unfold timed_tracer in Ht. rewrite Hcur in Ht.
  pose proof (child_timed c l Ht) as Hch.
  destruct (cursor_visit c l) as (n' & i & x & Hchild & Hfocus & Hlev & Hparent).
  destruct (cursor_child_spec c l) as (n'' & i'' & x'' & _ & _ & Hl & Hcc).
  assert (Hlx : Node.label x = l).
  { rewrite <- Hfocus, Hcc. exact Hl. }
  destruct (timed_inv _ (proj1 Hch)) as [[Ac Aw] _]. rewrite Hfocus in Ac, Aw.
  destruct (reenter_data_spec cpu0 wall0 (Node.data x) Ac Aw)
    as (dE & sc & sw & rc & rw & Ed & Gc & Gw & _ & Erc & Vc & Erw & Vw
        & Cc & Cw & _).
  set (s1 := {| BKZTreeTracer.current :=
                  BKZTreeTracer.At (Cursor.set_data dE (Cursor.child c l));
                BKZTreeTracer.verbosity := BKZTreeTracer.verbosity self |}).
  exists s1, (Cursor.set_data dE (Cursor.child c l)), n', i, x, sc, sw.
  split.
  { unfold BKZTreeTracer.enter. rewrite Hcur. unfold BKZTreeTracer.reenter.
    cbn [BKZTreeTracer.current BKZTreeTracer.verbosity].
    rewrite Hfocus, Ed. reflexivity. }
  split; [exact Hchild|]. split; [reflexivity|].
  split; [cbn [Cursor.set_data Cursor.focus Node.label]; rewrite Hfocus; exact Hlx|].
  split; [exact Hlev|]. split; [exact Gc|]. split; [exact Gw|].
  assert (Sc : val (Statistic.sum sc)
               = (val (Statistic.sum (acc_or_zero (od_get "cputime" (Node.data x))))
                  - val cpu0)%Qc).
  { destruct Vc as (_ & _ & Es & _). unfold Statistic.sum. rewrite Es.
    rewrite (plus_restart_sum _ _ _ Erc), val_add, val_neg. ring. }
  assert (Sw : val (Statistic.sum sw)
               = (val (Statistic.sum (acc_or_zero (od_get "walltime" (Node.data x))))
                  - val wall0)%Qc).
  { destruct Vw as (_ & _ & Es & _). unfold Statistic.sum. rewrite Es.
    rewrite (plus_restart_sum _ _ _ Erw), val_add, val_neg. ring. }
  split; [exact Sc|]. split; [exact Sw|]. split; [exact Cc|]. split; [exact Cw|].
  intros env s2 He.
  destruct (exit_steps
              (fun d => od_get "cputime" d = Some (VStat sc)
                        /\ od_get "walltime" d = Some (VStat sw))
              (fun d => od_get "cputime" d
                        = Some (VStat (Statistic.add sc (BKZTreeTracer.e_cpu env)))
                        /\ od_get "walltime" d
                           = Some (VStat (Statistic.add sw (BKZTreeTracer.e_wall env))))
              env s1 (Cursor.set_data dE (Cursor.child c l)) s2 eq_refl He)
    as (d & [Gc' Gw'] & Hcur2 & _).
  - split; assumption.
  - intros d0 d0' [G1 G2] E.
    destruct (exit_clocks_accumulators (BKZTreeTracer.e_cpu env)
                (BKZTreeTracer.e_wall env) d0 sc sw G1 G2)
      as (d0'' & E' & G1' & G2' & _).
    rewrite E' in E. injection E as <-. split; assumption.
  - intros d0 d0' [G1 G2] E.
    split; rewrite (exit_enumeration_frame _ _ _ _ E) by discriminate;
      assumption.
  - intros d0 [G1 G2].
    split; rewrite exit_tour_frame by discriminate; assumption.
  - exists (Node.mk l d (Node.children x)).
    split.
    { rewrite Hcur2.
      change (Cursor.set_data d (Cursor.set_data dE (Cursor.child c l)))
        with (Cursor.set_data d (Cursor.child c l)).
      rewrite Hparent. reflexivity. }
    split; [reflexivity|]. split; [reflexivity|].
    split; [exact Gc'|]. split; [exact Gw'|].
    unfold Statistic.sum in *. simpl.
    split; [rewrite val_add, Sc; ring|].
    split; [rewrite val_add, Sw; ring|].
    split; [rewrite Cc; reflexivity|rewrite Cw; reflexivity].
Qed.

(** At a new tracer: a context "enumeration" entered with the clocks at 1
    and 2. *)
Lemma bkz_visit_adds_elapsed_witness :
  exists s1 c1 n' i x sc sw,
    BKZTreeTracer.enter (LStr "enumeration") (PInt 1) (PInt 2) tracer_new = Ok s1
    /\ Node.child (Cursor.focus bkz_root) (LStr "enumeration") = (n', i, x)
    /\ BKZTreeTracer.current s1 = BKZTreeTracer.At c1
    /\ Node.label (Cursor.focus c1) = (LStr "enumeration")
    /\ Cursor.level c1 = S (Cursor.level bkz_root)
    /\ od_get "cputime" (Node.data (Cursor.focus c1)) = Some (VStat sc)
    /\ od_get "walltime" (Node.data (Cursor.focus c1)) = Some (VStat sw)
    /\ val (Statistic.sum sc)
       = (val (Statistic.sum (acc_or_zero (od_get "cputime" (Node.data x))))
          - val (PInt 1))%Qc
    /\ val (Statistic.sum sw)
       = (val (Statistic.sum (acc_or_zero (od_get "walltime" (Node.data x))))
          - val (PInt 2))%Qc
    /\ Statistic._ctr sc
       = Statistic._ctr (acc_or_zero (od_get "cputime" (Node.data x)))
    /\ Statistic._ctr sw
       = Statistic._ctr (acc_or_zero (od_get "walltime" (Node.data x)))
    /\ forall env s2,
         BKZTreeTracer.exit env s1 = Ok s2 ->
         exists x',
           BKZTreeTracer.current s2
           = BKZTreeTracer.At
               {| Cursor.focus :=
                    Node.mk (Node.label (Cursor.focus bkz_root))
                      (Node.data (Cursor.focus bkz_root))
                      (<[i := x']> (Node.children n'));
                  Cursor.above := Cursor.above bkz_root |}
           /\ Node.label x' = (LStr "enumeration")
           /\ Node.children x' = Node.children x
           /\ od_get "cputime" (Node.data x')
              = Some (VStat (Statistic.add sc (BKZTreeTracer.e_cpu env)))
           /\ od_get "walltime" (Node.data x')
              = Some (VStat (Statistic.add sw (BKZTreeTracer.e_wall env)))
           /\ val (Statistic.sum (Statistic.add sc (BKZTreeTracer.e_cpu env)))
              = (val (Statistic.sum
                        (acc_or_zero (od_get "cputime" (Node.data x))))
                 + (val (BKZTreeTracer.e_cpu env) - val (PInt 1)))%Qc
           /\ val (Statistic.sum (Statistic.add sw (BKZTreeTracer.e_wall env)))
              = (val (Statistic.sum
                        (acc_or_zero (od_get "walltime" (Node.data x))))
                 + (val (BKZTreeTracer.e_wall env) - val (PInt 2)))%Qc
           /\ Statistic._ctr (Statistic.add sc (BKZTreeTracer.e_cpu env))
              = Statistic._ctr (acc_or_zero (od_get "cputime" (Node.data x))) + 1
           /\ Statistic._ctr (Statistic.add sw (BKZTreeTracer.e_wall env))
              = Statistic._ctr (acc_or_zero (od_get "walltime" (Node.data x))) + 1.
Proof.
  apply (bkz_visit_adds_elapsed tracer_new bkz_root (LStr "enumeration")
           (PInt 1) (PInt 2)).
  - apply (reach_init 0 (LStr "bkz") None). reflexivity.
  - reflexivity.
Defined.






Lemma label_first_tour l first :
  BKZTreeTracer.label_first l = Ok first ->
  label_eqb first (LStr "tour") = is_tour l.
Proof.
  destruct l as [[|ch s]|z|[|x items]]; simpl; try discriminate.
  - intros [= <-]. simpl. destruct (Ascii.eqb ch "t"); reflexivity.
  - intros [= <-]. reflexivity.
Qed.

Lemma label_first_raises l e :
  BKZTreeTracer.label_first l = Raise e <->
  (e = TypeError /\ exists z, l = LInt z)
  \/ (e = IndexError /\ (l = LStr "" \/ l = LTuple [])).
Proof.
  destruct l as [[|ch s]|z|[|x items]]; simpl; split.
  - intros [= <-]. right. auto.
  - intros [[_ [z [=]]]|[-> _]]. reflexivity.
  - discriminate.
  - intros [[_ [z [=]]]|[_ [[=]|[=]]]].
  - intros [= <-]. left. eauto.
  - intros [[-> _]|[_ [[=]|[=]]]]. reflexivity.
  - intros [= <-]. right. auto.
  - intros [[_ [z [=]]]|[-> _]]. reflexivity.
  - discriminate.
  - intros [[_ [z [=]]]|[_ [[=]|[=]]]].
Qed.

Lemma exit_clocks_eval cpu wall d sc sw :
  od_get "cputime" d = Some (VStat sc) ->
  od_get "walltime" d = Some (VStat sw) ->
  BKZTreeTracer.exit_clocks cpu wall d
  = Ok (od_set "walltime" (VStat (Statistic.add sw wall))
          (od_set "cputime" (VStat (Statistic.add sc cpu)) d)).
Proof.
  intros Gc Gw. unfold BKZTreeTracer.exit_clocks, od_getitem. rewrite Gc. simpl.
  rewrite od_get_set_ne by discriminate. rewrite Gw. reflexivity.
Qed.

Lemma exit_clocks_missing cpu wall d :
  timed_data d -> ~ clocked d ->
  BKZTreeTracer.exit_clocks cpu wall d = Raise KeyError.
Proof.
  intros [Ac Aw] Hn. unfold BKZTreeTracer.exit_clocks, od_getitem.
  destruct (od_get "cputime" d) as [[|x|sc]|] eqn:Gc; simpl in Ac.
  - destruct Ac.
  - destruct Ac.
  - simpl. rewrite od_get_set_ne by discriminate.
    destruct (od_get "walltime" d) as [[|x|sw]|] eqn:Gw; simpl in Aw.
    + destruct Aw.
    + destruct Aw.
    + destruct Hn. exists sc, sw. auto.
    + reflexivity.
  - reflexivity.
Qed.

Lemma plus_entry_ok mode x v :
  stat_entry mode v ->
  exists r,
    Statistic.__add__ (Statistic.__init__ x mode true)
      (match v with Some w => w | None => VNone end) = Ok r
    /\ Statistic._repr r = mode
    /\ Statistic._sum r = num_add x (Statistic._sum (stat_or_empty v))
    /\ Statistic._ctr r = 1 + Statistic._ctr (stat_or_empty v).
Proof.
  destruct v as [[|y|s]|]; simpl; try tauto.
  - intros <-. rewrite String.eqb_refl. simpl. eexists. repeat split.
  - intros _. eexists. split; [reflexivity|]. split; [reflexivity|].
    simpl. split; [|reflexivity]. destruct x; simpl; f_equal.
    + lia.
    + rewrite Z2Qc_inj_0. ring.
Qed.

Lemma exit_enumeration_ok env d :
  enum_data d ->
  (BKZTreeTracer.e_full env = true -> BKZTreeTracer.e_enum_nodes env <> None) ->
  exists d', BKZTreeTracer.exit_enumeration env d = Ok d'.
Proof.
  intros [He Hp] Hn. unfold BKZTreeTracer.exit_enumeration.
  destruct (BKZTreeTracer.e_full env); [|eauto].
  destruct (BKZTreeTracer.e_enum_nodes env) as [n|]; [|destruct (Hn eq_refl eq_refl)].
  destruct (plus_entry_ok "sum" n _ He) as (e & Ee & _).
  unfold od_get_default. rewrite Ee. simpl.
  destruct (BKZTreeTracer.e_probability env) as [p|]; [|eauto].
  rewrite od_get_set_ne by discriminate.
  destruct (plus_entry_ok "avg" p _ Hp) as (q & Eq & _).
  rewrite Eq. simpl. eauto.
Qed.

Lemma exit_eval env self c sc sw :
  BKZTreeTracer.current self = BKZTreeTracer.At c ->
  od_get "cputime" (Node.data (Cursor.focus c)) = Some (VStat sc) ->
  od_get "walltime" (Node.data (Cursor.focus c)) = Some (VStat sw) ->
  BKZTreeTracer.exit env self =
  let label := Node.label (Cursor.focus c) in
  let d1 := od_set "walltime" (VStat (Statistic.add sw (BKZTreeTracer.e_wall env)))
              (od_set "cputime" (VStat (Statistic.add sc (BKZTreeTracer.e_cpu env)))
                 (Node.data (Cursor.focus c))) in
  let* d2 :=
    if label_eqb label (LStr "enumeration")
    then BKZTreeTracer.exit_enumeration env d1 else Ok d1 in
  let* first := BKZTreeTracer.label_first label in
  let d3 := if is_tour label then BKZTreeTracer.exit_tour env d2 else d2 in
  let* _ :=
    if negb (BKZTreeTracer.verbosity self =? 0)%Z && is_tour label then
      match BKZTreeTracer.e_report env with Some e => Raise e | None => Ok tt end
    else Ok tt in
  Ok {| BKZTreeTracer.current :=
          match Cursor.parent (Cursor.set_data d3 c) with
          | Some p => BKZTreeTracer.At p
          | None => BKZTreeTracer.Off (Cursor.focus (Cursor.set_data d3 c))
          end;
        BKZTreeTracer.verbosity := BKZTreeTracer.verbosity self |}.
Proof.
  intros Hcur Gc Gw. unfold BKZTreeTracer.exit.
  rewrite Hcur, (exit_clocks_eval _ _ _ sc sw Gc Gw). cbv zeta. cbn [bind].
  destruct (if label_eqb (Node.label (Cursor.focus c)) (LStr "enumeration")
            then _ else _) as [d2|]; [|reflexivity].
  cbn [bind].
  destruct (BKZTreeTracer.label_first (Node.label (Cursor.focus c)))
    as [first|] eqn:E; [|reflexivity].
  cbn [bind]. rewrite (label_first_tour _ _ E). reflexivity.
Qed.

(** X21.  The ways [exit] of a BKZTreeTracer fails.  In every state at a
    node below the root the two accumulators of the node are there; at
    the root of a tracer constructed without [start_clocks] they are not.
    Without them [exit] raises [KeyError].  With them it raises
    [KeyError] at a node labelled "enumeration" when [full] is not false
    and no [enum_obj] is given; [TypeError] at a node whose label is an
    int; [IndexError] at a node labelled by the empty string or the empty
    tuple; and, at a tour with a verbosity that is not 0, what assembling
    and printing the report raises.  In every other case it returns. *)
Theorem exit_failures (env : BKZTreeTracer.exit_env) (self : BKZTreeTracer.t)
    (c : Cursor.t) :
  reachable self ->
  BKZTreeTracer.current self = BKZTreeTracer.At c ->
  (Cursor.above c <> [] -> clocked (Node.data (Cursor.focus c)))
  /\ (~ clocked (Node.data (Cursor.focus c)) ->
      BKZTreeTracer.exit env self = Raise KeyError)
  /\ (clocked (Node.data (Cursor.focus c)) ->
      (Node.label (Cursor.focus c) = LStr "enumeration" ->
       BKZTreeTracer.e_full env = true ->
       BKZTreeTracer.e_enum_nodes env = None ->
       BKZTreeTracer.exit env self = Raise KeyError)
      /\ (forall z, Node.label (Cursor.focus c) = LInt z ->
            BKZTreeTracer.exit env self = Raise TypeError)
      /\ (Node.label (Cursor.focus c) = LStr ""
          \/ Node.label (Cursor.focus c) = LTuple [] ->
          BKZTreeTracer.exit env self = Raise IndexError)
      /\ (forall e, is_tour (Node.label (Cursor.focus c)) = true ->
            BKZTreeTracer.verbosity self <> 0 ->
            BKZTreeTracer.e_report env = Some e ->
            BKZTreeTracer.exit env self = Raise e)
      /\ ((Node.label (Cursor.focus c) = LStr "enumeration" ->
           BKZTreeTracer.e_full env = true ->
           BKZTreeTracer.e_enum_nodes env <> None) ->
          (forall z, Node.label (Cursor.focus c) <> LInt z) ->
          Node.label (Cursor.focus c) <> LStr "" ->
          Node.label (Cursor.focus c) <> LTuple [] ->
          (is_tour (Node.label (Cursor.focus c)) = true ->
           BKZTreeTracer.verbosity self <> 0 ->
           BKZTreeTracer.e_report env = None) ->
          exists self', BKZTreeTracer.exit env self = Ok self'))
  /\ (forall verb root_label self0,
        BKZTreeTracer.__init__ verb root_label None = Ok self0 ->
        BKZTreeTracer.exit env self0 = Raise KeyError).
Proof.
  intros Hr Hcur.
  assert (Hinit : forall verb root_label self0,
            BKZTreeTracer.__init__ verb root_label None = Ok self0 ->
            BKZTreeTracer.exit env self0 = Raise KeyError).
  { intros verb root_label self0 [= <-]. reflexivity. }
  refine ((fun H => conj (proj1 H) (conj (proj1 (proj2 H))
                      (conj (proj2 (proj2 H)) Hinit))) _).
  clear Hinit.
  pose proof (reachable_timed self Hr) as Ht. unfold timed_tracer in Ht.
  pose proof (reachable_entered self Hr) as Hent.
  pose proof (reachable_enum self Hr) as Henum.
  rewrite Hcur in Ht, Hent, Henum. simpl in Hent, Henum.
  destruct (timed_inv _ (proj1 Ht)) as [Htd _].
  pose proof (proj1 (all_data_inv enum_data _ (proj1 Henum))) as Hed.
  split.
  { destruct (Cursor.above c) as [|f fs]; [congruence|]. intros _. apply Hent. }
  split.
  { intros Hn. unfold BKZTreeTracer.exit. rewrite Hcur.
    rewrite (exit_clocks_missing _ _ _ Htd Hn). reflexivity. }
  intros (sc & sw & Gc & Gw). rewrite (exit_eval env self c sc sw Hcur Gc Gw).
  cbv zeta.
  set (d1 := od_set "walltime" _ _).
  assert (Hed1 : enum_data d1).
  { unfold d1. repeat (apply enum_data_set; [discriminate|discriminate|]).
    exact Hed. }
  split.
  { intros Hl Hfull Hnone. rewrite Hl. simpl.
    unfold BKZTreeTracer.exit_enumeration. rewrite Hfull, Hnone. reflexivity. }
  split.
  { intros z Hl. rewrite Hl. reflexivity. }
  split.
  { intros [Hl|Hl]; rewrite Hl; reflexivity. }
  split.
  { intros e Htour Hv Hrep. rewrite Htour.
    destruct (Node.label (Cursor.focus c)) as [s|z|[|x items]];
      simpl in Htour; try discriminate.
    simpl. apply Z.eqb_neq in Hv. rewrite Hv, Hrep. reflexivity. }
  intros Hen Hint Hes Het Hrep.
  assert (Hd2 : exists d2,
            (if label_eqb (Node.label (Cursor.focus c)) (LStr "enumeration")
             then BKZTreeTracer.exit_enumeration env d1 else Ok d1) = Ok d2).
  { destruct (label_eqb (Node.label (Cursor.focus c)) (LStr "enumeration"))
      eqn:El; [|eauto].
    apply label_eqb_eq in El. apply exit_enumeration_ok; [exact Hed1|].
    apply Hen, El. }
  destruct Hd2 as [d2 ->]. cbn [bind].
  destruct (BKZTreeTracer.label_first (Node.label (Cursor.focus c)))
    as [first|e] eqn:Ef.
  - cbn [bind].
    destruct (negb (BKZTreeTracer.verbosity self =? 0)%Z
              && is_tour (Node.label (Cursor.focus c))) eqn:Ev.
    + apply andb_prop in Ev as [Hv Htour].
      rewrite Hrep; [simpl; eauto|exact Htour|].
      apply negb_true_iff, Z.eqb_neq in Hv. exact Hv.
    + simpl. eauto.
  - exfalso. apply label_first_raises in Ef as [[_ [z Hz]]|[_ [Hz|Hz]]].
    + exact (Hint z Hz).
    + exact (Hes Hz).
    + exact (Het Hz).
Qed.

(** At a tracer constructed with [start_clocks=True]: [exit] at the root. *)
Lemma exit_failures_witness :
  (Cursor.above cursor_started <> [] -> clocked (Node.data (Cursor.focus cursor_started)))
  /\ (~ clocked (Node.data (Cursor.focus cursor_started)) ->
      BKZTreeTracer.exit env_plain tracer_started = Raise KeyError)
  /\ (clocked (Node.data (Cursor.focus cursor_started)) ->
      (Node.label (Cursor.focus cursor_started) = LStr "enumeration" ->
       BKZTreeTracer.e_full env_plain = true ->
       BKZTreeTracer.e_enum_nodes env_plain = None ->
       BKZTreeTracer.exit env_plain tracer_started = Raise KeyError)
      /\ (forall z, Node.label (Cursor.focus cursor_started) = LInt z ->
            BKZTreeTracer.exit env_plain tracer_started = Raise TypeError)
      /\ (Node.label (Cursor.focus cursor_started) = LStr ""
          \/ Node.label (Cursor.focus cursor_started) = LTuple [] ->
          BKZTreeTracer.exit env_plain tracer_started = Raise IndexError)
      /\ (forall e, is_tour (Node.label (Cursor.focus cursor_started)) = true ->
            BKZTreeTracer.verbosity tracer_started <> 0 ->
            BKZTreeTracer.e_report env_plain = Some e ->
            BKZTreeTracer.exit env_plain tracer_started = Raise e)
      /\ ((Node.label (Cursor.focus cursor_started) = LStr "enumeration" ->
           BKZTreeTracer.e_full env_plain = true ->
           BKZTreeTracer.e_enum_nodes env_plain <> None) ->
          (forall z, Node.label (Cursor.focus cursor_started) <> LInt z) ->
          Node.label (Cursor.focus cursor_started) <> LStr "" ->
          Node.label (Cursor.focus cursor_started) <> LTuple [] ->
          (is_tour (Node.label (Cursor.focus cursor_started)) = true ->
           BKZTreeTracer.verbosity tracer_started <> 0 ->
           BKZTreeTracer.e_report env_plain = None) ->
          exists self', BKZTreeTracer.exit env_plain tracer_started = Ok self'))
  /\ (forall verb root_label self0,
        BKZTreeTracer.__init__ verb root_label None = Ok self0 ->
        BKZTreeTracer.exit env_plain self0 = Raise KeyError).
Proof.
  apply (exit_failures env_plain tracer_started cursor_started).
  - apply (reach_init 0 (LStr "bkz") (Some (PInt 1, PInt 2))). reflexivity.
  - reflexivity.
Defined.






Lemma exit_enumeration_eval env d d' :
  enum_data d ->
  BKZTreeTracer.exit_enumeration env d = Ok d' ->
  if BKZTreeTracer.e_full env then
    exists nodes e,
      BKZTreeTracer.e_enum_nodes env = Some nodes
      /\ od_get "#enum" d' = Some (VStat e)
      /\ Statistic._repr e = "sum"
      /\ val (Statistic.sum e)
         = (val nodes + val (Statistic.sum (stat_or_empty (od_get "#enum" d))))%Qc
      /\ Statistic._ctr e = 1 + Statistic._ctr (stat_or_empty (od_get "#enum" d))
      /\ match BKZTreeTracer.e_probability env with
         | Some p =>
             exists q,
               od_get "%" d' = Some (VStat q)
               /\ Statistic._repr q = "avg"
               /\ val (Statistic.sum q)
                  = (val p + val (Statistic.sum (stat_or_empty (od_get "%" d))))%Qc
               /\ Statistic._ctr q
                  = 1 + Statistic._ctr (stat_or_empty (od_get "%" d))
         | None => od_get "%" d' = od_get "%" d
         end
  else d' = d.
Proof.
  intros [He Hp]. unfold BKZTreeTracer.exit_enumeration.
  destruct (BKZTreeTracer.e_full env); [|intros [= <-]; reflexivity].
  destruct (BKZTreeTracer.e_enum_nodes env) as [n|]; [|discriminate].
  destruct (plus_entry_ok "sum" n _ He) as (e & Ee & Re & Se & Ce).
  unfold od_get_default. rewrite Ee. simpl.
  assert (Hsum : val (Statistic.sum e)
                 = (val n + val (Statistic.sum (stat_or_empty (od_get "#enum" d))))%Qc).
  { unfold Statistic.sum. rewrite Se. apply val_add. }
  destruct (BKZTreeTracer.e_probability env) as [p|].
  - rewrite od_get_set_ne by discriminate.
    destruct (plus_entry_ok "avg" p _ Hp) as (q & Eq & Rq & Sq & Cq).
    rewrite Eq. simpl. intros [= <-]. exists n, e. split; [reflexivity|].
    split; [rewrite od_get_set_ne by discriminate; apply od_get_set_eq|].
    split; [exact Re|]. split; [exact Hsum|]. split; [exact Ce|].
    exists q. split; [apply od_get_set_eq|]. split; [exact Rq|].
    split; [|exact Cq]. unfold Statistic.sum. rewrite Sq. apply val_add.
  - intros [= <-]. exists n, e. split; [reflexivity|].
    split; [apply od_get_set_eq|]. split; [exact Re|]. split; [exact Hsum|].
    split; [exact Ce|]. rewrite od_get_set_ne by discriminate. reflexivity.
Qed.

(** X22.  What [exit] of a BKZTreeTracer records at the node it leaves,
    besides the clocks.  At a node whose label is the string
    "enumeration", unless [full] is false: "#enum" becomes a Statistic
    of mode "sum" that holds one observation more, the node count, so
    that its sum is more by the node count; and if a [probability] is
    given "%" becomes a Statistic of mode "avg" that holds it as one
    observation more, while without one "%" is left alone.  At a node
    whose label is a tuple with first component "tour" (a node labelled
    by the string "tour" is none): "r_0" and "/" are replaced by new
    Statistics of mode "min" of the two values read from the instance.
    Nothing else is changed: a node that is no enumeration keeps "#enum"
    and "%", one that is no tour keeps "r_0" and "/", and every other
    entry but the two accumulators is as it was. *)
Theorem exit_records (env : BKZTreeTracer.exit_env) (self self' : BKZTreeTracer.t)
    (c : Cursor.t) :
  reachable self ->
  BKZTreeTracer.current self = BKZTreeTracer.At c ->
  BKZTreeTracer.exit env self = Ok self' ->
  exists d,
    BKZTreeTracer.current self'
    = match Cursor.parent (Cursor.set_data d c) with
      | Some p => BKZTreeTracer.At p
      | None => BKZTreeTracer.Off (Cursor.focus (Cursor.set_data d c))
      end
    /\ (if label_eqb (Node.label (Cursor.focus c)) (LStr "enumeration")
           && BKZTreeTracer.e_full env
        then
          exists nodes e,
            BKZTreeTracer.e_enum_nodes env = Some nodes
            /\ od_get "#enum" d = Some (VStat e)
            /\ Statistic._repr e = "sum"
            /\ val (Statistic.sum e)
               = (val nodes
                  + val (Statistic.sum
                           (stat_or_empty
                              (od_get "#enum" (Node.data (Cursor.focus c))))))%Qc
            /\ Statistic._ctr e
               = 1 + Statistic._ctr
                       (stat_or_empty
                          (od_get "#enum" (Node.data (Cursor.focus c))))
            /\ match BKZTreeTracer.e_probability env with
               | Some p =>
                   exists q,
                     od_get "%" d = Some (VStat q)
                     /\ Statistic._repr q = "avg"
                     /\ val (Statistic.sum q)
                        = (val p
                           + val (Statistic.sum
                                    (stat_or_empty
                                       (od_get "%" (Node.data (Cursor.focus c))))))%Qc
                     /\ Statistic._ctr q
                        = 1 + Statistic._ctr
                                (stat_or_empty
                                   (od_get "%" (Node.data (Cursor.focus c))))
               | None => od_get "%" d = od_get "%" (Node.data (Cursor.focus c))
               end
        else
          od_get "#enum" d = od_get "#enum" (Node.data (Cursor.focus c))
          /\ od_get "%" d = od_get "%" (Node.data (Cursor.focus c)))
    /\ (if is_tour (Node.label (Cursor.focus c))
        then
          od_get "r_0" d
          = Some (VStat (Statistic.__init__ (BKZTreeTracer.e_r0 env) "min" true))
          /\ od_get "/" d
             = Some (VStat (Statistic.__init__ (BKZTreeTracer.e_slope env)
                              "min" true))
        else
          od_get "r_0" d = od_get "r_0" (Node.data (Cursor.focus c))
          /\ od_get "/" d = od_get "/" (Node.data (Cursor.focus c)))
    /\ forall t,
         t <> "cputime" -> t <> "walltime" -> t <> "#enum" -> t <> "%" ->
         t <> "r_0" -> t <> "/" ->
         od_get t d = od_get t (Node.data (Cursor.focus c)).
Proof.
  intros Hr Hcur He.
  pose proof (reachable_timed self Hr) as Ht. unfold timed_tracer in Ht.
  pose proof (reachable_enum self Hr) as Henum.
  rewrite Hcur in Ht, Henum. simpl in Henum.
  destruct (timed_inv _ (proj1 Ht)) as [Htd _].
  pose proof (proj1 (all_data_inv enum_data _ (proj1 Henum))) as Hed.
  assert (Hcl : clocked (Node.data (Cursor.focus c))).
  { destruct Htd as [Ac Aw].
    destruct (od_get "cputime" (Node.data (Cursor.focus c))) as [[|x|sc]|] eqn:Gc;
      simpl in Ac; try (destruct Ac);
      destruct (od_get "walltime" (Node.data (Cursor.focus c))) as [[|y|sw]|] eqn:Gw;
      simpl in Aw; try (destruct Aw);
      try (exists sc, sw; split; [exact Gc|exact Gw]);
      exfalso; unfold BKZTreeTracer.exit in He; rewrite Hcur in He;
      unfold BKZTreeTracer.exit_clocks, od_getitem in He; rewrite Gc in He;
      simpl in He; try discriminate;
      rewrite od_get_set_ne in He by discriminate; rewrite Gw in He;
      discriminate. }
  destruct Hcl as (sc & sw & Gc & Gw).
  rewrite (exit_eval env self c sc sw Hcur Gc Gw) in He. cbv zeta in He.
  set (d0 := Node.data (Cursor.focus c)) in *.
  set (d1 := od_set "walltime" _ _) in He.
  assert (Hed1 : enum_data d1).
  { unfold d1. repeat (apply enum_data_set; [discriminate|discriminate|]).
    exact Hed. }
  assert (F1 : forall t, t <> "cputime" -> t <> "walltime" ->
                 od_get t d1 = od_get t d0).
  { intros t H1 H2. unfold d1. rewrite !od_get_set_ne by congruence.
    reflexivity. }
  destruct (if label_eqb (Node.label (Cursor.focus c)) (LStr "enumeration")
            then BKZTreeTracer.exit_enumeration env d1 else Ok d1)
    as [d2|] eqn:E2; cbn [bind] in He; [|discriminate].
  destruct (BKZTreeTracer.label_first (Node.label (Cursor.focus c)))
    as [first|] eqn:Ef; cbn [bind] in He; [|discriminate].
  set (d3 := if is_tour (Node.label (Cursor.focus c))
             then BKZTreeTracer.exit_tour env d2 else d2) in *.
  destruct (if negb (BKZTreeTracer.verbosity self =? 0)%Z
               && is_tour (Node.label (Cursor.focus c))
            then _ else _); cbn [bind] in He; [|discriminate].
  injection He as <-. exists d3. split; [reflexivity|].
  assert (F2 : forall t, t <> "#enum" -> t <> "%" -> od_get t d2 = od_get t d1).
  { intros t H1 H2.
    destruct (label_eqb (Node.label (Cursor.focus c)) (LStr "enumeration")).
    - apply (exit_enumeration_frame _ _ _ _ E2 H1 H2).
    - injection E2 as <-. reflexivity. }
  assert (F3 : forall t, t <> "r_0" -> t <> "/" -> od_get t d3 = od_get t d2).
  { intros t H1 H2. unfold d3.
    destruct (is_tour (Node.label (Cursor.focus c))); [|reflexivity].
    apply exit_tour_frame; assumption. }
  split.
  { rewrite !F3 by discriminate.
    destruct (label_eqb (Node.label (Cursor.focus c)) (LStr "enumeration"));
      simpl.
    - pose proof (exit_enumeration_eval env d1 d2 Hed1 E2) as H.
      rewrite !F1 in H by discriminate.
      destruct (BKZTreeTracer.e_full env); [exact H|].
      subst d2. rewrite !F1 by discriminate. split; reflexivity.
    - injection E2 as <-. rewrite !F1 by discriminate. split; reflexivity. }
  split.
  { unfold d3. destruct (is_tour (Node.label (Cursor.focus c))).
    - unfold BKZTreeTracer.exit_tour. split; [|apply od_get_set_eq].
      rewrite od_get_set_ne by discriminate. apply od_get_set_eq.
    - rewrite !F2, !F1 by discriminate. split; reflexivity. }
  intros t H1 H2 H3 H4 H5 H6. rewrite F3, F2, F1 by assumption. reflexivity.
Qed.

(** At a tracer constructed with [start_clocks=True]: [exit] at the root. *)
Lemma exit_records_witness :
  exists d,
    BKZTreeTracer.current tracer_left
    = match Cursor.parent (Cursor.set_data d cursor_started) with
      | Some p => BKZTreeTracer.At p
      | None => BKZTreeTracer.Off (Cursor.focus (Cursor.set_data d cursor_started))
      end
    /\ (if label_eqb (Node.label (Cursor.focus cursor_started)) (LStr "enumeration")
           && BKZTreeTracer.e_full env_plain
        then
          exists nodes e,
            BKZTreeTracer.e_enum_nodes env_plain = Some nodes
            /\ od_get "#enum" d = Some (VStat e)
            /\ Statistic._repr e = "sum"
            /\ val (Statistic.sum e)
               = (val nodes
                  + val (Statistic.sum
                           (stat_or_empty
                              (od_get "#enum" (Node.data (Cursor.focus cursor_started))))))%Qc
            /\ Statistic._ctr e
               = 1 + Statistic._ctr
                       (stat_or_empty
                          (od_get "#enum" (Node.data (Cursor.focus cursor_started))))
            /\ match BKZTreeTracer.e_probability env_plain with
               | Some p =>
                   exists q,
                     od_get "%" d = Some (VStat q)
                     /\ Statistic._repr q = "avg"
                     /\ val (Statistic.sum q)
                        = (val p
                           + val (Statistic.sum
                                    (stat_or_empty
                                       (od_get "%" (Node.data (Cursor.focus cursor_started))))))%Qc
                     /\ Statistic._ctr q
                        = 1 + Statistic._ctr
                                (stat_or_empty
                                   (od_get "%" (Node.data (Cursor.focus cursor_started))))
               | None => od_get "%" d = od_get "%" (Node.data (Cursor.focus cursor_started))
               end
        else
          od_get "#enum" d = od_get "#enum" (Node.data (Cursor.focus cursor_started))
          /\ od_get "%" d = od_get "%" (Node.data (Cursor.focus cursor_started)))
    /\ (if is_tour (Node.label (Cursor.focus cursor_started))
        then
          od_get "r_0" d
          = Some (VStat (Statistic.__init__ (BKZTreeTracer.e_r0 env_plain) "min" true))
          /\ od_get "/" d
             = Some (VStat (Statistic.__init__ (BKZTreeTracer.e_slope env_plain)
                              "min" true))
        else
          od_get "r_0" d = od_get "r_0" (Node.data (Cursor.focus cursor_started))
          /\ od_get "/" d = od_get "/" (Node.data (Cursor.focus cursor_started)))
    /\ forall t,
         t <> "cputime" -> t <> "walltime" -> t <> "#enum" -> t <> "%" ->
         t <> "r_0" -> t <> "/" ->
         od_get t d = od_get t (Node.data (Cursor.focus cursor_started)).
Proof.
  apply (exit_records env_plain tracer_started tracer_left
           cursor_started).
  - apply (reach_init 0 (LStr "bkz") (Some (PInt 1, PInt 2))). reflexivity.
  - reflexivity.
  - reflexivity.
Defined.






(** ** Node.level *)

Lemma level_loop_spec fuel :
  forall c k, (Cursor.level c < fuel)%nat ->
    level_loop fuel c k = Some (k + Cursor.level c)%nat.
Proof.
  induction fuel as [|fuel IH]; intros c k Hf; [lia|].
  simpl. unfold Cursor.parent, Cursor.level in *.
  destruct (Cursor.above c) as [|f fs] eqn:E; simpl in *.
  - f_equal. lia.
  - rewrite IH by (simpl; lia). simpl. f_equal. lia.
Qed.

(** X23.  [level] counts the ancestors of a node.  Its loop ends, after as
    many turns as the node has nodes above it, and returns that number:
    0 exactly for a node without parent, and one more than the level of
    the parent otherwise; the node [child] returns is one level below the
    node it was asked of. *)
Theorem level_counts_ancestors (c : Cursor.t) :
  (forall fuel, (Cursor.level c < fuel)%nat ->
     level_loop fuel c 0 = Some (Cursor.level c))
  /\ (forall fuel, (fuel <= Cursor.level c)%nat -> level_loop fuel c 0 = None)
  /\ (Cursor.level c = O <-> Cursor.parent c = None)
  /\ (forall p, Cursor.parent c = Some p -> Cursor.level c = S (Cursor.level p))
  /\ (forall l,
        Cursor.level (Cursor.child c l) = S (Cursor.level c)
        /\ exists p, Cursor.parent (Cursor.child c l) = Some p
             /\ Cursor.above p = Cursor.above c).
Proof.
  split; [intros fuel Hf; apply (level_loop_spec fuel c 0 Hf)|].
  split.
  { intros fuel. generalize 0%nat. revert c.
    induction fuel as [|fuel IH]; intros c k Hf; [reflexivity|].
    simpl. unfold Cursor.parent, Cursor.level in *.
    destruct (Cursor.above c) as [|f fs]; simpl in *; [lia|].
    apply IH. simpl. lia. }
  unfold Cursor.parent, Cursor.level. split.
  { destruct (Cursor.above c); simpl; split; congruence. }
  split.
  { intros p. destruct (Cursor.above c) as [|f fs]; [discriminate|].
    intros [= <-]. reflexivity. }
  intros l. unfold Cursor.child.
  destruct (Cursor.split_labelled l (Node.children (Cursor.focus c)))
    as [[[ls x] rs]|]; simpl; split; eauto.
Qed.

(** ** TraceContext: the label of a context *)

(** X24.  The label of a context is its one positional argument, or the
    tuple of them when there are several; without any, making the context
    raises [IndexError].  So, for the tests of [BKZTreeTracer.exit]: a
    context is a tour exactly when it has several arguments of which the
    first is "tour", or one argument that is itself such a tuple (the one
    argument "tour" makes no tour); and its label is "enumeration"
    exactly when "enumeration" is its only argument. *)
Theorem context_labels {T K : Type} (tr : Trace.Tracer T K)
    (args : list Label) (kw : K) :
  (args = [] -> Trace.context tr args kw = Raise IndexError)
  /\ (forall a, args = [a] ->
        Trace.context tr args kw
        = Ok {| Trace.tracer := tr; Trace.what := a; Trace.kwds := kw |})
  /\ ((2 <= length args)%nat ->
      Trace.context tr args kw
      = Ok {| Trace.tracer := tr; Trace.what := LTuple args; Trace.kwds := kw |})
  /\ forall ctx,
       Trace.context tr args kw = Ok ctx ->
       (is_tour (Trace.what ctx) = true
        <-> (exists a, args = [a] /\ is_tour a = true)
            \/ exists b rest, args = LStr "tour" :: b :: rest)
       /\ (Trace.what ctx = LStr "enumeration" <-> args = [LStr "enumeration"]).
Proof.
  unfold Trace.context, Trace.__init__.
  split; [intros ->; reflexivity|].
  split; [intros a ->; reflexivity|].
  split.
  { destruct args as [|a [|b rest]]; simpl; [lia|lia|reflexivity]. }
  intros ctx. destruct args as [|a [|b rest]].
  - discriminate.
  - intros [= <-]. simpl. split.
    + split.
      * intros H. left. eauto.
      * intros [(a' & [= <-] & H)|(b & rest & [=])]. exact H.
    + split; [intros ->; reflexivity|intros [= ->]; reflexivity].
  - intros [= <-]. simpl. split.
    + split.
      * intros H. apply label_eqb_eq in H. subst a. right. eauto.
      * intros [(a' & [=] & _)|(b' & rest' & [= -> _ _])]. reflexivity.
    + split; discriminate.
Qed.

(** ** BKZTreeTracer.exit: the report of a tour *)

Lemma timed_nodes n : timed n -> forall m, In m (nodes n) -> timed m.
Proof.
  induction n as [l d cs IH] using node_ind. intros Hn m [<-|Hm]; [exact Hn|].
  apply timed_inv in Hn as [_ Hcs]. simpl in Hcs.
  apply in_flat_map in Hm as (c & Hc & Hm).
  rewrite List.Forall_forall in IH, Hcs. exact (IH c Hc (Hcs c Hc) m Hm).
Qed.

Lemma all_data_nodes P n :
  all_data P n -> forall m, In m (nodes n) -> P (Node.data m).
Proof.
  induction n as [l d cs IH] using node_ind. intros Hn m [<-|Hm].
  - apply (all_data_inv P _ Hn).
  - apply all_data_inv in Hn as [_ Hcs]. simpl in Hcs.
    apply in_flat_map in Hm as (c & Hc & Hm).
    rewrite List.Forall_forall in IH, Hcs. exact (IH c Hc (Hcs c Hc) m Hm).
Qed.

Lemma summed_nodes inc lab n m : In m (summed inc lab n) -> In m (nodes n).
Proof.
  unfold summed. rewrite List.filter_In, in_app_iff. intros [[H|H] _].
  - destruct inc; [|destruct H]. destruct H as [<-|[]].
    destruct n. left. reflexivity.
  - destruct n. right. exact H.
Qed.

(** The entries of a BKZTreeTracer can be printed: every node of its
    tree has a [str]. *)
Lemma shown_get d k v : shown_data d -> od_get k d = Some v -> shown v.
Proof.
  induction 1 as [|[k' v'] d Hv _ IH]; [discriminate|].
  rewrite od_get_cons. destruct (String.eqb k' k); [|exact IH].
  intros [= <-]. exact Hv.
Qed.

Lemma shown_set d k v : shown_data d -> shown v -> shown_data (od_set k v d).
Proof.
  intros H Hv. induction H as [|[k' w] d Hw Hd IH]; simpl.
  - constructor; [exact Hv|constructor].
  - destruct (String.eqb k' k); constructor; assumption.
Qed.

Lemma plus_stat_ok s o r :
  Statistic.__add__ s (VStat o) = Ok r ->
  Statistic._repr o = Statistic._repr s
  /\ Statistic._repr r = Statistic._repr s
  /\ Statistic._ctr r = Statistic._ctr s + Statistic._ctr o.
Proof.
  simpl. destruct (String.eqb (Statistic._repr s) (Statistic._repr o)) eqn:E;
    simpl; [|discriminate].
  apply String.eqb_eq in E. intros [= <-]. simpl. auto.
Qed.

Lemma restart_shown d k clock c :
  shown_data d ->
  vadd (od_get_default k (VNum (PInt 0)) d)
       (VStat (Statistic.__init__ (num_neg clock) "sum" false)) = Ok c ->
  shown c.
Proof.
  intros Hd. unfold od_get_default.
  destruct (od_get k d) as [v|] eqn:G.
  - pose proof (shown_get d k v Hd G) as Hv.
    destruct v as [|x|s]; simpl in Hv; try contradiction.
    unfold vadd.
    destruct (Statistic.__add__ s _) as [r|] eqn:E; simpl; [|discriminate].
    intros [= <-]. apply plus_stat_ok in E as (E1 & E2 & _). simpl in E1.
    left. congruence.
  - simpl. intros [= <-]. left. reflexivity.
Qed.

Lemma reenter_data_shown cpu wall d d' :
  shown_data d -> BKZTreeTracer.reenter_data cpu wall d = Ok d' -> shown_data d'.
Proof.
  intros Hd. unfold BKZTreeTracer.reenter_data.
  destruct (vadd (od_get_default "cputime" _ d) _) as [c|] eqn:Ec;
    cbn [bind]; [|discriminate].
  pose proof (shown_set d "cputime" c Hd (restart_shown _ _ _ _ Hd Ec)) as H1.
  destruct (vadd (od_get_default "walltime" _ _) _) as [w|] eqn:Ew;
    cbn [bind]; [|discriminate].
  intros [= <-]. apply shown_set; [exact H1|].
  apply (restart_shown _ _ _ _ H1 Ew).
Qed.

Lemma clock_shown d k clock v c :
  shown_data d -> od_getitem k d = Ok v -> vadd v (VNum clock) = Ok c ->
  shown c.
Proof.
  intros Hd. unfold od_getitem.
  destruct (od_get k d) as [v'|] eqn:G; [|discriminate].
  intros [= <-]. pose proof (shown_get d k v' Hd G) as Hv.
  destruct v' as [|x|s]; simpl in Hv; try contradiction.
  simpl. intros [= <-]. simpl.
  destruct Hv as [H|[H|[H Hc]]]; auto. right. right. split; [exact H|lia].
Qed.

Lemma exit_clocks_shown cpu wall d d' :
  shown_data d -> BKZTreeTracer.exit_clocks cpu wall d = Ok d' -> shown_data d'.
Proof.
  intros Hd. unfold BKZTreeTracer.exit_clocks.
  destruct (od_getitem "cputime" d) as [c0|] eqn:G0; cbn [bind]; [|discriminate].
  destruct (vadd c0 _) as [c|] eqn:Ec; cbn [bind]; [|discriminate].
  pose proof (shown_set d "cputime" c Hd (clock_shown _ _ _ _ _ Hd G0 Ec)) as H1.
  destruct (od_getitem "walltime" _) as [w0|] eqn:G1; cbn [bind]; [|discriminate].
  destruct (vadd w0 _) as [w|] eqn:Ew; cbn [bind]; [|discriminate].
  intros [= <-]. apply shown_set; [exact H1|].
  apply (clock_shown _ _ _ _ _ H1 G1 Ew).
Qed.

Lemma first_shown d k x mode r :
  shown_data d ->
  mode = "sum" \/ mode = "avg" ->
  Statistic.__add__ (Statistic.__init__ x mode true) (od_get_default k VNone d)
  = Ok r ->
  shown (VStat r).
Proof.
  intros Hd Hm. unfold od_get_default.
  destruct (od_get k d) as [v|] eqn:G.
  - pose proof (shown_get d k v Hd G) as Hv.
    destruct v as [|y|o]; simpl in Hv; try contradiction.
    intros E. apply plus_stat_ok in E as (E1 & E2 & E3). simpl in E1, E2, E3.
    simpl. rewrite E2, E3.
    destruct Hm as [-> | ->]; [left; reflexivity|].
    right. right. split; [reflexivity|].
    destruct Hv as [H|[H|[_ H]]]; [congruence|congruence|lia].
  - simpl. intros [= <-]. simpl.
    destruct Hm as [-> | ->]; [left; reflexivity|].
    right. right. split; [reflexivity|lia].
Qed.

Lemma exit_enumeration_shown env d d' :
  shown_data d -> BKZTreeTracer.exit_enumeration env d = Ok d' -> shown_data d'.
Proof.
  intros Hd. unfold BKZTreeTracer.exit_enumeration.
  destruct (BKZTreeTracer.e_full env); [|intros [= <-]; exact Hd].
  destruct (BKZTreeTracer.e_enum_nodes env) as [n|]; [|discriminate].
  destruct (Statistic.__add__ _ _) as [e|] eqn:Ee; cbn [bind]; cbv zeta;
    [|discriminate].
  pose proof (shown_set d "#enum" (VStat e) Hd
                (first_shown d "#enum" n "sum" e Hd (or_introl eq_refl) Ee))
    as H1.
  destruct (BKZTreeTracer.e_probability env) as [p|]; [|intros [= <-]; exact H1].
  destruct (Statistic.__add__ (Statistic.__init__ p "avg" true) _) as [q|]
    eqn:Eq; cbn [bind]; [|discriminate].
  intros [= <-]. apply shown_set; [exact H1|].
  apply (first_shown _ "%" p "avg" q H1 (or_intror eq_refl) Eq).
Qed.

Lemma exit_tour_shown env d :
  shown_data d -> shown_data (BKZTreeTracer.exit_tour env d).
Proof.
  intros Hd. unfold BKZTreeTracer.exit_tour.
  apply shown_set; [apply shown_set; [exact Hd|]|]; right; left; reflexivity.
Qed.

Lemma reenter_shown cpu wall self self' :
  all_data_at shown_data (BKZTreeTracer.current self) ->
  BKZTreeTracer.reenter cpu wall self = Ok self' ->
  all_data_at shown_data (BKZTreeTracer.current self').
Proof.
  unfold BKZTreeTracer.reenter.
  destruct (BKZTreeTracer.current self) as [c|n]; [|discriminate].
  intros Hc.
  destruct (BKZTreeTracer.reenter_data _ _ _) as [d|] eqn:E; simpl;
    [|discriminate].
  intros [= <-]. simpl. apply set_data_all_data; [exact Hc|].
  apply (reenter_data_shown _ _ _ _
           (proj1 (all_data_inv shown_data _ (proj1 Hc))) E).
Qed.

Lemma reachable_shown self :
  reachable self -> all_data_at shown_data (BKZTreeTracer.current self).
Proof.
  induction 1 as [verb l clocks self Hi|l cpu wall self self' _ IH He
                 |cpu wall self self' _ IH He|env self self' _ IH He].
  - unfold BKZTreeTracer.__init__ in Hi.
    assert (H0 : all_data_at shown_data (BKZTreeTracer.current
              {| BKZTreeTracer.current :=
                   BKZTreeTracer.At {| Cursor.focus := Node.__init__ l [];
                                       Cursor.above := [] |};
                 BKZTreeTracer.verbosity := verb |})).
    { split; [constructor; constructor|constructor]. }
    destruct clocks as [[cpu wall]|].
    + exact (reenter_shown _ _ _ _ H0 Hi).
    + injection Hi as <-. exact H0.
  - unfold BKZTreeTracer.enter in He.
    destruct (BKZTreeTracer.current self) as [c|n] eqn:Hcur; [|discriminate].
    refine (reenter_shown _ _ _ _ _ He).
    refine (child_all_data shown_data _ c l IH). constructor.
  - exact (reenter_shown _ _ _ _ IH He).
  - destruct (BKZTreeTracer.current self) as [c|n] eqn:Hcur;
      [|unfold BKZTreeTracer.exit in He; rewrite Hcur in He; discriminate].
    destruct (exit_steps shown_data shown_data env self c self' Hcur He
                (proj1 (all_data_inv shown_data _ (proj1 IH))))
      as (d & Hd & -> & _).
    + intros d d'. apply exit_clocks_shown.
    + intros d d'. apply exit_enumeration_shown.
    + intros d. apply exit_tour_shown.
    + apply parent_all_data, set_data_all_data; assumption.
Qed.

Lemma shown_printable d : shown_data d -> printable_data d.
Proof.
  unfold shown_data, printable_data. intros H.
  eapply Forall_impl; [exact H|]. intros [k v] Hv. simpl in *.
  destruct v as [|x|s]; simpl in *; try exact I.
  destruct Hv as [Hs|[Hs|[Hs Hc]]].
  - apply float_plain. auto.
  - apply float_plain. auto.
  - apply (proj1 (float_ratio s (or_introl Hs))). lia.
Qed.

Lemma shown_nodes_print n :
  all_data shown_data n ->
  forall m, In m (nodes n) -> exists t, Node.__str__ m = Ok t.
Proof.
  intros Hn m Hm. apply str_ok, shown_printable.
  apply (all_data_nodes shown_data n Hn m Hm).
Qed.

Lemma try_cputime_spec l key node report :
  timed node ->
  (forall m, In m (nodes node) -> exists t, Node.__str__ m = Ok t) ->
  (reported l node = true
   /\ exists s, Statistic._repr s = "sum"
        /\ TourReport.try_cputime l key node report
           = Ok (od_set key (VStat s) report))
  \/ (reported l node = false
      /\ TourReport.try_cputime l key node report = Ok report).
Proof.
  intros Ht Hp. unfold TourReport.try_cputime, reported.
  pose proof (find_strict_spec (LStr l) node Hp) as H.
  destruct (Node.find (LStr l) true node) as [[m|]|e].
  - destruct H as [Hin _]. simpl.
    assert (Hm : timed m).
    { apply (timed_nodes node Ht). destruct node. right. exact Hin. }
    destruct (timed_inv _ Hm) as [[Ac _] _]. unfold od_getitem, od_mem.
    destruct (od_get "cputime" (Node.data m)) as [[|x|s]|]; simpl in Ac.
    + destruct Ac.
    + destruct Ac.
    + left. split; [reflexivity|]. exists s. split; [exact Ac|reflexivity].
    + right. split; reflexivity.
  - destruct H.
  - destruct H as [-> _]. right. split; reflexivity.
Qed.

Lemma printable_stat s :
  Statistic._repr s = "sum" \/ Statistic._repr s = "min" -> printable (VStat s).
Proof. intros [H|H]; apply float_plain; auto. Qed.

Lemma foldable_printable v : foldable "sum" v -> printable v.
Proof.
  destruct v as [|x|s]; simpl; [tauto|auto|]. intros H. apply float_plain. auto.
Qed.

Lemma assemble_ok i node c1 w1 r0 slope :
  timed node -> all_data enum_data node ->
  (forall m, In m (nodes node) -> exists t, Node.__str__ m = Ok t) ->
  od_get "cputime" (Node.data node) = Some (VStat c1) ->
  od_get "walltime" (Node.data node) = Some (VStat w1) ->
  od_get "r_0" (Node.data node) = Some (VStat r0) ->
  od_get "/" (Node.data node) = Some (VStat slope) ->
  Statistic._repr r0 = "min" -> Statistic._repr slope = "min" ->
  exists report lll enum,
    TourReport.assemble i node = Ok report
    /\ map fst report
       = (["i"; "cputime"; "walltime"]
          ++ opt_key (reported "preprocessing" node) "preproc"
          ++ opt_key (reported "enumeration" node) "svp"
          ++ ["lll"]
          ++ opt_key (reported "postprocessing" node) "postproc"
          ++ opt_key (reported "pruner" node) "pruner"
          ++ ["r_0"; "/"; "#enum"])%list
    /\ od_get "i" report = Some i
    /\ od_get "cputime" report = Some (VStat c1)
    /\ od_get "walltime" report = Some (VStat w1)
    /\ od_get "r_0" report = Some (VStat r0)
    /\ od_get "/" report = Some (VStat slope)
    /\ od_get "lll" report = Some lll
    /\ Node.sum "cputime" true false (Some (LStr "lll")) node = Ok lll
    /\ od_get "#enum" report = Some enum
    /\ Node.sum "#enum" true false None node = Ok enum
    /\ (printable i -> printable_data report).
Proof.
  intros Ht He Hp Gc Gw Gr Gs Rr Rs.
  assert (Rc : Statistic._repr c1 = "sum").
  { destruct (timed_inv _ Ht) as [[Ac _] _]. rewrite Gc in Ac. exact Ac. }
  assert (Rw : Statistic._repr w1 = "sum").
  { destruct (timed_inv _ Ht) as [[_ Aw] _]. rewrite Gw in Aw. exact Aw. }
  assert (Hl : exists lll,
            Node.sum "cputime" true false (Some (LStr "lll")) node = Ok lll
            /\ foldable "sum" lll).
  { pose proof (sum_folds "cputime" "sum" false (Some (LStr "lll")) node true)
      as H.
    unfold folds_to in H. simpl in H.
    destruct H as (v & Ev & Fv & _); [|eauto].
    apply List.Forall_forall. intros m Hm. apply summed_nodes in Hm.
    destruct (timed_inv _ (timed_nodes node Ht m Hm)) as [[Ac _] _].
    unfold tag_foldable. destruct (od_get "cputime" (Node.data m)) as [[|x|s]|];
      simpl in *; auto. }
  assert (Hn : exists enum,
            Node.sum "#enum" true false None node = Ok enum
            /\ foldable "sum" enum).
  { pose proof (sum_folds "#enum" "sum" false None node true) as H.
    unfold folds_to in H. simpl in H.
    destruct H as (v & Ev & Fv & _); [|eauto].
    apply List.Forall_forall. intros m Hm. apply summed_nodes in Hm.
    destruct (all_data_nodes enum_data node He m Hm) as [Ae _].
    unfold tag_foldable, stat_entry in *.
    destruct (od_get "#enum" (Node.data m)) as [[|x|s]|]; simpl in *; auto. }
  destruct Hl as (lll & El & Fl). destruct Hn as (enum & En & Fn).
  unfold TourReport.assemble, od_getitem. rewrite Gc, Gw, Gr, Gs, El, En.
  cbv zeta. cbn [bind].
  repeat match goal with
  | |- context [TourReport.try_cputime ?l ?k ?n ?R] =>
      let Hb := fresh "Hb" in
      let s := fresh "s" in
      let Hs := fresh "Hs" in
      let E := fresh "E" in
      destruct (try_cputime_spec l k n R Ht Hp)
        as [(Hb & s & Hs & E)|(Hb & E)];
      rewrite E; clear E; cbn [bind]
  end;
  (eexists _, lll, enum; split; [reflexivity|];
   split; [rewrite ?Hb, ?Hb0, ?Hb1, ?Hb2; reflexivity|];
   repeat (split; [reflexivity|]);
   intros Hi; unfold printable_data; cbn;
   repeat (constructor;
           [cbn [snd];
            first [exact Hi
                  |apply foldable_printable; assumption
                  |apply printable_stat; auto]|]);
   constructor).
Qed.

Lemma tour_left_timed env sc sw n :
  timed n -> od_get "cputime" (Node.data n) = Some (VStat sc) ->
  od_get "walltime" (Node.data n) = Some (VStat sw) ->
  timed (tour_left env sc sw n).
Proof.
  intros Hn Gc Gw. destruct (timed_inv _ Hn) as [[Ac Aw] Hcs].
  rewrite Gc in Ac. rewrite Gw in Aw. simpl in Ac, Aw.
  unfold tour_left. constructor; [|exact Hcs].
  apply exit_tour_timed. split.
  - rewrite od_get_set_ne by discriminate. rewrite od_get_set_eq. exact Ac.
  - rewrite od_get_set_eq. exact Aw.
Qed.

Lemma tour_left_enum env sc sw n :
  all_data enum_data n -> all_data enum_data (tour_left env sc sw n).
Proof.
  intros Hn. destruct (all_data_inv enum_data _ Hn) as [Hd Hcs].
  unfold tour_left. constructor; [|exact Hcs].
  apply exit_tour_enum.
  repeat (apply enum_data_set; [discriminate|discriminate|]). exact Hd.
Qed.

Lemma add_shown s x : shown (VStat s) -> shown (VStat (Statistic.add s x)).
Proof.
  simpl. intros [H|[H|[H Hc]]]; auto. right. right. split; [exact H|lia].
Qed.

Lemma tour_left_shown env sc sw n :
  all_data shown_data n ->
  od_get "cputime" (Node.data n) = Some (VStat sc) ->
  od_get "walltime" (Node.data n) = Some (VStat sw) ->
  all_data shown_data (tour_left env sc sw n).
Proof.
  intros Hn Gc Gw. destruct (all_data_inv shown_data _ Hn) as [Hd Hcs].
  unfold tour_left. constructor; [|exact Hcs].
  apply exit_tour_shown. apply shown_set; [apply shown_set; [exact Hd|]|].
  - apply add_shown, (shown_get _ _ _ Hd Gc).
  - apply add_shown, (shown_get _ _ _ Hd Gw).
Qed.

(** X25.  The report of a tour.  In every state of a BKZTreeTracer at a
    node labelled ("tour", k, ...) with an int [k], whose clocks were
    started: [exit] leaves the node with the clocks added to its
    accumulators and "r_0" and "/" set, and the report made of that node
    when the verbosity is not 0 cannot fail.  The mapping has, in this
    order, the keys "i", "cputime", "walltime", "preproc" and "svp" (each
    only if [find] of "preprocessing", of "enumeration", gives a node and
    the node has the entry "cputime"), "lll", "postproc" and "pruner" (on
    the same condition for "postprocessing" and "pruner"), "r_0", "/"
    and "#enum".  "i" is [k]; "cputime", "walltime", "r_0" and "/" are the
    entries of the node; "lll" stands for the total of "cputime" over the
    nodes labelled "lll" below the node, and "#enum" for the total of
    "#enum" over the node and all nodes below it.  [pretty_dict] turns
    the mapping into a line. *)
Theorem tour_report_prints (env : BKZTreeTracer.exit_env)
    (self : BKZTreeTracer.t) (c : Cursor.t) (k : Z) (rest : list Label)
    (sc sw : Statistic.t) :
  reachable self ->
  BKZTreeTracer.current self = BKZTreeTracer.At c ->
  Node.label (Cursor.focus c) = LTuple (LStr "tour" :: LInt k :: rest) ->
  od_get "cputime" (Node.data (Cursor.focus c)) = Some (VStat sc) ->
  od_get "walltime" (Node.data (Cursor.focus c)) = Some (VStat sw) ->
  BKZTreeTracer.exit env self
  = (let* _ :=
       if negb (BKZTreeTracer.verbosity self =? 0)%Z then
         match BKZTreeTracer.e_report env with
         | Some e => Raise e
         | None => Ok tt
         end
       else Ok tt in
     Ok {| BKZTreeTracer.current :=
             match Cursor.parent
                     (Cursor.set_data
                        (Node.data (tour_left env sc sw (Cursor.focus c))) c)
             with
             | Some p => BKZTreeTracer.At p
             | None =>
                 BKZTreeTracer.Off (tour_left env sc sw (Cursor.focus c))
             end;
           BKZTreeTracer.verbosity := BKZTreeTracer.verbosity self |})
  /\ exists report lll enum text,
       TourReport.assemble (VNum (PInt k))
         (tour_left env sc sw (Cursor.focus c)) = Ok report
       /\ map fst report
          = (["i"; "cputime"; "walltime"]
             ++ opt_key (reported "preprocessing"
                           (tour_left env sc sw (Cursor.focus c))) "preproc"
             ++ opt_key (reported "enumeration"
                           (tour_left env sc sw (Cursor.focus c))) "svp"
             ++ ["lll"]
             ++ opt_key (reported "postprocessing"
                           (tour_left env sc sw (Cursor.focus c))) "postproc"
             ++ opt_key (reported "pruner"
                           (tour_left env sc sw (Cursor.focus c))) "pruner"
             ++ ["r_0"; "/"; "#enum"])%list
       /\ od_get "i" report = Some (VNum (PInt k))
       /\ od_get "cputime" report
          = Some (VStat (Statistic.add sc (BKZTreeTracer.e_cpu env)))
       /\ od_get "walltime" report
          = Some (VStat (Statistic.add sw (BKZTreeTracer.e_wall env)))
       /\ od_get "r_0" report
          = Some (VStat (Statistic.__init__ (BKZTreeTracer.e_r0 env) "min" true))
       /\ od_get "/" report
          = Some (VStat (Statistic.__init__ (BKZTreeTracer.e_slope env)
                           "min" true))
       /\ od_get "lll" report = Some lll
       /\ total lll
          = Qcsum (map (fun m => total (tag_or_zero "cputime" m))
                     (summed true (Some (LStr "lll"))
                        (tour_left env sc sw (Cursor.focus c))))
       /\ od_get "#enum" report = Some enum
       /\ total enum
          = Qcsum (map (fun m => total (tag_or_zero "#enum" m))
                     (summed true None (tour_left env sc sw (Cursor.focus c))))
       /\ TourReport.line (VNum (PInt k))
            (tour_left env sc sw (Cursor.focus c)) = Ok text.
Proof.
  intros Hr Hcur Hl Gc Gw. split.
  { rewrite (exit_eval env self c sc sw Hcur Gc Gw). cbv zeta.
    rewrite Hl. simpl. rewrite andb_true_r. reflexivity. }
  pose proof (reachable_timed self Hr) as Ht. unfold timed_tracer in Ht.
  pose proof (reachable_enum self Hr) as Henum.
  pose proof (reachable_shown self Hr) as Hshown.
  rewrite Hcur in Ht, Henum, Hshown. simpl in Henum, Hshown.
  set (node := tour_left env sc sw (Cursor.focus c)).
  destruct (assemble_ok (VNum (PInt k)) node
              (Statistic.add sc (BKZTreeTracer.e_cpu env))
              (Statistic.add sw (BKZTreeTracer.e_wall env))
              (Statistic.__init__ (BKZTreeTracer.e_r0 env) "min" true)
              (Statistic.__init__ (BKZTreeTracer.e_slope env) "min" true))
    as (report & lll & enum & Ea & Hkeys & Gi & Gc' & Gw' & Gr & Gs & Gl & El
        & Gn & En & Hp).
  - apply tour_left_timed; [apply Ht|exact Gc|exact Gw].
  - apply tour_left_enum, Henum.
  - apply shown_nodes_print, tour_left_shown; [apply Hshown|exact Gc|exact Gw].
  - unfold node, tour_left, BKZTreeTracer.exit_tour. simpl.
    rewrite !od_get_set_ne by discriminate. apply od_get_set_eq.
  - unfold node, tour_left, BKZTreeTracer.exit_tour. simpl.
    rewrite !od_get_set_ne by discriminate. apply od_get_set_eq.
  - unfold node, tour_left, BKZTreeTracer.exit_tour. simpl.
    rewrite od_get_set_ne by discriminate. apply od_get_set_eq.
  - unfold node, tour_left, BKZTreeTracer.exit_tour. simpl.
    apply od_get_set_eq.
  - reflexivity.
  - reflexivity.
  - destruct (pretty_dict_ok None (PInt 9999) report) as [text Htext].
    + simpl. apply (proj1 (Z2Qc_inj_le 0 9999)). lia.
    + apply Hp. exact I.
    + exists report, lll, enum, text.
      split; [exact Ea|]. split; [exact Hkeys|]. split; [exact Gi|].
      split; [exact Gc'|]. split; [exact Gw'|]. split; [exact Gr|].
      split; [exact Gs|]. split; [exact Gl|].
      split; [apply (sum_total _ _ _ _ _ _ El)|]. split; [exact Gn|].
      split; [apply (sum_total _ _ _ _ _ _ En)|].
      unfold TourReport.line. rewrite Ea. exact Htext.
Qed.

(** At a new tracer inside a first tour. *)
Lemma tour_report_prints_witness :
  BKZTreeTracer.exit env_plain tracer_in_tour
  = (let* _ :=
       if negb (BKZTreeTracer.verbosity tracer_in_tour =? 0)%Z then
         match BKZTreeTracer.e_report env_plain with
         | Some e => Raise e
         | None => Ok tt
         end
       else Ok tt in
     Ok {| BKZTreeTracer.current :=
             match Cursor.parent
                     (Cursor.set_data
                        (Node.data (tour_left env_plain tour_cpu tour_wall (Cursor.focus cursor_in_tour))) cursor_in_tour)
             with
             | Some p => BKZTreeTracer.At p
             | None =>
                 BKZTreeTracer.Off (tour_left env_plain tour_cpu tour_wall (Cursor.focus cursor_in_tour))
             end;
           BKZTreeTracer.verbosity := BKZTreeTracer.verbosity tracer_in_tour |})
  /\ exists report lll enum text,
       TourReport.assemble (VNum (PInt 0))
         (tour_left env_plain tour_cpu tour_wall (Cursor.focus cursor_in_tour)) = Ok report
       /\ map fst report
          = (["i"; "cputime"; "walltime"]
             ++ opt_key (reported "preprocessing"
                           (tour_left env_plain tour_cpu tour_wall (Cursor.focus cursor_in_tour))) "preproc"
             ++ opt_key (reported "enumeration"
                           (tour_left env_plain tour_cpu tour_wall (Cursor.focus cursor_in_tour))) "svp"
             ++ ["lll"]
             ++ opt_key (reported "postprocessing"
                           (tour_left env_plain tour_cpu tour_wall (Cursor.focus cursor_in_tour))) "postproc"
             ++ opt_key (reported "pruner"
                           (tour_left env_plain tour_cpu tour_wall (Cursor.focus cursor_in_tour))) "pruner"
             ++ ["r_0"; "/"; "#enum"])%list
       /\ od_get "i" report = Some (VNum (PInt 0))
       /\ od_get "cputime" report
          = Some (VStat (Statistic.add tour_cpu (BKZTreeTracer.e_cpu env_plain)))
       /\ od_get "walltime" report
          = Some (VStat (Statistic.add tour_wall (BKZTreeTracer.e_wall env_plain)))
       /\ od_get "r_0" report
          = Some (VStat (Statistic.__init__ (BKZTreeTracer.e_r0 env_plain) "min" true))
       /\ od_get "/" report
          = Some (VStat (Statistic.__init__ (BKZTreeTracer.e_slope env_plain)
                           "min" true))
       /\ od_get "lll" report = Some lll
       /\ total lll
          = Qcsum (map (fun m => total (tag_or_zero "cputime" m))
                     (summed true (Some (LStr "lll"))
                        (tour_left env_plain tour_cpu tour_wall (Cursor.focus cursor_in_tour))))
       /\ od_get "#enum" report = Some enum
       /\ total enum
          = Qcsum (map (fun m => total (tag_or_zero "#enum" m))
                     (summed true None (tour_left env_plain tour_cpu tour_wall (Cursor.focus cursor_in_tour))))
       /\ TourReport.line (VNum (PInt 0))
            (tour_left env_plain tour_cpu tour_wall (Cursor.focus cursor_in_tour)) = Ok text.
Proof.
  apply (tour_report_prints env_plain tracer_in_tour
           cursor_in_tour 0 [] tour_cpu tour_wall).
  - apply (reach_enter (LTuple [LStr "tour"; LInt 0]) (PInt 1) (PInt 2)
             tracer_new).
    + apply (reach_init 0 (LStr "bkz") None). reflexivity.
    + reflexivity.
  - reflexivity.
  - reflexivity.
  - reflexivity.
  - reflexivity.
Defined.



(** ** The trees of tracers can be merged *)

Lemma all_data_descend P p :
  forall n m, all_data P n -> descend p n = Some m -> all_data P m.
Proof.
  induction p as [|l p IH]; intros n m Hn; simpl.
  - intros [= <-]. exact Hn.
  - destruct (Node.first_labelled l (Node.children n)) as [[i c]|] eqn:E;
      [|discriminate].
    apply IH. destruct (all_data_inv P n Hn) as [_ Hcs].
    rewrite List.Forall_forall in Hcs. apply Hcs.
    eapply first_labelled_In, E.
Qed.

Lemma compatible_of (P : list (string * value) -> Prop) a b :
  (forall d1 d2 t v1 v2, P d1 -> P d2 ->
     od_get t d1 = Some v1 -> od_get t d2 = Some v2 ->
     is_ok (vadd v1 v2) = true) ->
  all_data P a -> all_data P b -> compatible a b.
Proof.
  intros Hadd Ha Hb p tag. unfold tag_at.
  destruct (descend p a) as [ma|] eqn:Ea, (descend p b) as [mb|] eqn:Eb;
    try (destruct (od_get tag _); reflexivity); try reflexivity.
  pose proof (proj1 (all_data_inv P _ (all_data_descend P p a ma Ha Ea))) as Hda.
  pose proof (proj1 (all_data_inv P _ (all_data_descend P p b mb Hb Eb))) as Hdb.
  destruct (od_get tag (Node.data ma)) as [va|] eqn:Ga,
           (od_get tag (Node.data mb)) as [vb|] eqn:Gb; try reflexivity.
  simpl. pose proof (Hadd _ _ _ _ _ Hda Hdb Ga Gb) as H.
  destruct (vadd va vb); [reflexivity|discriminate].
Qed.

Lemma bkz_data_nil : bkz_data [].
Proof. intros t v [=]. Qed.

Lemma bkz_data_set k s d :
  Statistic._repr s = mode_of k -> bkz_data d -> bkz_data (od_set k (VStat s) d).
Proof.
  intros Hs Hd t v. destruct (String.eqb_spec k t) as [->|Hne].
  - rewrite od_get_set_eq. intros [= <-]. eauto.
  - rewrite od_get_set_ne by exact Hne. apply Hd.
Qed.

Lemma reenter_data_bkz cpu wall d d' :
  bkz_data d -> BKZTreeTracer.reenter_data cpu wall d = Ok d' -> bkz_data d'.
Proof.
  intros Hd E.
  assert (Hacc : forall t, mode_of t = "sum" -> accumulator (od_get t d)).
  { intros t Ht. destruct (od_get t d) as [v|] eqn:G; [|exact I].
    destruct (Hd t v G) as (s & -> & Hs). simpl. congruence. }
  destruct (reenter_data_spec cpu wall d (Hacc "cputime" eq_refl)
              (Hacc "walltime" eq_refl))
    as (d'' & sc & sw & rc & rw & Ed & Gc & Gw & Hoth & _ & _ & _ & _ & _ & _
        & Ac & Aw).
  rewrite Ed in E. injection E as <-. rewrite Gc in Ac. rewrite Gw in Aw.
  simpl in Ac, Aw. intros t v G.
  destruct (String.eqb_spec t "cputime") as [->|H1].
  { rewrite Gc in G. injection G as <-. eauto. }
  destruct (String.eqb_spec t "walltime") as [->|H2].
  { rewrite Gw in G. injection G as <-. eauto. }
  rewrite (Hoth t H1 H2) in G. apply (Hd t v G).
Qed.

Lemma exit_clocks_bkz cpu wall d d' :
  bkz_data d -> BKZTreeTracer.exit_clocks cpu wall d = Ok d' -> bkz_data d'.
Proof.
  intros Hd. unfold BKZTreeTracer.exit_clocks, od_getitem.
  destruct (od_get "cputime" d) as [vc|] eqn:Gc; simpl; [|discriminate].
  destruct (Hd _ _ Gc) as (sc & -> & Rc). simpl.
  rewrite od_get_set_ne by discriminate.
  destruct (od_get "walltime" d) as [vw|] eqn:Gw; simpl; [|discriminate].
  destruct (Hd _ _ Gw) as (sw & -> & Rw). simpl.
  intros [= <-]. apply bkz_data_set; [exact Rw|].
  apply bkz_data_set; [exact Rc|exact Hd].
Qed.

Lemma exit_enumeration_bkz env d d' :
  bkz_data d -> BKZTreeTracer.exit_enumeration env d = Ok d' -> bkz_data d'.
Proof.
  intros Hd. unfold BKZTreeTracer.exit_enumeration.
  destruct (BKZTreeTracer.e_full env); [|intros [= <-]; exact Hd].
  destruct (BKZTreeTracer.e_enum_nodes env) as [n|]; [|discriminate].
  destruct (Statistic.__add__ _ _) as [e|] eqn:Ee; simpl; [|discriminate].
  apply plus_keeps_mode in Ee. simpl in Ee.
  pose proof (bkz_data_set "#enum" e d Ee Hd) as H1.
  destruct (BKZTreeTracer.e_probability env) as [p|]; [|intros [= <-]; exact H1].
  destruct (Statistic.__add__ _ _) as [q|] eqn:Eq; simpl; [|discriminate].
  apply plus_keeps_mode in Eq. simpl in Eq.
  intros [= <-]. apply bkz_data_set; [exact Eq|exact H1].
Qed.

Lemma exit_tour_bkz env d : bkz_data d -> bkz_data (BKZTreeTracer.exit_tour env d).
Proof.
  intros Hd. unfold BKZTreeTracer.exit_tour.
  apply bkz_data_set; [reflexivity|]. apply bkz_data_set; [reflexivity|exact Hd].
Qed.

Lemma reenter_bkz cpu wall self self' :
  all_data_at bkz_data (BKZTreeTracer.current self) ->
  BKZTreeTracer.reenter cpu wall self = Ok self' ->
  all_data_at bkz_data (BKZTreeTracer.current self').
Proof.
  unfold BKZTreeTracer.reenter.
  destruct (BKZTreeTracer.current self) as [c|n]; [|discriminate].
  intros Hc.
  destruct (BKZTreeTracer.reenter_data _ _ _) as [d|] eqn:E; simpl;
    [|discriminate].
  intros [= <-]. simpl. apply set_data_all_data; [exact Hc|].
  apply (reenter_data_bkz _ _ _ _
           (proj1 (all_data_inv bkz_data _ (proj1 Hc))) E).
Qed.

Lemma reachable_bkz self :
  reachable self -> all_data_at bkz_data (BKZTreeTracer.current self).
Proof.
  induction 1 as [verb l clocks self Hi|l cpu wall self self' _ IH He
                 |cpu wall self self' _ IH He|env self self' _ IH He].
  - unfold BKZTreeTracer.__init__ in Hi.
    assert (H0 : all_data_at bkz_data (BKZTreeTracer.current
              {| BKZTreeTracer.current :=
                   BKZTreeTracer.At {| Cursor.focus := Node.__init__ l [];
                                       Cursor.above := [] |};
                 BKZTreeTracer.verbosity := verb |})).
    { split; [constructor; [apply bkz_data_nil|constructor]|constructor]. }
    destruct clocks as [[cpu wall]|].
    + exact (reenter_bkz _ _ _ _ H0 Hi).
    + injection Hi as <-. exact H0.
  - unfold BKZTreeTracer.enter in He.
    destruct (BKZTreeTracer.current self) as [c|n] eqn:Hcur; [|discriminate].
    refine (reenter_bkz _ _ _ _ _ He).
    exact (child_all_data bkz_data bkz_data_nil c l IH).
  - exact (reenter_bkz _ _ _ _ IH He).
  - destruct (BKZTreeTracer.current self) as [c|n] eqn:Hcur;
      [|unfold BKZTreeTracer.exit in He; rewrite Hcur in He; discriminate].
    destruct (exit_steps bkz_data bkz_data env self c self' Hcur He
                (proj1 (all_data_inv bkz_data _ (proj1 IH))))
      as (d & Hd & -> & _).
    + intros d d'. apply exit_clocks_bkz.
    + intros d d'. apply exit_enumeration_bkz.
    + intros d. apply exit_tour_bkz.
    + apply parent_all_data, set_data_all_data; assumption.
Qed.

Lemma all_data_impl (P Q : list (string * value) -> Prop) n :
  (forall d, P d -> Q d) -> all_data P n -> all_data Q n.
Proof.
  intros HPQ. induction n as [l d cs IH] using node_ind. intros Hn.
  destruct (all_data_inv P _ Hn) as [Hd Hcs]. simpl in Hd, Hcs.
  constructor; [apply HPQ, Hd|].
  rewrite List.Forall_forall in IH, Hcs. apply List.Forall_forall.
  intros c Hc. apply (IH c Hc), Hcs, Hc.
Qed.

(** X26.  The trees of two tracers of one class can always be merged:
    for any two states [s1] and [s2] that BKZTreeTracers go through,
    [s1.trace.merge(s2.trace)] returns, and the tree it leaves is still
    as [child] builds it; and the same holds of TimeTreeTracers.  (In a
    tree of a BKZTreeTracer every entry is a Statistic whose mode its tag
    determines, so that [+] never meets two modes; in a tree of a
    TimeTreeTracer every entry is a number.) *)
Theorem traces_always_merge :
  (forall s1 s2, reachable s1 -> reachable s2 ->
     all_data bkz_data (BKZTreeTracer.trace s1)
     /\ exists t,
          Node.merge (BKZTreeTracer.trace s1) (BKZTreeTracer.trace s2) = Ok t
          /\ wf t)
  /\ (forall s1 s2, time_reachable s1 -> time_reachable s2 ->
        exists t,
          Node.merge (TimeTreeTracer.trace s1) (TimeTreeTracer.trace s2) = Ok t
          /\ wf t).
Proof.
  split.
  - intros s1 s2 H1 H2.
    assert (T : forall s, reachable s -> all_data bkz_data (BKZTreeTracer.trace s)).
    { intros s Hs. pose proof (reachable_bkz s Hs) as H.
      unfold BKZTreeTracer.trace.
      destruct (BKZTreeTracer.current s); [apply root_all_data|]; exact H. }
    assert (W : forall s, reachable s -> wf (BKZTreeTracer.trace s)).
    { intros s Hs. pose proof (reachable_wf s Hs) as H.
      unfold BKZTreeTracer.trace.
      destruct (BKZTreeTracer.current s); [apply wf_root|]; exact H. }
    split; [apply T, H1|].
    destruct (merge_compatible_ok (BKZTreeTracer.trace s1)
                (BKZTreeTracer.trace s2) (W s2 H2)) as [t Ht].
    + apply (compatible_of bkz_data); [|apply T, H1|apply T, H2].
      intros d1 d2 t v1 v2 Hd1 Hd2 G1 G2.
      destruct (Hd1 t v1 G1) as (x & -> & Rx).
      destruct (Hd2 t v2 G2) as (y & -> & Ry).
      simpl. rewrite Rx, Ry, String.eqb_refl. reflexivity.
    + exists t. split; [exact Ht|].
      apply (merge_keeps_wf _ _ _ Ht), W, H1.
  - intros s1 s2 H1 H2.
    assert (T : forall s, time_reachable s ->
                all_data number_entries (TimeTreeTracer.trace s)).
    { intros s Hs. pose proof (time_reachable_numbers s Hs) as H.
      apply (all_data_impl numbers).
      { intros d Hd t v. apply numbers_get, Hd. }
      unfold TimeTreeTracer.trace.
      destruct (TimeTreeTracer.current s); [apply root_all_data|]; exact H. }
    assert (W : forall s, time_reachable s -> wf (TimeTreeTracer.trace s)).
    { intros s Hs. pose proof (time_reachable_wf s Hs) as H.
      unfold TimeTreeTracer.trace.
      destruct (TimeTreeTracer.current s); [apply wf_root|]; exact H. }
    destruct (merge_compatible_ok (TimeTreeTracer.trace s1)
                (TimeTreeTracer.trace s2) (W s2 H2)) as [t Ht].
    + apply (compatible_of number_entries); [|apply T, H1|apply T, H2].
      intros d1 d2 t v1 v2 Hd1 Hd2 G1 G2.
      destruct (Hd1 t v1 G1) as (x & ->).
      destruct (Hd2 t v2 G2) as (y & ->). reflexivity.
    + exists t. split; [exact Ht|].
      apply (merge_keeps_wf _ _ _ Ht), W, H1.
Qed.
